(** * Chatbot_Bookstore: the understanding and dialogue-control engine

    A shallow embedding of [src/nlp_processor.py], [src/session_manager.py]
    and the order-flow handlers of [src/chatbot.py], with the properties of
    the specification proved (or refuted) against it.

    Layout:
    - [text]: Python [str] values as lists of Unicode code points;
    - [PyUnicode]: the part of the interpreter's Unicode database the
      program reads (whitespace, alphanumerics, digits, lower-casing);
    - the fragment of Python's [re] module the source relies on;
    - [VietnameseTextProcessor], [SentimentAnalyzer], [IntentClassifier];
    - [SessionManager], [OrderFlowManager] and the quantity handler of
      [OptimizedChatbot];
    - the rest of [SessionManager] (history, context), the phone and
      address extractors with the address handler, [ContextManager];
    - the theorems, one per claim, followed by further properties of
      the session store, the order flow and the text functions. *)

From Stdlib Require Import Floats ZArith DecimalString DecimalPos.
From stdpp Require Import gmap strings list.

Set Warnings "-inexact-float".
Set Default Proof Using "Type".

Local Open Scope N_scope.

(** ** Text *)

(** A Python [str] is a sequence of code points; [len] counts them. *)
Abbreviation text := (list N).

(** Source literals are written as UTF-8 string literals and decoded. *)
Fixpoint string_bytes (s : string) : list N :=
  match s with
  | EmptyString => []
  | String a s' => Ascii.N_of_ascii a :: string_bytes s'
  end.

Fixpoint utf8_decode (bs : list N) : text :=
  match bs with
  | [] => []
  | b :: bs1 =>
    if b <? 0x80 then b :: utf8_decode bs1
    else match bs1 with
    | [] => [b]
    | b1 :: bs2 =>
      if b <? 0xE0 then ((b - 0xC0) * 64 + (b1 - 0x80)) :: utf8_decode bs2
      else match bs2 with
      | [] => [b; b1]
      | b2 :: bs3 =>
        if b <? 0xF0
        then ((b - 0xE0) * 4096 + (b1 - 0x80) * 64 + (b2 - 0x80)) :: utf8_decode bs3
        else match bs3 with
        | [] => [b; b1; b2]
        | b3 :: bs4 =>
          ((b - 0xF0) * 262144 + (b1 - 0x80) * 4096 + (b2 - 0x80) * 64 + (b3 - 0x80))
            :: utf8_decode bs4
        end
      end
    end
  end.

Definition utf8 (s : string) : text := utf8_decode (string_bytes s).

(** ** The Unicode database

    [str.lower], [str.strip], [str.split], [int] and the classes [\w],
    [\s], [\d] of [re] consult the interpreter's Unicode tables.  The
    program is modelled over any table with the four laws below, which
    CPython's tables satisfy: U+0020 is whitespace and is its own lower
    case, every character produced by [str.lower] is left alone by
    [str.lower], and a string of such characters is returned unchanged. *)
Class PyUnicode := {
  py_isspace : N → bool;          (* str.isspace, \s *)
  py_isalnum : N → bool;          (* str.isalnum; \w adds the underscore *)
  py_decimal : N → option Z;      (* value of a decimal digit: \d, int() *)
  py_tolower : N → N;             (* one-to-one lower case, re.IGNORECASE *)
  py_lower : text → text;         (* str.lower *)
  py_isspace_SP : py_isspace 32 = true;
  py_lower_SP : py_lower [32] = [32];
  py_lower_lowered : ∀ t c, c ∈ py_lower t → py_lower [c] = [c];
  py_lower_fixed : ∀ t, (∀ c, c ∈ t → py_lower [c] = [c]) → py_lower t = t;
}.

(** ** Python built-ins on [str] *)

Section Str.
Context `{PyUnicode}.

(** [str.strip()]: drops leading and trailing whitespace. *)
Fixpoint py_lstrip (t : text) : text :=
  match t with
  | [] => []
  | c :: t' => if py_isspace c then py_lstrip t' else t
  end.

Fixpoint py_rstrip (t : text) : text :=
  match t with
  | [] => []
  | c :: t' =>
    let r := py_rstrip t' in
    if py_isspace c && bool_decide (r = []) then [] else c :: r
  end.

Definition py_strip (t : text) : text := py_rstrip (py_lstrip t).

(** [str.split()]: the maximal runs of non-whitespace characters.
    [w] is the word being read, in reverse. *)
Fixpoint split_go (w : text) (t : text) : list text :=
  match t with
  | [] => if bool_decide (w = []) then [] else [reverse w]
  | c :: t' =>
    if py_isspace c
    then (if bool_decide (w = []) then split_go [] t'
          else reverse w :: split_go [] t')
    else split_go (c :: w) t'
  end.

Definition py_split (t : text) : list text := split_go [] t.

(** [int(s)] on a string of decimal digits. *)
Definition py_int (t : text) : option Z :=
  match t with
  | [] => None
  | _ => foldl (λ acc c, a ← acc; d ← py_decimal c; Some (10 * a + d)%Z)
               (Some 0%Z) t
  end.

(** [a in b] on strings: [a] occurs in [b] as a substring. *)
Fixpoint py_startswith (a b : text) : bool :=
  match a, b with
  | [], _ => true
  | x :: a', y :: b' => (x =? y) && py_startswith a' b'
  | _ :: _, [] => false
  end.

Fixpoint py_contains (a b : text) : bool :=
  py_startswith a b ||
  match b with
  | [] => false
  | _ :: b' => py_contains a b'
  end.

End Str.

(** ** The fragment of [re] used by the source

    Patterns are kept as the source writes them and compiled by
    [re_compile]; [re_match] is a backtracking matcher that tries
    alternatives from left to right and repetitions greedily (or lazily
    for [+?]), which is the order Python's engine explores them in. *)

Inductive cset_item :=
| CWord                       (* \w *)
| CSpace                      (* \s *)
| CDigit                      (* \d *)
| CLit (c : N).

Inductive regex :=
| REmpty
| RChar (c : N)
| RAny                                             (* . *)
| RSet (negated : bool) (items : list cset_item)   (* [...] and \w \s \d *)
| RSeq (r1 r2 : regex)
| RAlt (r1 r2 : regex)
| RRepeat (greedy : bool) (lo : nat) (hi : option nat) (r : regex)
| RGroup (n : nat) (r : regex)                     (* capturing group *)
| RBoundary                                        (* \b *)
| REnd                                             (* $ *)
| RNotAhead (r : regex).                           (* (?!...) *)

(** *** Compilation of pattern strings *)

Module Syntax.

Abbreviation LPAREN := 40 (only parsing).
Abbreviation RPAREN := 41 (only parsing).
Abbreviation STAR := 42 (only parsing).
Abbreviation PLUS := 43 (only parsing).
Abbreviation COMMA := 44 (only parsing).
Abbreviation MINUS := 45 (only parsing).
Abbreviation DOT := 46 (only parsing).
Abbreviation DOLLAR := 36 (only parsing).
Abbreviation BANG := 33 (only parsing).
Abbreviation COLON := 58 (only parsing).
Abbreviation QUESTION := 63 (only parsing).
Abbreviation LBRACKET := 91 (only parsing).
Abbreviation BACKSLASH := 92 (only parsing).
Abbreviation RBRACKET := 93 (only parsing).
Abbreviation CARET := 94 (only parsing).
Abbreviation LBRACE := 123 (only parsing).
Abbreviation BAR := 124 (only parsing).
Abbreviation RBRACE := 125 (only parsing).
Abbreviation LOWER_B := 98 (only parsing).
Abbreviation LOWER_D := 100 (only parsing).
Abbreviation LOWER_S := 115 (only parsing).
Abbreviation LOWER_W := 119 (only parsing).

Definition is_ascii_digit (c : N) : bool := (48 <=? c) && (c <=? 57).

(** A run of ASCII digits, as a number. *)
Fixpoint parse_nat (acc : nat) (p : text) : nat * text :=
  match p with
  | c :: p' =>
    if is_ascii_digit c then parse_nat (10 * acc + N.to_nat (c - 48)) p'
    else (acc, p)
  | [] => (acc, p)
  end.

(** The characters that may be escaped to stand for themselves. *)
Definition is_punct (c : N) : bool :=
  bool_decide (c ∈ [LPAREN; RPAREN; STAR; PLUS; DOT; DOLLAR; QUESTION;
                    LBRACKET; BACKSLASH; RBRACKET; CARET; LBRACE; BAR;
                    RBRACE; MINUS]).

(** The body of [[...]], after the optional [^]. *)
Fixpoint parse_set (p : text) : option (list cset_item * text) :=
  match p with
  | [] => None
  | RBRACKET :: p' => Some ([], p')
  | BACKSLASH :: c :: p' =>
    item ← (match c with
            | LOWER_W => Some CWord
            | LOWER_S => Some CSpace
            | LOWER_D => Some CDigit
            | _ => if is_punct c then Some (CLit c) else None
            end);
    '(items, rest) ← parse_set p';
    Some (item :: items, rest)
  | BACKSLASH :: [] => None
  | MINUS :: _ => None
  | c :: p' =>
    '(items, rest) ← parse_set p';
    Some (CLit c :: items, rest)
  end.

(** The quantifier that may follow an atom. *)
Definition parse_quant (a : regex) (p : text) : option (regex * text) :=
  let lazy (lo : nat) (hi : option nat) (p' : text) :=
    match p' with
    | QUESTION :: p'' => Some (RRepeat false lo hi a, p'')
    | _ => Some (RRepeat true lo hi a, p')
    end in
  match p with
  | STAR :: p' => lazy 0%nat None p'
  | PLUS :: p' => lazy 1%nat None p'
  | QUESTION :: p' => lazy 0%nat (Some 1%nat) p'
  | LBRACE :: c :: p' =>
    if is_ascii_digit c then
      let '(lo, p1) := parse_nat 0 (c :: p') in
      match p1 with
      | RBRACE :: p2 => lazy lo (Some lo) p2
      | COMMA :: RBRACE :: p2 => lazy lo None p2
      | COMMA :: d :: p2 =>
        if is_ascii_digit d then
          let '(hi, p3) := parse_nat 0 (d :: p2) in
          match p3 with
          | RBRACE :: p4 => lazy lo (Some hi) p4
          | _ => None
          end
        else None
      | _ => None
      end
    else None
  | LBRACE :: [] => None
  | _ => Some (a, p)
  end.

(** Recursive descent; [g] is the number of groups opened so far. *)
Fixpoint parse_alt (fuel : nat) (p : text) (g : nat)
    : option (regex * text * nat) :=
  match fuel with
  | O => None
  | S fuel' =>
    '(r1, p1, g1) ← parse_seq fuel' p g;
    match p1 with
    | BAR :: p2 =>
      '(r2, p3, g2) ← parse_alt fuel' p2 g1;
      Some (RAlt r1 r2, p3, g2)
    | _ => Some (r1, p1, g1)
    end
  end
with parse_seq (fuel : nat) (p : text) (g : nat)
    : option (regex * text * nat) :=
  match fuel with
  | O => None
  | S fuel' =>
    match p with
    | [] => Some (REmpty, p, g)
    | BAR :: _ => Some (REmpty, p, g)
    | RPAREN :: _ => Some (REmpty, p, g)
    | _ =>
      '(a, p1, g1) ← parse_atom fuel' p g;
      '(q, p2) ← parse_quant a p1;
      '(r, p3, g2) ← parse_seq fuel' p2 g1;
      Some (RSeq q r, p3, g2)
    end
  end
with parse_atom (fuel : nat) (p : text) (g : nat)
    : option (regex * text * nat) :=
  match fuel with
  | O => None
  | S fuel' =>
    match p with
    | LPAREN :: QUESTION :: COLON :: p1 =>
      '(r, p2, g1) ← parse_alt fuel' p1 g;
      match p2 with
      | RPAREN :: p3 => Some (r, p3, g1)
      | _ => None
      end
    | LPAREN :: QUESTION :: BANG :: p1 =>
      '(r, p2, g1) ← parse_alt fuel' p1 g;
      match p2 with
      | RPAREN :: p3 => Some (RNotAhead r, p3, g1)
      | _ => None
      end
    | LPAREN :: QUESTION :: _ => None
    | LPAREN :: p1 =>
      '(r, p2, g1) ← parse_alt fuel' p1 (S g);
      match p2 with
      | RPAREN :: p3 => Some (RGroup (S g) r, p3, g1)
      | _ => None
      end
    | LBRACKET :: CARET :: p1 =>
      '(items, p2) ← parse_set p1; Some (RSet true items, p2, g)
    | LBRACKET :: p1 =>
      '(items, p2) ← parse_set p1; Some (RSet false items, p2, g)
    | BACKSLASH :: c :: p1 =>
      match c with
      | LOWER_W => Some (RSet false [CWord], p1, g)
      | LOWER_S => Some (RSet false [CSpace], p1, g)
      | LOWER_D => Some (RSet false [CDigit], p1, g)
      | LOWER_B => Some (RBoundary, p1, g)
      | _ => if is_punct c then Some (RChar c, p1, g) else None
      end
    | DOT :: p1 => Some (RAny, p1, g)
    | DOLLAR :: p1 => Some (REnd, p1, g)
    | c :: p1 =>
      if bool_decide (c ∈ [STAR; PLUS; QUESTION; LBRACE; RBRACE; RBRACKET;
                           CARET; BACKSLASH; RPAREN; BAR])
      then None else Some (RChar c, p1, g)
    | [] => None
    end
  end.

(** [re.compile]: [None] stands for a pattern outside the fragment. *)
Definition re_compile (pattern : text) : option regex :=
  '(r, rest, _) ← parse_alt (2 * length pattern + 2) pattern 0%nat;
  match rest with
  | [] => Some r
  | _ => None
  end.

End Syntax.
Export Syntax.

(** *** Matching *)

(** A position in the subject string: the character before it (for [\b]),
    the characters from it on, and its index. *)
Record cursor := Cursor {
  cur_prev : option N;
  cur_rest : text;
  cur_pos : nat;
}.

(** The spans of the capturing groups matched so far, latest first. *)
Abbreviation groups := (list (nat * (nat * nat))).

(** A match object: [m.start()], [m.end()], the group spans, [m.string]. *)
Record Match := mkMatch {
  m_start : nat;
  m_end : nat;
  m_groups : groups;
  m_string : text;
}.

Section Re.
Context `{PyUnicode}.

Definition is_word (c : N) : bool := py_isalnum c || (c =? 95).

(** A literal against a character of the subject.  Under
    [re.IGNORECASE] the two are compared through their one-to-one lower
    case. *)
Definition char_eq (ignorecase : bool) (c x : N) : bool :=
  if ignorecase then py_tolower c =? py_tolower x else c =? x.

Definition in_item (ignorecase : bool) (x : N) (i : cset_item) : bool :=
  match i with
  | CWord => is_word x
  | CSpace => py_isspace x
  | CDigit => bool_decide (is_Some (py_decimal x))
  | CLit c => char_eq ignorecase c x
  end.

Definition in_set (ignorecase negated : bool) (items : list cset_item)
    (x : N) : bool :=
  xorb negated (existsb (in_item ignorecase x) items).

(** [\b]: exactly one of the two neighbours is a word character. *)
Definition at_boundary (cur : cursor) : bool :=
  xorb (from_option is_word false (cur_prev cur))
       (from_option is_word false (head (cur_rest cur))).

Definition advance (x : N) (rest : text) (cur : cursor) : cursor :=
  Cursor (Some x) rest (S (cur_pos cur)).

Definition under (n : nat) (hi : option nat) : bool :=
  match hi with
  | None => true
  | Some h => (n <? h)%nat
  end.

Definition accept (cur : cursor) (gs : groups) : option (cursor * groups) :=
  Some (cur, gs).

Abbreviation cont := (cursor → groups → option (cursor * groups)).

(** The rounds of a repetition of [body], [n] of them done: one more
    round first when greedy, the rest of the pattern [k] first when
    lazy.  A round that matched the empty string is not followed by
    another, so the characters left bound the number of rounds. *)
Fixpoint rounds (body : cursor → groups → cont → option (cursor * groups))
    (greedy : bool) (lo : nat) (hi : option nat) (k : cont)
    (fuel n : nat) (cur : cursor) (gs : groups) {struct fuel}
    : option (cursor * groups) :=
  match fuel with
  | O => None
  | S fuel' =>
    let again (_ : unit) :=
      if under n hi then
        body cur gs (λ cur' gs',
          if (cur_pos cur <? cur_pos cur')%nat
          then rounds body greedy lo hi k fuel' (S n) cur' gs' else None)
      else None in
    let stop (_ : unit) :=
      if (lo <=? n)%nat then k cur gs else None in
    if greedy then
      match again () with
      | Some res => Some res
      | None => stop ()
      end
    else
      match stop () with
      | Some res => Some res
      | None => again ()
      end
  end.

(** [re_match ic r cur gs k]: match [r] at [cur], then run the rest of
    the pattern [k]; the first success in priority order is returned. *)
Fixpoint re_match (ic : bool) (r : regex) (cur : cursor) (gs : groups)
    (k : cont) : option (cursor * groups) :=
  match r with
  | REmpty => k cur gs
  | RChar c =>
    match cur_rest cur with
    | x :: rest => if char_eq ic c x then k (advance x rest cur) gs else None
    | [] => None
    end
  | RAny =>
    match cur_rest cur with
    | x :: rest => if x =? 10 then None else k (advance x rest cur) gs
    | [] => None
    end
  | RSet negated items =>
    match cur_rest cur with
    | x :: rest =>
      if in_set ic negated items x then k (advance x rest cur) gs else None
    | [] => None
    end
  | RSeq r1 r2 =>
    re_match ic r1 cur gs (λ cur' gs', re_match ic r2 cur' gs' k)
  | RAlt r1 r2 =>
    match re_match ic r1 cur gs k with
    | Some res => Some res
    | None => re_match ic r2 cur gs k
    end
  | RRepeat greedy lo hi r' =>
    rounds (re_match ic r') greedy lo hi k
           (S (length (cur_rest cur))) 0%nat cur gs
  | RGroup n r' =>
    re_match ic r' cur gs (λ cur' gs',
      k cur' ((n, (cur_pos cur, cur_pos cur')) :: gs'))
  | RBoundary => if at_boundary cur then k cur gs else None
  | REnd =>
    match cur_rest cur with
    | [] => k cur gs
    | [10] => k cur gs
    | _ => None
    end
  | RNotAhead r' =>
    match re_match ic r' cur gs accept with
    | Some _ => None
    | None => k cur gs
    end
  end.

(** A match of the whole pattern starting exactly at [cur]. *)
Definition match_here (ic : bool) (r : regex) (s : text) (cur : cursor)
    : option (Match * cursor) :=
  match re_match ic r cur [] accept with
  | Some (cur', gs) => Some (mkMatch (cur_pos cur) (cur_pos cur') gs s, cur')
  | None => None
  end.

(** The leftmost match at or after a position. *)
Fixpoint search_from (ic : bool) (r : regex) (s : text)
    (prev : option N) (rest : text) (pos : nat) : option (Match * cursor) :=
  match match_here ic r s (Cursor prev rest pos) with
  | Some res => Some res
  | None =>
    match rest with
    | [] => None
    | x :: rest' => search_from ic r s (Some x) rest' (S pos)
    end
  end.

Definition step (cur : cursor) : option cursor :=
  match cur_rest cur with
  | [] => None
  | x :: rest => Some (advance x rest cur)
  end.

(** The successive non-overlapping matches, left to right.  After an
    empty match the scan moves one character on. *)
Fixpoint finditer_from (fuel : nat) (ic : bool) (r : regex) (s : text)
    (cur : cursor) : list Match :=
  match fuel with
  | O => []
  | S fuel' =>
    match search_from ic r s (cur_prev cur) (cur_rest cur) (cur_pos cur) with
    | None => []
    | Some (m, cur') =>
      m :: (if (m_start m <? m_end m)%nat
            then finditer_from fuel' ic r s cur'
            else match step cur' with
                 | Some cur'' => finditer_from fuel' ic r s cur''
                 | None => []
                 end)
    end
  end.

(** Replacement of every match by [repl], copying what lies between. *)
Fixpoint sub_from (fuel : nat) (ic : bool) (r : regex) (repl : text)
    (s : text) (cur : cursor) : text :=
  match fuel with
  | O => cur_rest cur
  | S fuel' =>
    match match_here ic r s cur with
    | Some (m, cur') =>
      if (m_start m <? m_end m)%nat
      then repl ++ sub_from fuel' ic r repl s cur'
      else match cur_rest cur with
           | [] => repl
           | x :: rest =>
             repl ++ x :: sub_from fuel' ic r repl s (advance x rest cur)
           end
    | None =>
      match cur_rest cur with
      | [] => []
      | x :: rest => x :: sub_from fuel' ic r repl s (advance x rest cur)
      end
    end
  end.

Definition start_of (s : text) : cursor := Cursor None s 0.

(** [re.search(pattern, s, flags)]. *)
Definition re_search (pattern : text) (s : text) (ignorecase : bool)
    : option Match :=
  match re_compile pattern with
  | Some r => fst <$> search_from ignorecase r s None s 0
  | None => None
  end.

(** [list(re.finditer(pattern, s, flags))]. *)
Definition re_finditer (pattern : text) (s : text) (ignorecase : bool)
    : list Match :=
  match re_compile pattern with
  | Some r => finditer_from (S (length s)) ignorecase r s (start_of s)
  | None => []
  end.

(** [re.sub(pattern, repl, s)], for a replacement without escapes. *)
Definition re_sub (pattern : text) (repl : text) (s : text) : text :=
  match re_compile pattern with
  | Some r => sub_from (S (length s)) false r repl s (start_of s)
  | None => s
  end.

(** [m.span(n)] and [m.group(n)]; [m.group()] is [m_group m 0].  A
    group that took no part in the match has no span. *)
Fixpoint group_span (gs : groups) (n : nat) : option (nat * nat) :=
  match gs with
  | [] => None
  | (k, sp) :: gs' => if (k =? n)%nat then Some sp else group_span gs' n
  end.

Definition m_span (m : Match) (n : nat) : option (nat * nat) :=
  match n with
  | O => Some (m_start m, m_end m)
  | _ => group_span (m_groups m) n
  end.

Definition slice (s : text) (i j : nat) : text := take (j - i) (drop i s).

Definition m_group (m : Match) (n : nat) : option text :=
  '(i, j) ← m_span m n; Some (slice (m_string m) i j).

End Re.

(** ** [VietnameseTextProcessor] *)

Section VietnameseTextProcessor.
Context `{PyUnicode}.

(** [SYNONYMS], in the order the dictionary literal lists its entries. *)
Definition SYNONYMS : list (text * list text) :=
  [ (utf8 "sách", [utf8 "cuốn"; utf8 "quyển"; utf8 "tập"; utf8 "book"]);
    (utf8 "giá", [utf8 "tiền"; utf8 "cost"; utf8 "price"]);
    (utf8 "tác giả", [utf8 "writer"; utf8 "author"]);
    (utf8 "thể loại", [utf8 "category"; utf8 "genre"; utf8 "loại"]);
    (utf8 "đặt", [utf8 "mua"; utf8 "order"; utf8 "purchase"]);
    (utf8 "hay", [utf8 "tốt"; utf8 "đáng đọc"; utf8 "interesting";
                  utf8 "good"]) ].

(** The pattern of [normalize_text] that blanks punctuation. *)
Definition punctuation_pattern : text :=
  utf8 "[^\w\sàáạảãâầấậẩẫăằắặẳẵèéẹẻẽêềếệểễìíịỉĩòóọỏõôồốộổỗơờớợởỡùúụủũưừứựửữỳýỵỷỹđ]".

Definition normalize_text (t : text) : text :=
  if bool_decide (t = []) then []
  else
    let t1 := py_strip (py_lower t) in
    let t2 := re_sub punctuation_pattern (utf8 " ") t1 in
    let t3 := re_sub (utf8 "\s+") (utf8 " ") t2 in
    py_strip t3.

Definition expand_synonyms (t : text) : text :=
  foldl (λ t '(main_word, synonyms),
           foldl (λ t synonym,
                    re_sub (utf8 "\b" ++ synonym ++ utf8 "\b") main_word t)
                 t synonyms)
        t SYNONYMS.

End VietnameseTextProcessor.

(** ** [SentimentAnalyzer] *)

Inductive SentimentType := POSITIVE | NEGATIVE | NEUTRAL | FRUSTRATED | EXCITED.

Definition POSITIVE_KEYWORDS : gset text := list_to_set
  [ utf8 "tốt"; utf8 "hay"; utf8 "tuyệt"; utf8 "xuất sắc"; utf8 "đẹp";
    utf8 "thích"; utf8 "yêu"; utf8 "hài lòng"; utf8 "vui"; utf8 "hạnh phúc";
    utf8 "thú vị"; utf8 "hấp dẫn"; utf8 "cuốn hút"; utf8 "ấn tượng";
    utf8 "cảm ơn"; utf8 "thanks"; utf8 "thank you"; utf8 "cảm ơn bạn";
    utf8 "tuyệt vời"; utf8 "hoàn hảo"; utf8 "chất lượng"; utf8 "đáng giá";
    utf8 "nên mua"; utf8 "khuyên" ].

Definition NEGATIVE_KEYWORDS : gset text := list_to_set
  [ utf8 "tệ"; utf8 "xấu"; utf8 "không thích"; utf8 "ghét"; utf8 "chán";
    utf8 "nhàm chán"; utf8 "thất vọng"; utf8 "buồn"; utf8 "tức giận";
    utf8 "khó chịu"; utf8 "phiền"; utf8 "không hài lòng"; utf8 "đắt";
    utf8 "mắc"; utf8 "không đáng"; utf8 "lừa đảo"; utf8 "giả";
    utf8 "kém chất lượng"; utf8 "hết hàng"; utf8 "không có";
    utf8 "thất bại"; utf8 "lỗi"; utf8 "sai" ].

Definition FRUSTRATED_KEYWORDS : gset text := list_to_set
  [ utf8 "tại sao"; utf8 "sao lại"; utf8 "không hiểu"; utf8 "khó hiểu";
    utf8 "phức tạp"; utf8 "rối rắm"; utf8 "không biết"; utf8 "làm sao";
    utf8 "như thế nào"; utf8 "help"; utf8 "giúp"; utf8 "hướng dẫn";
    utf8 "không tìm thấy"; utf8 "không có" ].

Definition EXCITED_KEYWORDS : gset text := list_to_set
  [ utf8 "wow"; utf8 "tuyệt quá"; utf8 "amazing"; utf8 "incredible";
    utf8 "fantastic"; utf8 "tuyệt vời"; utf8 "quá hay"; utf8 "quá tốt";
    utf8 "thích quá"; utf8 "mê quá"; utf8 "đặt ngay"; utf8 "mua ngay";
    utf8 "cần ngay"; utf8 "gấp"; utf8 "urgent" ].

Section SentimentAnalyzer.
Context `{PyUnicode}.

Definition analyze_sentiment (t : text) : SentimentType :=
  if bool_decide (t = []) then NEUTRAL
  else
    let text_lower := py_lower t in
    let words : gset text := list_to_set (py_split text_lower) in
    let positive_count := size (words ∩ POSITIVE_KEYWORDS) in
    let negative_count := size (words ∩ NEGATIVE_KEYWORDS) in
    let frustrated_count := size (words ∩ FRUSTRATED_KEYWORDS) in
    let excited_count := size (words ∩ EXCITED_KEYWORDS) in
    if (0 <? excited_count)%nat && (positive_count <=? excited_count)%nat
    then EXCITED
    else if (0 <? frustrated_count)%nat
            && (negative_count <=? frustrated_count)%nat
    then FRUSTRATED
    else if (negative_count <? positive_count)%nat then POSITIVE
    else if (positive_count <? negative_count)%nat then NEGATIVE
    else NEUTRAL.

(** The reference definition of the specification: the distinct words of
    the lower-cased input, the number of them found in each keyword
    list, and the resolution order on the four counts. *)
Definition resolve_sentiment (positive negative frustrated excited : nat)
    : SentimentType :=
  if bool_decide ((0 < excited)%nat ∧ (positive ≤ excited)%nat) then EXCITED
  else if bool_decide ((0 < frustrated)%nat ∧ (negative ≤ frustrated)%nat)
  then FRUSTRATED
  else if bool_decide (negative < positive)%nat then POSITIVE
  else if bool_decide (positive < negative)%nat then NEGATIVE
  else NEUTRAL.

Definition distinct_words (t : text) : list text :=
  remove_dups (py_split (py_lower t)).

Definition keyword_count (keywords : gset text) (ws : list text) : nat :=
  length (filter (λ w, w ∈ keywords) ws).

Definition sentiment_reference (t : text) : SentimentType :=
  let ws := distinct_words t in
  resolve_sentiment (keyword_count POSITIVE_KEYWORDS ws)
                    (keyword_count NEGATIVE_KEYWORDS ws)
                    (keyword_count FRUSTRATED_KEYWORDS ws)
                    (keyword_count EXCITED_KEYWORDS ws).

End SentimentAnalyzer.

(** ** [IntentClassifier] *)

Inductive IntentType :=
| ORDER | QUERY | SEARCH_BY_TITLE | SEARCH_BY_AUTHOR | SEARCH_BY_CATEGORY
| SEARCH_BY_PRICE | RECOMMEND | RECOMMEND_BY_PRICE | RECOMMEND_BEST
| LIST_CATEGORIES | CHECK_STOCK | GREETING | GOODBYE | HELP | COMPARISON
| REVIEW | UNKNOWN.

#[export] Instance IntentType_eq_dec : EqDecision IntentType.
Proof. solve_decision. Defined.

(** [IntentType.value]. *)
Definition intent_value (i : IntentType) : string :=
  match i with
  | ORDER => "order" | QUERY => "query"
  | SEARCH_BY_TITLE => "search_by_title"
  | SEARCH_BY_AUTHOR => "search_by_author"
  | SEARCH_BY_CATEGORY => "search_by_category"
  | SEARCH_BY_PRICE => "search_by_price"
  | RECOMMEND => "recommend"
  | RECOMMEND_BY_PRICE => "recommend_by_price"
  | RECOMMEND_BEST => "recommend_best"
  | LIST_CATEGORIES => "list_categories"
  | CHECK_STOCK => "check_stock"
  | GREETING => "greeting" | GOODBYE => "goodbye" | HELP => "help"
  | COMPARISON => "comparison" | REVIEW => "review" | UNKNOWN => "unknown"
  end.

Record ExtractedEntity := mkEntity {
  value : text;
  entity_confidence : float;
  start_pos : nat;
  end_pos : nat;
  entity_type : string;
}.

(** The values a parameter dictionary holds. *)
Inductive pyval :=
| VInt (z : Z)
| VStr (t : text)
| VBool (b : bool)
| VRange (min_price max_price : option Z).   (* a pair, [None] allowed *)

Record IntentResult := mkIntentResult {
  intent : IntentType;
  confidence : float;
  entities : list ExtractedEntity;
  parameters : gmap string pyval;
  original_text : text;
  sentiment : option SentimentType;
  context : option (gmap string pyval);
}.

(** [_build_intent_patterns], in the order of the dictionary literal. *)
Definition intent_patterns : list (IntentType * list text) :=
  [ (ORDER,
     [ utf8 "\b(đặt|mua|order)\s+(sách|cuốn|quyển)";
       utf8 "\b(mua|đặt)\s+\w+";
       utf8 "\bđặt\s+mua";
       utf8 "\border\s+\w+";
       utf8 "\bmua\s+\w+" ]);
    (QUERY,
     [ utf8 "\b(giá|bao nhiêu|thông tin|tra cứu)\s+(của|về)?\s*\w+";
       utf8 "\b(giá|bao nhiêu)\s+\w+";
       utf8 "\bthông tin\s+(về|của)\s+\w+";
       utf8 "\btra cứu\s+\w+";
       utf8 "\b\w+\s+(có|tồn tại|hiện có)\s+(bao nhiêu|giá|thông tin)";
       utf8 "\b\w+\s+(bao nhiêu|giá|thông tin)";
       utf8 "\b(có bao nhiêu|giá bao nhiêu|thông tin gì)\s+(về|của)?\s*\w+" ]);
    (SEARCH_BY_TITLE,
     [ utf8 "\b(tìm|tìm kiếm|có)\s+(sách|cuốn)\s+\w+";
       utf8 "\b\w+\s+(có|tồn tại|hiện có)";
       utf8 "\b(sách|cuốn)\s+\w+" ]);
    (SEARCH_BY_AUTHOR,
     [ utf8 "\b(tác giả|sách của|viết bởi)\s+[\w\s]+";
       utf8 "\b[\w\s]+\s+(viết|tác giả)";
       utf8 "\bsách\s+(của|bởi)\s+[\w\s]+";
       utf8 "\bsách\s+(?!về\s)(?!hay\b)(?!tốt\b)(?!đáng đọc\b)[\w\s]+" ]);
    (SEARCH_BY_CATEGORY,
     [ utf8 "\b(thể loại|loại sách|sách về)\s+[\w\s]+";
       utf8 "\b\w+\s+(thể loại|loại)";
       utf8 "\bsách\s+(về|thuộc loại)\s+[\w\s]+" ]);
    (SEARCH_BY_PRICE,
     [ utf8 "\b(giá|sách)\s+(dưới|từ|trên|cao hơn|thấp hơn)\s*\d+";
       utf8 "\b(dưới|từ|trên)\s*\d+\s*(vnd|đồng|tiền)?";
       utf8 "\bgiá\s+từ\s*\d+\s*đến\s*\d+";
       utf8 "\btừ\s*\d+\s*đến\s*\d+" ]);
    (RECOMMEND,
     [ utf8 "\b(gợi ý|hay|tốt|đáng đọc|nên đọc)";
       utf8 "\b(sách|cuốn)\s+(hay|tốt|đáng đọc)";
       utf8 "\bgợi ý\s+(sách|cuốn)";
       utf8 "\b(hay nhất|bán chạy)" ]);
    (RECOMMEND_BY_PRICE,
     [ utf8 "\b(sách|cuốn)\s+(hay|tốt|đáng đọc)\s+(dưới|từ|trên)\s*\d+";
       utf8 "\b(hay|tốt|đáng đọc)\s+(dưới|từ|trên)\s*\d+";
       utf8 "\bgợi ý\s+(sách|cuốn)\s+(dưới|từ|trên)\s*\d+" ]);
    (LIST_CATEGORIES,
     [ utf8 "\b(cửa hàng|shop)\s+(có|những)\s+(loại sách|thể loại)";
       utf8 "\b(danh sách|có những)\s+(loại sách|thể loại)";
       utf8 "\b(loại sách|thể loại)\s+(gì|nào)" ]);
    (CHECK_STOCK,
     [ utf8 "\b(tồn kho|còn hàng|có sẵn)\s+(của|về)?\s*\w+";
       utf8 "\b\w+\s+(còn|có)\s+(bao nhiêu|mấy)";
       utf8 "\b(tồn kho|còn hàng)\s+\w+" ]);
    (GREETING,
     [ utf8 "\b(xin chào|chào|hello|hi)\b";
       utf8 "\bchào\s+(bạn|anh|chị|em)";
       utf8 "\bhello\s+\w+" ]);
    (GOODBYE,
     [ utf8 "\b(tạm biệt|bye|goodbye)\b";
       utf8 "\bhẹn\s+gặp\s+lại";
       utf8 "\bbye\s+\w+" ]);
    (HELP,
     [ utf8 "\b(giúp|help|hướng dẫn)\b";
       utf8 "\b(làm sao|như thế nào)\s+để";
       utf8 "\bhelp\s+\w+" ]) ].

(** [intent_priority.get(intent, 0)]. *)
Definition intent_priority (i : IntentType) : Z :=
  match i with
  | ORDER => 10
  | SEARCH_BY_PRICE => 9
  | QUERY => 8
  | RECOMMEND => 7
  | SEARCH_BY_CATEGORY => 6
  | SEARCH_BY_AUTHOR => 5
  | SEARCH_BY_TITLE => 4
  | RECOMMEND_BY_PRICE => 3
  | LIST_CATEGORIES => 2
  | CHECK_STOCK => 1
  | GREETING | GOODBYE | HELP => 0
  | _ => 0
  end.

(** [sorted(items, key=..., reverse=True)]: stable, largest key first. *)
Fixpoint insert_by_key {A} (key : A → Z) (x : A) (l : list A) : list A :=
  match l with
  | [] => [x]
  | y :: l' =>
    if (key y <? key x)%Z then x :: l else y :: insert_by_key key x l'
  end.

Definition sorted_reverse {A} (key : A → Z) (l : list A) : list A :=
  foldl (λ acc x, insert_by_key key x acc) [] l.

(** Integers enter float arithmetic through their binary64 value (exact
    below 2^53). *)
Definition float_of_Z (z : Z) : float := PrimFloat.of_uint63 (Uint63.of_Z z).
Definition float_of_nat (n : nat) : float := float_of_Z (Z.of_nat n).

(** [min(a, b)] on floats: [b] when [b < a], else [a]. *)
Definition py_min (a b : float) : float :=
  if PrimFloat.ltb b a then b else a.

Section IntentClassifier.
Context `{PyUnicode}.

Definition confidence_keywords : list text :=
  [ utf8 "đặt"; utf8 "mua"; utf8 "giá"; utf8 "tìm"; utf8 "gợi ý";
    utf8 "cửa hàng"; utf8 "sách"; utf8 "của"; utf8 "tác giả";
    utf8 "viết bởi" ].

Definition m_text (m : Match) : text := slice (m_string m) (m_start m) (m_end m).

Definition _calculate_confidence (m : Match) (t : text) : float :=
  let match_length := length (m_text m) in
  let text_length := length t in
  let base_confidence :=
    if (0 <? text_length)%nat
    then py_min 0.7%float
           (float_of_nat match_length / float_of_nat text_length * 2)%float
    else 0.5%float in
  let match_text := py_lower (m_text m) in
  let keyword_bonus :=
    if existsb (λ keyword, py_contains keyword match_text)
               confidence_keywords
    then 0.4%float else 0.0%float in
  let position_bonus :=
    if PrimFloat.ltb (float_of_nat (m_start m))
                     (float_of_nat text_length * 0.5)%float
    then 0.2%float else 0.0%float in
  let length_bonus :=
    if (10 <? match_length)%nat then 0.1%float else 0.0%float in
  py_min 1.0%float
    (base_confidence + keyword_bonus + position_bonus + length_bonus)%float.

(** *** Parameter extraction *)

Definition _extract_order_parameters (t : text) : gmap string pyval :=
  let params : gmap string pyval := ∅ in
  let params :=
    match re_search (utf8 "\b(\d+)\b") t false with
    | Some quantity_match =>
      match m_group quantity_match 1 ≫= py_int with
      | Some q => <["quantity" := VInt q]> params
      | None => params
      end
    | None => params
    end in
  match re_search (utf8 "(.+?),\s*(\d{9,11})") t false with
  | Some address_phone_match =>
    match m_group address_phone_match 1, m_group address_phone_match 2 with
    | Some a, Some p =>
      <["phone" := VStr (py_strip p)]>
        (<["address" := VStr (py_strip a)]> params)
    | _, _ => params
    end
  | None => params
  end.

Definition _extract_query_parameters (t : text) : gmap string pyval :=
  let has (k : string) := py_contains (utf8 k) t in
  if has "giá" || has "giá bao nhiêu"
  then {[ "is_price_only" := VBool true ]}
  else if has "có bao nhiêu sách" || has "có bao nhiêu cuốn"
          || has "tồn kho" || has "còn bao nhiêu"
  then {[ "is_stock_only" := VBool true ]}
  else if has "bao nhiêu" && (has "giá" || has "tiền")
  then {[ "is_price_only" := VBool true ]}
  else ∅.

(** The two groups of a range pattern, as integers. *)
Definition group_int (m : Match) (n : nat) : option Z :=
  m_group m n ≫= py_int.

Definition range_of (m : Match) : gmap string pyval :=
  match group_int m 1, group_int m 2 with
  | Some a, Some b => {[ "price_range" := VRange (Some a) (Some b) ]}
  | _, _ => ∅
  end.

(** A keyword in group 1 and a number in group 2: an upper bound when
    the keyword is in [below], a lower bound when it is in [above]. *)
Definition bound_of (below above : list text) (m : Match)
    : gmap string pyval :=
  match py_lower <$> m_group m 1, group_int m 2 with
  | Some keyword, Some number =>
    if bool_decide (keyword ∈ below)
    then {[ "price_range" := VRange None (Some number) ]}
    else if bool_decide (keyword ∈ above)
    then {[ "price_range" := VRange (Some number) None ]}
    else ∅
  | _, _ => ∅
  end.

Definition _extract_price_parameters (t : text) : gmap string pyval :=
  (* Pattern 1: "giá từ A đến B" *)
  match re_search (utf8 "giá\s+từ\s*(\d+)\s*đến\s*(\d+)") t true with
  | Some range_match => range_of range_match
  | None =>
  (* Pattern 2: "từ A đến B" *)
  match re_search (utf8 "từ\s*(\d+)\s*đến\s*(\d+)") t true with
  | Some range_match => range_of range_match
  | None =>
  (* Pattern 3: "giá dưới X", "giá từ X", "giá trên X" *)
  match re_search (utf8 "giá\s+(dưới|từ|trên|cao hơn|thấp hơn)\s*(\d+)")
                  t true with
  | Some single_match =>
    bound_of [utf8 "dưới"; utf8 "thấp hơn"]
             [utf8 "từ"; utf8 "trên"; utf8 "cao hơn"] single_match
  | None =>
  (* Pattern 4: "dưới X VND", "từ X VND", "trên X VND" *)
  match re_search (utf8 "(dưới|từ|trên)\s*(\d+)\s*VND") t true with
  | Some vnd_match =>
    bound_of [utf8 "dưới"] [utf8 "từ"; utf8 "trên"] vnd_match
  | None =>
  (* Pattern 5: "trên X", "cao hơn X" *)
  match re_search (utf8 "(trên|cao hơn)\s*(\d+)") t true with
  | Some above_match =>
    match group_int above_match 2 with
    | Some number => {[ "price_range" := VRange (Some number) None ]}
    | None => ∅
    end
  | None =>
  (* Pattern 6: "dưới X", "thấp hơn X" *)
  match re_search (utf8 "(dưới|thấp hơn)\s*(\d+)") t true with
  | Some below_match =>
    match group_int below_match 2 with
    | Some number => {[ "price_range" := VRange None (Some number) ]}
    | None => ∅
    end
  | None => ∅
  end end end end end end.

(** [' '.join(words)]. *)
Fixpoint py_join (sep : text) (ws : list text) : text :=
  match ws with
  | [] => []
  | [w] => w
  | w :: ws' => w ++ sep ++ py_join sep ws'
  end.

Definition _extract_author_parameters (t : text) : gmap string pyval :=
  match re_search
          (utf8 "(tác giả|sách của|viết bởi)\s+([\w\s]+?)(?:\s+(?:có|không)\b|\?|$)")
          t true with
  | Some author_match =>
    match m_group author_match 2 with
    | Some a => {[ "author" := VStr (py_strip a) ]}
    | None => ∅
    end
  | None =>
    let words := py_split t in
    if (1 <? length words)%nat then
      let words :=
        match words with
        | w :: ws =>
          if bool_decide (py_lower w ∈ [utf8 "sách"; utf8 "cuốn"; utf8 "quyển"])
          then ws else words
        | [] => words
        end in
      if (2 <=? length words)%nat
      then {[ "author" := VStr (py_join (utf8 " ") words) ]}
      else match words with
           | [w] => {[ "author" := VStr w ]}
           | _ => ∅
           end
    else ∅
  end.

Definition _extract_category_parameters (t : text) : gmap string pyval :=
  match re_search
          (utf8 "(sách về|thể loại|loại)\s+([\w\s]+?)(?:\s+(?:có|những|cuốn|gì)\b|\?|$)")
          t true with
  | Some category_match =>
    match m_group category_match 2 with
    | Some c => {[ "category" := VStr (py_strip c) ]}
    | None => ∅
    end
  | None =>
    let words := py_split t in
    if (1 <? length words)%nat
    then {[ "category" :=
              VStr (py_join (utf8 " ") (drop (length words - 2) words)) ]}
    else ∅
  end.

Definition _extract_parameters (t : text) (i : IntentType)
    : gmap string pyval :=
  match i with
  | ORDER => _extract_order_parameters t
  | QUERY => _extract_query_parameters t
  | SEARCH_BY_PRICE => _extract_price_parameters t
  | SEARCH_BY_AUTHOR => _extract_author_parameters t
  | SEARCH_BY_CATEGORY => _extract_category_parameters t
  | RECOMMEND_BY_PRICE => _extract_price_parameters t
  | _ => ∅
  end.

(** *** Classification *)

(** The loop state: [best_intent], [best_confidence], [matched_entities]. *)
Record best := mkBest {
  best_intent : IntentType;
  best_confidence : float;
  matched_entities : list ExtractedEntity;
}.

(** The body of the innermost loop, for one match of one pattern. *)
Definition consider (expanded_text : text) (intent_type : IntentType)
    (b : best) (m : Match) : best :=
  let confidence := _calculate_confidence m expanded_text in
  let priority_bonus := (float_of_Z (intent_priority intent_type) * 0.01)%float in
  let adjusted_confidence := (confidence + priority_bonus)%float in
  if PrimFloat.ltb (best_confidence b) adjusted_confidence then
    mkBest intent_type adjusted_confidence
      (if existsb (λ e, bool_decide (value e = m_text m)) (matched_entities b)
       then matched_entities b
       else matched_entities b ++
            [mkEntity (m_text m) confidence (m_start m) (m_end m)
                      (intent_value intent_type)])
  else b.

(** The three nested loops: intents by decreasing priority, the patterns
    of each, the matches of each pattern. *)
Definition best_match (expanded_text : text) : best :=
  let sorted_intents :=
    sorted_reverse (λ x, intent_priority x.1) intent_patterns in
  foldl (λ b '(intent_type, patterns),
           foldl (λ b pattern,
                    foldl (consider expanded_text intent_type) b
                          (re_finditer pattern expanded_text true))
                 b patterns)
        (mkBest UNKNOWN 0.0 []) sorted_intents.

Definition classify_intent (t : text) : IntentResult :=
  if bool_decide (t = []) then mkIntentResult UNKNOWN 0.0 [] ∅ t None None
  else
    let normalized_text := normalize_text t in
    let expanded_text := expand_synonyms normalized_text in
    let b := best_match expanded_text in
    let parameters := _extract_parameters expanded_text (best_intent b) in
    mkIntentResult (best_intent b) (best_confidence b) (matched_entities b)
                   parameters t None None.

End IntentClassifier.

(** ** [VietnameseTextProcessor.remove_stopwords] *)

Definition stopwords : gset text := list_to_set
  [ utf8 "của"; utf8 "và"; utf8 "hoặc"; utf8 "nhưng"; utf8 "mà"; utf8 "để";
    utf8 "với"; utf8 "từ"; utf8 "đến"; utf8 "trong"; utf8 "ngoài";
    utf8 "trên"; utf8 "dưới"; utf8 "giữa"; utf8 "bên"; utf8 "cạnh";
    utf8 "gần"; utf8 "xa"; utf8 "này"; utf8 "đó"; utf8 "kia"; utf8 "đây";
    utf8 "đó"; utf8 "nào"; utf8 "gì"; utf8 "sao"; utf8 "thế"; utf8 "vậy";
    utf8 "à"; utf8 "ạ"; utf8 "nhé"; utf8 "nhỉ"; utf8 "đấy"; utf8 "đó";
    utf8 "thôi"; utf8 "thế"; utf8 "vậy"; utf8 "mà"; utf8 "thì" ].

Section Stopwords.
Context `{PyUnicode}.

Definition remove_stopwords (t : text) : text :=
  let words := py_split t in
  let filtered_words := filter (λ word, word ∉ stopwords) words in
  py_join (utf8 " ") filtered_words.

End Stopwords.

(** ** [SessionManager] *)

Inductive OrderState :=
| NONE | WAITING_QUANTITY | WAITING_ADDRESS_PHONE | CONFIRMING_ORDER
| PROCESSING_ORDER | ORDER_COMPLETED | ORDER_CANCELLED.

#[export] Instance OrderState_eq_dec : EqDecision OrderState.
Proof. solve_decision. Defined.

Module SessionType.
Inductive t := CHAT | ORDER | SEARCH.
End SessionType.

(** Instants ([datetime] values, and their ISO strings) are counted in
    microseconds. *)
Abbreviation time := Z.

Record OrderData := mkOrderData {
  book_id : string;
  book_title : text;
  price : Z;
  quantity : Z;
  customer_name : text;
  phone : text;
  address : text;
  total_price : Z;
  order_created_at : time;
  order_updated_at : time;
}.

(** An entry of [conversation_history]. *)
Record HistoryMessage := mkHistoryMessage {
  role : string;
  content : text;
  timestamp : time;
}.

Record SessionData := mkSessionData {
  session_id : string;
  user_id : string;
  session_type : SessionType.t;
  order_state : OrderState;
  order_data : option OrderData;
  conversation_history : list HistoryMessage;
  session_context : gmap string pyval;
  created_at : time;
  updated_at : time;
  expires_at : time;
}.

(** The keyword arguments of [update_session] and [update_order_data];
    every one names an attribute, so [hasattr] holds. *)
Inductive session_update :=
| Set_order_state (v : OrderState)
| Set_order_data (v : option OrderData)
| Set_context (v : gmap string pyval).

Inductive order_update :=
| Set_quantity (v : Z)
| Set_total_price (v : Z)
| Set_address (v : text)
| Set_phone (v : text).

Definition setattr_session (s : SessionData) (u : session_update)
    : SessionData :=
  match u with
  | Set_order_state v =>
    mkSessionData (session_id s) (user_id s) (session_type s) v (order_data s)
      (conversation_history s) (session_context s) (created_at s)
      (updated_at s) (expires_at s)
  | Set_order_data v =>
    mkSessionData (session_id s) (user_id s) (session_type s) (order_state s) v
      (conversation_history s) (session_context s) (created_at s)
      (updated_at s) (expires_at s)
  | Set_context v =>
    mkSessionData (session_id s) (user_id s) (session_type s) (order_state s)
      (order_data s) (conversation_history s) v (created_at s)
      (updated_at s) (expires_at s)
  end.

Definition set_updated_at (s : SessionData) (now : time) : SessionData :=
  mkSessionData (session_id s) (user_id s) (session_type s) (order_state s)
    (order_data s) (conversation_history s) (session_context s) (created_at s)
    now (expires_at s).

Definition setattr_order (o : OrderData) (u : order_update) : OrderData :=
  match u with
  | Set_quantity v =>
    mkOrderData (book_id o) (book_title o) (price o) v (customer_name o)
      (phone o) (address o) (total_price o) (order_created_at o)
      (order_updated_at o)
  | Set_total_price v =>
    mkOrderData (book_id o) (book_title o) (price o) (quantity o)
      (customer_name o) (phone o) (address o) v (order_created_at o)
      (order_updated_at o)
  | Set_address v =>
    mkOrderData (book_id o) (book_title o) (price o) (quantity o)
      (customer_name o) (phone o) v (total_price o) (order_created_at o)
      (order_updated_at o)
  | Set_phone v =>
    mkOrderData (book_id o) (book_title o) (price o) (quantity o)
      (customer_name o) v (address o) (total_price o) (order_created_at o)
      (order_updated_at o)
  end.

Definition set_order_updated_at (o : OrderData) (now : time) : OrderData :=
  mkOrderData (book_id o) (book_title o) (price o) (quantity o)
    (customer_name o) (phone o) (address o) (total_price o)
    (order_created_at o) now.

(** The [SessionManager] object, with the number of clock readings taken
    so far. *)
Record SessionManager := mkSessionManager {
  sessions : gmap string SessionData;
  session_timeout : Z;          (* seconds *)
  cleanup_interval : Z;         (* seconds *)
  last_cleanup : time;
  ticks : nat;
}.

Definition with_sessions (f : gmap string SessionData → gmap string SessionData)
    (w : SessionManager) : SessionManager :=
  mkSessionManager (f (sessions w)) (session_timeout w) (cleanup_interval w)
    (last_cleanup w) (ticks w).

Definition with_last_cleanup (t : time) (w : SessionManager) : SessionManager :=
  mkSessionManager (sessions w) (session_timeout w) (cleanup_interval w) t
    (ticks w).

(** Methods run in a state monad over the manager. *)
Definition M (A : Type) : Type := SessionManager → A * SessionManager.

Definition ret {A} (a : A) : M A := λ w, (a, w).

Definition bind {A B} (m : M A) (f : A → M B) : M B :=
  λ w, let '(a, w') := m w in f a w'.

Declare Scope session_scope.
Delimit Scope session_scope with session.
Notation "x <- m ;; k" := (bind m (λ x, k))
  (at level 100, m at next level, right associativity) : session_scope.
Notation "'run' m ;; k" := (bind m (λ _, k))
  (at level 100, m at next level, right associativity) : session_scope.

(** [for x in l: body(x)]. *)
Fixpoint for_each {A} (l : list A) (body : A → M unit) : M unit :=
  match l with
  | [] => ret tt
  | x :: l' => bind (body x) (λ _, for_each l' body)
  end.

Definition get_sessions : M (gmap string SessionData) := λ w, (sessions w, w).

Definition modify_sessions
    (f : gmap string SessionData → gmap string SessionData) : M unit :=
  λ w, (tt, with_sessions f w).

Section SessionManager.
(** The wall clock: the [n]-th call of [datetime.now()] returns
    [clock n]. *)
Variable clock : nat → time.

Local Open Scope session_scope.
Local Open Scope Z_scope.

Definition now : M time := λ w,
  (clock (ticks w),
   mkSessionManager (sessions w) (session_timeout w) (cleanup_interval w)
     (last_cleanup w) (S (ticks w))).

Definition seconds (n : Z) : Z := n * 1000000.

(** [timedelta.seconds]: the seconds within the day, days left out. *)
Definition timedelta_seconds (delta : Z) : Z := (delta `div` 1000000) `mod` 86400.

(** [create_session]; [new_id] is the string of the fresh [uuid4]. *)
Definition create_session (new_id : string) (user : option string)
    (ty : SessionType.t) : M string :=
  let user_id := match user with
                 | Some u => if bool_decide (u = ""%string)
                             then ("user_" +:+ String.substring 0 8 new_id)%string
                             else u
                 | None => ("user_" +:+ String.substring 0 8 new_id)%string
                 end in
  t1 <- now ;;
  t2 <- now ;;
  t3 <- now ;;
  timeout <- (λ w, (session_timeout w, w)) ;;
  run modify_sessions
    (<[new_id := mkSessionData new_id user_id ty NONE None [] ∅ t1 t2
                                (t3 + seconds timeout)]>) ;;
  ret new_id.

Definition delete_session (sid : string) : M bool :=
  ss <- get_sessions ;;
  if bool_decide (is_Some (ss !! sid))
  then run modify_sessions (delete sid) ;; ret true
  else ret false.

Definition get_session (sid : string) : M (option SessionData) :=
  ss <- get_sessions ;;
  match ss !! sid with
  | None => ret None
  | Some session =>
    t <- now ;;
    if expires_at session <? t
    then run delete_session sid ;; ret None
    else
      t' <- now ;;
      let session := set_updated_at session t' in
      run modify_sessions (<[sid := session]>) ;;
      ret (Some session)
  end.

Definition update_session (sid : string) (kwargs : list session_update)
    : M bool :=
  ss <- get_sessions ;;
  match ss !! sid with
  | None => ret false
  | Some session =>
    let session := foldl setattr_session session kwargs in
    t <- now ;;
    run modify_sessions (<[sid := set_updated_at session t]>) ;;
    ret true
  end.

Definition set_order_state (sid : string) (state : OrderState) : M bool :=
  update_session sid [Set_order_state state].

Definition get_order_state (sid : string) : M OrderState :=
  session <- get_session sid ;;
  ret (match session with Some s => order_state s | None => NONE end).

Definition set_order_data (sid : string) (o : OrderData) : M bool :=
  update_session sid [Set_order_data (Some o)].

Definition get_order_data (sid : string) : M (option OrderData) :=
  session <- get_session sid ;;
  ret (match session with Some s => order_data s | None => None end).

Definition update_order_data (sid : string) (kwargs : list order_update)
    : M bool :=
  session <- get_session sid ;;
  match session with
  | None => ret false
  | Some session =>
    match order_data session with
    | None => ret false
    | Some o =>
      let o := foldl setattr_order o kwargs in
      t <- now ;;
      t' <- now ;;
      let session :=
        set_updated_at
          (setattr_session session
             (Set_order_data (Some (set_order_updated_at o t)))) t' in
      run modify_sessions (<[sid := session]>) ;;
      ret true
    end
  end.

Definition clear_order_data (sid : string) : M bool :=
  update_session sid [Set_order_data None; Set_order_state NONE].

Definition cleanup_expired_sessions : M unit :=
  current_time <- now ;;
  λ w,
    if timedelta_seconds (current_time - last_cleanup w) <? cleanup_interval w
    then (tt, w)
    else
      let expired_sessions :=
        filter (λ kv, expires_at kv.2 < current_time)
               (map_to_list (sessions w)) in
      (run for_each expired_sessions
             (λ kv, run delete_session kv.1 ;; ret tt) ;;
       (λ w', (tt, with_last_cleanup current_time w'))) w.

Record SessionStatistics := mkSessionStatistics {
  total_sessions : nat;
  active_sessions : nat;
  order_sessions : nat;
  expired_sessions : Z;
}.

(** The counting loop of [get_session_statistics]: one clock reading
    per session visited.  The sessions come in the order of
    [map_to_list]; what is proved of the counts holds for any order. *)
Fixpoint count_sessions (l : list SessionData) (active order : nat)
    : M (nat * nat) :=
  match l with
  | [] => ret (active, order)
  | session :: l' =>
    t <- now ;;
    if t <=? expires_at session
    then count_sessions l' (S active)
           (if bool_decide (order_state session ≠ NONE)
            then S order else order)
    else count_sessions l' active order
  end.

Definition get_session_statistics : M SessionStatistics :=
  run cleanup_expired_sessions ;;
  ss <- get_sessions ;;
  let total_sessions := size ss in
  counts <- count_sessions (snd <$> map_to_list ss) 0%nat 0%nat ;;
  let '(active_sessions, order_sessions) := counts in
  ret (mkSessionStatistics total_sessions active_sessions order_sessions
         (Z.of_nat total_sessions - Z.of_nat active_sessions)).

End SessionManager.

(** ** [OrderFlowManager] *)

(** [str(n)] for an integer. *)
Definition py_str_int (z : Z) : text :=
  string_bytes (DecimalString.NilZero.string_of_int (Z.to_int z)).

(** [f"{amount:,}"]: a comma before every group of three digits, counted
    from the right; [ds] are the digits in reverse. *)
Fixpoint group_thousands (fuel : nat) (ds : text) : text :=
  match fuel, ds with
  | S fuel', a :: b :: c :: (_ :: _) as rest =>
    a :: b :: c :: 44 :: group_thousands fuel' rest
  | _, _ => ds
  end.

Definition format_grouped (z : Z) : text :=
  let digits := py_str_int (Z.abs z) in
  (if (z <? 0)%Z then [45] else [])
    ++ reverse (group_thousands (length digits) (reverse digits)).

(** [str.replace] of one character by another. *)
Definition replace_char (a b : N) (t : text) : text :=
  map (λ c, if c =? a then b else c) t.

Definition _format_currency (amount : Z) : text :=
  replace_char 44 46 (format_grouped amount) ++ utf8 " VND".

(** The [book_data] dictionary handed to [start_order]. *)
Record BookData := mkBookData {
  bd_book_id : option string;
  bd_title : option text;
  bd_price : option Z;
}.

(** The dictionaries the flow methods return. *)
Record FlowResult := mkFlowResult {
  status : string;
  message : text;
  result_order_data : option OrderData;   (* [asdict(order_data)] *)
  action : option string;
}.

(** The dictionaries the chatbot's handlers return. *)
Record Response := mkResponse {
  response_message : text;
  response_intent : string;
  response_data : option OrderData;
}.

Section OrderFlowManager.
Context `{PyUnicode}.
Variable clock : nat → time.

Local Open Scope session_scope.
Local Open Scope Z_scope.

Abbreviation now := (now clock).

Definition start_order (sid : string) (book_data : BookData)
    : M FlowResult :=
  let title := default [] (bd_title book_data) in
  let unit_price := default 0 (bd_price book_data) in
  t1 <- now ;;
  t2 <- now ;;
  let order_data :=
    mkOrderData (default ""%string (bd_book_id book_data)) title unit_price
      1 (utf8 "Khách hàng") [] [] unit_price t1 t2 in
  run set_order_data clock sid order_data ;;
  run set_order_state clock sid WAITING_QUANTITY ;;
  ret (mkFlowResult "success"
         (utf8 "Sách '" ++ title ++ utf8 "' giá "
            ++ _format_currency unit_price
            ++ utf8 ". Vui lòng nhập số lượng.")
         (Some order_data) None).

Definition process_quantity (sid : string) (quantity : Z) : M FlowResult :=
  updated <- update_order_data clock sid [Set_quantity quantity] ;;
  if negb updated
  then ret (mkFlowResult "error" (utf8 "Không thể cập nhật số lượng.")
              None None)
  else
    current <- get_order_data clock sid ;;
    match current with
    | Some o =>
      let total := price o * quantity in
      run update_order_data clock sid [Set_total_price total] ;;
      run set_order_state clock sid WAITING_ADDRESS_PHONE ;;
      (* [order_data] is the object held by the session: [asdict] sees
         the total just written when the session was still there *)
      ss <- get_sessions ;;
      let snapshot :=
        match ss !! sid ≫= order_data with
        | Some o' => o'
        | None => o
        end in
      ret (mkFlowResult "success"
             (utf8 "Số lượng: " ++ py_str_int quantity
                ++ utf8 ". Tổng tiền: " ++ _format_currency total
                ++ utf8 ". Vui lòng nhập địa chỉ giao hàng và số điện thoại (ví dụ: '123 Hà Nội, 0987654321').")
             (Some snapshot) None)
    | None =>
      ret (mkFlowResult "error"
             (utf8 "Không tìm thấy thông tin đơn hàng.") None None)
    end.

Definition process_address_phone (sid : string) (addr ph : text)
    : M FlowResult :=
  updated <- update_order_data clock sid [Set_address addr; Set_phone ph] ;;
  if negb updated
  then ret (mkFlowResult "error"
              (utf8 "Không thể cập nhật thông tin giao hàng.") None None)
  else
    run set_order_state clock sid CONFIRMING_ORDER ;;
    current <- get_order_data clock sid ;;
    match current with
    | Some o =>
      ret (mkFlowResult "success"
             (utf8 "Xác nhận đặt: '" ++ book_title o
                ++ utf8 "', SL: " ++ py_str_int (quantity o)
                ++ utf8 ", Địa chỉ: " ++ address o
                ++ utf8 ", SĐT: " ++ phone o
                ++ utf8 ". Tổng: " ++ _format_currency (total_price o)
                ++ utf8 ". Trả lời 'có' để xác nhận hoặc 'không' để hủy.")
             (Some o) None)
    | None =>
      ret (mkFlowResult "error"
             (utf8 "Không tìm thấy thông tin đơn hàng.") None None)
    end.

Definition confirm_order (sid : string) (confirmed : bool) : M FlowResult :=
  if confirmed then
    run set_order_state clock sid PROCESSING_ORDER ;;
    ret (mkFlowResult "success"
           (utf8 "Đơn hàng đã được xác nhận. Đang xử lý...")
           None (Some "process_order"%string))
  else
    run clear_order_data clock sid ;;
    ret (mkFlowResult "success" (utf8 "Đã hủy đơn hàng.")
           None (Some "order_cancelled"%string)).

(** [order_result]: the [success] flag and the optional [message]. *)
Definition complete_order (sid : string) (success : bool)
    (msg : option text) : M FlowResult :=
  if success then
    run set_order_state clock sid ORDER_COMPLETED ;;
    ret (mkFlowResult "success"
           (default (utf8 "Đơn hàng đã được tạo thành công.") msg)
           None (Some "order_completed"%string))
  else
    run set_order_state clock sid ORDER_CANCELLED ;;
    ret (mkFlowResult "error"
           (default (utf8 "Có lỗi xảy ra khi tạo đơn hàng.") msg)
           None (Some "order_failed"%string)).

(** ** [EntityExtractor.extract_quantity] and the quantity step of
    [OptimizedChatbot] *)

Definition extract_quantity (t : text) : option Z :=
  match re_search (utf8 "\b(\d+)\b") t false with
  | Some m => m_group m 1 ≫= py_int
  | None => None
  end.

Definition quantity_retry : Response :=
  mkResponse (utf8 "Vui lòng nhập số lượng hợp lệ (ví dụ: '2').")
             "order_quantity_error" None.

Definition _handle_quantity_input (user_input : text) (sid : string)
    : M Response :=
  match extract_quantity user_input with
  | Some quantity =>
    if negb (quantity =? 0) && (0 <? quantity) then
      result <- process_quantity sid quantity ;;
      ret (mkResponse (message result) "order_quantity"
                      (result_order_data result))
    else ret quantity_retry
  | None => ret quantity_retry
  end.

End OrderFlowManager.

(** ** [SessionManager]: conversation history and context;
    [OrderFlowManager.get_order_summary] *)

(** [OrderState.value]. *)
Definition order_state_value (s : OrderState) : string :=
  match s with
  | NONE => "none"
  | WAITING_QUANTITY => "waiting_quantity"
  | WAITING_ADDRESS_PHONE => "waiting_address_phone"
  | CONFIRMING_ORDER => "confirming_order"
  | PROCESSING_ORDER => "processing_order"
  | ORDER_COMPLETED => "order_completed"
  | ORDER_CANCELLED => "order_cancelled"
  end.

Definition set_conversation_history (s : SessionData)
    (h : list HistoryMessage) : SessionData :=
  mkSessionData (session_id s) (user_id s) (session_type s) (order_state s)
    (order_data s) h (session_context s) (created_at s) (updated_at s)
    (expires_at s).

(** [l[-n:]] for [n > 0]: the last [n] elements, all of them when there
    are fewer. *)
Definition py_last {A} (n : nat) (l : list A) : list A :=
  drop (length l - n) l.

(** The dictionary [get_order_summary] returns. *)
Record OrderSummary := mkOrderSummary {
  summary_book_title : text;
  summary_quantity : Z;
  summary_price : Z;
  summary_total_price : Z;
  summary_address : text;
  summary_phone : text;
  summary_status : string;
}.

Section SessionHistory.
Variable clock : nat → time.

Local Open Scope session_scope.
Local Open Scope Z_scope.

Abbreviation now := (now clock).

(** [add_message_to_history]; the [metadata] dictionary, which the
    manager stores with the message and never reads, is not part of
    [HistoryMessage]. *)
Definition add_message_to_history (sid : string) (role : string)
    (content : text) : M bool :=
  ss <- get_sessions ;;
  match ss !! sid with
  | None => ret false
  | Some session =>
    t <- now ;;
    let message := mkHistoryMessage role content t in
    let history := conversation_history session ++ [message] in
    let history :=
      if (50 <? length history)%nat then py_last 50 history else history in
    t' <- now ;;
    run modify_sessions
      (<[sid := set_updated_at (set_conversation_history session history)
                               t']>) ;;
    ret true
  end.

Definition get_conversation_history (sid : string) (limit : Z)
    : M (list HistoryMessage) :=
  session <- get_session clock sid ;;
  match session with
  | None => ret []
  | Some session =>
    ret (if 0 <? limit
         then py_last (Z.to_nat limit) (conversation_history session)
         else conversation_history session)
  end.

Definition set_context (sid : string) (key : string) (v : pyval) : M bool :=
  session <- get_session clock sid ;;
  match session with
  | None => ret false
  | Some session =>
    t <- now ;;
    let session :=
      setattr_session session
        (Set_context (<[key := v]> (session_context session))) in
    run modify_sessions (<[sid := set_updated_at session t]>) ;;
    ret true
  end.

(** [get_context]; [None] is Python's [None], the default of
    [default]. *)
Definition get_context (sid : string) (key : string)
    (default : option pyval) : M (option pyval) :=
  session <- get_session clock sid ;;
  match session with
  | None => ret default
  | Some session =>
    ret (match session_context session !! key with
         | Some v => Some v
         | None => default
         end)
  end.

Definition clear_context (sid : string) : M bool :=
  update_session clock sid [Set_context ∅].

Definition get_order_summary (sid : string) : M (option OrderSummary) :=
  order_data <- get_order_data clock sid ;;
  match order_data with
  | None => ret None
  | Some o =>
    state <- get_order_state clock sid ;;
    ret (Some (mkOrderSummary (book_title o) (quantity o) (price o)
                 (total_price o) (address o) (phone o)
                 (order_state_value state)))
  end.

End SessionHistory.

(** ** [EntityExtractor]: phone number and address, and the address step
    of [OptimizedChatbot] *)

(** [s.split(sep)] for a non-empty [sep]: the pieces between the
    occurrences of [sep], found from left to right.  [skip] counts the
    characters of an occurrence still to be passed over, [piece] is the
    piece being read, in reverse. *)
Fixpoint split_on_go (sep : text) (skip : nat) (piece : text) (t : text)
    : list text :=
  match t with
  | [] => [reverse piece]
  | c :: t' =>
    match skip with
    | S k => split_on_go sep k piece t'
    | O =>
      if py_startswith sep t
      then reverse piece :: split_on_go sep (length sep - 1) [] t'
      else split_on_go sep 0 (c :: piece) t'
    end
  end.

Definition py_split_on (sep : text) (t : text) : list text :=
  split_on_go sep 0 [] t.

Definition phone_patterns : list text :=
  [ utf8 "(\d{10,11})";      (* 10-11 digits *)
    utf8 "(\+84\d{9,10})";   (* +84 and 9-10 digits *)
    utf8 "(0\d{9,10})" ].    (* 0 and 9-10 digits *)

Definition address_keywords : list text :=
  [ utf8 "địa chỉ"; utf8 "address"; utf8 "tại"; utf8 "ở"; utf8 "số";
    utf8 "đường"; utf8 "phố"; utf8 "quận"; utf8 "huyện"; utf8 "tỉnh";
    utf8 "thành phố" ].

Section EntityExtractor.
Context `{PyUnicode}.
Variable clock : nat → time.

Local Open Scope session_scope.

(** The loop of [extract_phone_number]: group 1 of the first pattern
    that is found. *)
Fixpoint first_phone (patterns : list text) (t : text) : option text :=
  match patterns with
  | [] => None
  | pattern :: patterns' =>
    match re_search pattern t false with
    | Some m => m_group m 1
    | None => first_phone patterns' t
    end
  end.

Definition extract_phone_number (t : text) : option text :=
  first_phone phone_patterns t.

(** The loop of [extract_address] over the keywords. *)
Fixpoint address_after (keywords : list text) (lowered : text)
    : option text :=
  match keywords with
  | [] => None
  | keyword :: keywords' =>
    if py_contains keyword lowered then
      let parts := py_split_on keyword lowered in
      if (1 <? length parts)%nat then
        let address := py_strip (default [] (parts !! 1%nat)) in
        let address :=
          py_strip (re_sub (utf8 "[^\w\s]") (utf8 " ") address) in
        if negb (bool_decide (address = [])) then Some address
        else address_after keywords' lowered
      else address_after keywords' lowered
    else address_after keywords' lowered
  end.

Definition extract_address (t : text) : option text :=
  let text_without_phone := re_sub (utf8 "\d{9,11}") [] t in
  match address_after address_keywords (py_lower text_without_phone) with
  | Some address => Some address
  | None =>
    if negb (bool_decide (py_strip text_without_phone = []))
    then Some (py_strip text_without_phone)
    else None
  end.

Definition address_phone_retry : Response :=
  mkResponse
    (utf8 "Vui lòng nhập địa chỉ và số điện thoại hợp lệ (ví dụ: '123 Hà Nội, 0987654321').")
    "order_address_phone_error" None.

Definition _handle_address_phone_input (user_input : text) (sid : string)
    : M Response :=
  let phone := extract_phone_number user_input in
  let address := extract_address user_input in
  match phone, address with
  | Some ph, Some addr =>
    if negb (bool_decide (ph = [])) && negb (bool_decide (addr = [])) then
      result <- process_address_phone clock sid addr ph ;;
      ret (mkResponse (message result) "order_address_phone"
                      (result_order_data result))
    else ret address_phone_retry
  | _, _ => ret address_phone_retry
  end.

End EntityExtractor.

(** ** [ContextManager] *)

(** Truth value of a parameter, [a == b] on parameters and [str(a)]. *)
Definition py_truthy (v : pyval) : bool :=
  match v with
  | VInt z => negb (z =? 0)%Z
  | VStr t => negb (bool_decide (t = []))
  | VBool b => b
  | VRange _ _ => true            (* a pair is not empty *)
  end.

Definition py_eq (a b : pyval) : bool :=
  match a, b with
  | VInt x, VInt y => (x =? y)%Z
  | VStr x, VStr y => bool_decide (x = y)
  | VBool x, VBool y => Bool.eqb x y
  | VInt x, VBool y => (x =? (if y then 1 else 0))%Z
  | VBool x, VInt y => (y =? (if x then 1 else 0))%Z
  | VRange a1 b1, VRange a2 b2 => bool_decide (a1 = a2 ∧ b1 = b2)
  | _, _ => false
  end.

Definition py_repr_bound (o : option Z) : text :=
  match o with
  | Some z => py_str_int z
  | None => utf8 "None"
  end.

Definition py_str (v : pyval) : text :=
  match v with
  | VInt z => py_str_int z
  | VStr t => t
  | VBool b => if b then utf8 "True" else utf8 "False"
  | VRange a b =>
    utf8 "(" ++ py_repr_bound a ++ utf8 ", " ++ py_repr_bound b ++ utf8 ")"
  end.

(** [a or b] on optional parameters. *)
Definition py_or (a b : option pyval) : option pyval :=
  match a with
  | Some v => if py_truthy v then a else b
  | None => b
  end.

(** [deque(maxlen=n).append(x)]. *)
Definition deque_append {A} (maxlen : nat) (d : list A) (x : A) : list A :=
  py_last maxlen (d ++ [x]).

Module ContextManager.

(** An entry of the history of a context. *)
Record HistoryEntry := mkHistoryEntry {
  user_input : text;
  entry_intent : IntentType;
  entry_sentiment : option SentimentType;
  entry_timestamp : time;
}.

(** The dictionary [user_preferences]: its three keys, each absent or
    present. *)
Record UserPreferences := mkUserPreferences {
  preferred_categories : option (list pyval);
  preferred_authors : option (list pyval);
  preferred_price_range : option pyval;
}.

Record ConversationContext := mkConversationContext {
  session_id : string;
  conversation_history : list HistoryEntry;     (* deque(maxlen=10) *)
  user_preferences : UserPreferences;
  current_topic : option pyval;
  last_intent : option IntentType;
  user_sentiment_history : list SentimentType;
}.

(** [self.contexts]. *)
Abbreviation contexts := (gmap string ConversationContext).

Definition get_context (sid : string) (cs : contexts)
    : ConversationContext * contexts :=
  match cs !! sid with
  | Some context => (context, cs)
  | None =>
    let context :=
      mkConversationContext sid [] (mkUserPreferences None None None)
                            None None [] in
    (context, <[sid := context]> cs)
  end.

(** The list under a key of the preferences, with [v] added unless it
    is there. *)
Definition add_preference (v : pyval) (l : option (list pyval))
    : option (list pyval) :=
  let l := default [] l in
  Some (if existsb (py_eq v) l then l else l ++ [v]).

Definition _update_user_preferences (prefs : UserPreferences)
    (intent_result : IntentResult) : UserPreferences :=
  match intent intent_result with
  | SEARCH_BY_CATEGORY =>
    match parameters intent_result !! "category"%string with
    | Some category =>
      if py_truthy category
      then mkUserPreferences
             (add_preference category (preferred_categories prefs))
             (preferred_authors prefs) (preferred_price_range prefs)
      else prefs
    | None => prefs
    end
  | SEARCH_BY_AUTHOR =>
    match parameters intent_result !! "author"%string with
    | Some author =>
      if py_truthy author
      then mkUserPreferences (preferred_categories prefs)
             (add_preference author (preferred_authors prefs))
             (preferred_price_range prefs)
      else prefs
    | None => prefs
    end
  | SEARCH_BY_PRICE =>
    match parameters intent_result !! "price_range"%string with
    | Some price_range =>
      if py_truthy price_range
      then mkUserPreferences (preferred_categories prefs)
             (preferred_authors prefs) (Some price_range)
      else prefs
    | None => prefs
    end
  | _ => prefs
  end.

(** [update_context]; [timestamp] is the reading of the clock it
    takes. *)
Definition update_context (sid : string) (text_in : text)
    (intent_result : IntentResult) (timestamp : time) (cs : contexts)
    : contexts :=
  let '(context, cs) := get_context sid cs in
  let history :=
    deque_append 10 (conversation_history context)
      (mkHistoryEntry text_in (intent intent_result)
                      (sentiment intent_result) timestamp) in
  let sentiments :=
    match sentiment intent_result with
    | Some s =>
      let l := user_sentiment_history context ++ [s] in
      if (5 <? length l)%nat then py_last 5 l else l
    | None => user_sentiment_history context
    end in
  let topic :=
    if bool_decide (intent intent_result
                    ∈ [SEARCH_BY_CATEGORY; SEARCH_BY_AUTHOR])
    then py_or (parameters intent_result !! "category"%string)
               (parameters intent_result !! "author"%string)
    else current_topic context in
  let prefs :=
    _update_user_preferences (user_preferences context) intent_result in
  <[sid := mkConversationContext (session_id context) history prefs topic
             (Some (intent intent_result)) sentiments]> cs.

Definition get_smart_suggestions (sid : string)
    (current_intent : IntentType) (cs : contexts)
    : list text * contexts :=
  let '(context, cs) := get_context sid cs in
  let prefs := user_preferences context in
  let by_category :=
    match preferred_categories prefs with
    | Some (c :: l) =>
      (λ category, utf8 "Sách về " ++ py_str category) <$> take 2 (c :: l)
    | _ => []
    end in
  let by_author :=
    match preferred_authors prefs with
    | Some (a :: l) =>
      (λ author, utf8 "Sách của " ++ py_str author) <$> take 2 (a :: l)
    | _ => []
    end in
  let by_intent :=
    match current_intent with
    | SEARCH_BY_CATEGORY => [utf8 "Gợi ý sách hay"; utf8 "Giá dưới 100000"]
    | SEARCH_BY_AUTHOR => [utf8 "Thể loại Fiction"; utf8 "Sách bán chạy"]
    | QUERY => [utf8 "Đặt mua sách này"; utf8 "Sách tương tự"]
    | _ => []
    end in
  let by_sentiment :=
    match last (user_sentiment_history context) with
    | Some FRUSTRATED => [utf8 "Hướng dẫn sử dụng"; utf8 "Liên hệ hỗ trợ"]
    | Some EXCITED => [utf8 "Đặt mua ngay"; utf8 "Sách tương tự"]
    | _ => []
    end in
  (take 5 (by_category ++ by_author ++ by_intent ++ by_sentiment), cs).

End ContextManager.

(** ** The table of the Vietnamese alphabet

    CPython's tables on Basic Latin, the Latin-1 Supplement, Latin
    Extended-A, the horn letters U+01A0/1, U+01AF/B0 and Latin Extended
    Additional, the blocks Vietnamese is written in; every whitespace
    character of Unicode is listed; a code point outside those blocks is
    classified as a caseless symbol. *)
Module Latin.

Definition isspace (c : N) : bool :=
  ((9 <=? c) && (c <=? 13)) || ((28 <=? c) && (c <=? 32))
  || (c =? 0x85) || (c =? 0xA0) || (c =? 0x1680)
  || ((0x2000 <=? c) && (c <=? 0x200A))
  || (c =? 0x2028) || (c =? 0x2029) || (c =? 0x202F) || (c =? 0x205F)
  || (c =? 0x3000).

Definition between (lo hi c : N) : bool := (lo <=? c) && (c <=? hi).

Definition isalnum (c : N) : bool :=
  between 0x30 0x39 c || between 0x41 0x5A c || between 0x61 0x7A c
  || (c =? 0xAA) || between 0xB2 0xB3 c || (c =? 0xB5)
  || between 0xB9 0xBA c || between 0xBC 0xBE c
  || between 0xC0 0xD6 c || between 0xD8 0xF6 c || between 0xF8 0x17F c
  || between 0x1A0 0x1A1 c || between 0x1AF 0x1B0 c
  || between 0x1E00 0x1EFF c.

Definition decimal (c : N) : option Z :=
  if between 0x30 0x39 c then Some (Z.of_N (c - 0x30)) else None.

Definition tolower (c : N) : N :=
  if between 0x41 0x5A c || between 0xC0 0xD6 c || between 0xD8 0xDE c
  then c + 32
  else if (between 0x100 0x12E c || between 0x132 0x136 c
           || between 0x14A 0x176 c || (c =? 0x1A0)
           || between 0x1E00 0x1E94 c || between 0x1EA0 0x1EFE c)
          && N.even c
  then c + 1
  else if (between 0x139 0x147 c || between 0x179 0x17D c || (c =? 0x1AF))
          && N.odd c
  then c + 1
  else if c =? 0x130 then 0x69
  else if c =? 0x178 then 0xFF
  else if c =? 0x1E9E then 0xDF
  else c.

(** [str.lower] maps U+0130 to two code points. *)
Definition lower_char (c : N) : text :=
  if c =? 0x130 then [0x69; 0x307] else [tolower c].

Definition lower (t : text) : text := flat_map lower_char t.

(** The laws, checked exhaustively below U+1F00 where the table has
    entries, and by the last branch of [tolower] above it. *)
Fixpoint all_from (f : N → bool) (n : nat) (c : N) : bool :=
  match n with
  | O => true
  | S n' => f c && all_from f n' (N.succ c)
  end.

Lemma all_from_spec f n c x :
  all_from f n c = true → c <= x < c + N.of_nat n → f x = true.
Proof.
  revert c. induction n as [|n IH]; intros c Hall Hx; [lia|].
  simpl in Hall. apply andb_true_iff in Hall as [Hc Hrest].
  destruct (N.eq_dec x c) as [->|Hne]; [exact Hc|].
  apply (IH (N.succ c)); [exact Hrest|lia].
Qed.

Definition lowered (c : N) : bool :=
  forallb (λ x, bool_decide (lower_char x = [x])) (lower_char c).

Lemma between_above lo hi c : hi < c → between lo hi c = false.
Proof.
  intros H. unfold between. apply andb_false_iff. right. by apply N.leb_gt.
Qed.

Lemma eqb_above k c : k < c → (c =? k) = false.
Proof. intros H. apply N.eqb_neq. lia. Qed.

Lemma lower_char_high c : 0x1F00 <= c → lower_char c = [c].
Proof.
  intros Hc. unfold lower_char, tolower.
  rewrite !between_above by lia. rewrite !eqb_above by lia. reflexivity.
Qed.

Lemma lowered_below_1F00 : all_from lowered (N.to_nat 0x1F00) 0 = true.
Proof. vm_compute. reflexivity. Qed.

Lemma lower_char_lowered c x : x ∈ lower_char c → lower_char x = [x].
Proof.
  destruct (N.lt_ge_cases c 0x1F00) as [Hlt|Hge].
  - intros Hx.
    assert (Hc : lowered c = true).
    { apply (all_from_spec _ _ _ _ lowered_below_1F00).
      rewrite N2Nat.id. lia. }
    unfold lowered in Hc. rewrite forallb_forall in Hc.
    apply list_elem_of_In in Hx. specialize (Hc x Hx).
    by apply bool_decide_eq_true in Hc.
  - rewrite (lower_char_high c Hge). intros Hx.
    apply list_elem_of_singleton in Hx. subst x. by apply lower_char_high.
Qed.

Lemma lower_lowered t c : c ∈ lower t → lower [c] = [c].
Proof.
  unfold lower. intros Hc. apply list_elem_of_In, in_flat_map in Hc.
  destruct Hc as (y & _ & Hy). apply list_elem_of_In in Hy.
  simpl. rewrite app_nil_r. by apply (lower_char_lowered y).
Qed.

Lemma lower_fixed t : (∀ c, c ∈ t → lower [c] = [c]) → lower t = t.
Proof.
  induction t as [|a t IH]; intros H; [reflexivity|].
  unfold lower in *. simpl.
  assert (Ha : lower_char a = [a]).
  { specialize (H a (list_elem_of_here _ _)). simpl in H.
    by rewrite app_nil_r in H. }
  rewrite Ha, IH; [reflexivity|].
  intros c Hc. apply H. by apply list_elem_of_further.
Qed.

End Latin.

#[export] Instance latin_unicode : PyUnicode := {|
  py_isspace := Latin.isspace;
  py_isalnum := Latin.isalnum;
  py_decimal := Latin.decimal;
  py_tolower := Latin.tolower;
  py_lower := Latin.lower;
  py_isspace_SP := eq_refl;
  py_lower_SP := eq_refl;
  py_lower_lowered := Latin.lower_lowered;
  py_lower_fixed := Latin.lower_fixed;
|}.

(** ** The patterns of the source lie in the fragment

    Every pattern string of the source compiles, so the branch of
    [re_search], [re_finditer] and [re_sub] for a pattern outside the
    fragment is never taken. *)

Definition compiles (pattern : text) : bool :=
  bool_decide (is_Some (re_compile pattern)).

Lemma intent_patterns_compile :
  forallb compiles (concat (snd <$> intent_patterns)) = true.
Proof. vm_compute. reflexivity. Qed.

Lemma synonym_patterns_compile :
  forallb (λ synonym, compiles (utf8 "\b" ++ synonym ++ utf8 "\b"))
          (concat (snd <$> SYNONYMS)) = true.
Proof. vm_compute. reflexivity. Qed.

Lemma parameter_patterns_compile :
  forallb compiles
    [ utf8 "\b(\d+)\b";
      utf8 "(.+?),\s*(\d{9,11})";
      utf8 "giá\s+từ\s*(\d+)\s*đến\s*(\d+)";
      utf8 "từ\s*(\d+)\s*đến\s*(\d+)";
      utf8 "giá\s+(dưới|từ|trên|cao hơn|thấp hơn)\s*(\d+)";
      utf8 "(dưới|từ|trên)\s*(\d+)\s*VND";
      utf8 "(trên|cao hơn)\s*(\d+)";
      utf8 "(dưới|thấp hơn)\s*(\d+)";
      utf8 "(tác giả|sách của|viết bởi)\s+([\w\s]+?)(?:\s+(?:có|không)\b|\?|$)";
      utf8 "(sách về|thể loại|loại)\s+([\w\s]+?)(?:\s+(?:có|những|cuốn|gì)\b|\?|$)";
      punctuation_pattern;
      utf8 "\s+" ] = true.
Proof. vm_compute. reflexivity. Qed.

(** The intents in the order the classifier visits them. *)
Lemma sorted_intents_order :
  fst <$> sorted_reverse (λ x, intent_priority x.1) intent_patterns
  = [ ORDER; SEARCH_BY_PRICE; QUERY; RECOMMEND; SEARCH_BY_CATEGORY;
      SEARCH_BY_AUTHOR; SEARCH_BY_TITLE; RECOMMEND_BY_PRICE; LIST_CATEGORIES;
      CHECK_STOCK; GREETING; GOODBYE; HELP ].
Proof. vm_compute. reflexivity. Qed.

(** ** Properties of the text normaliser *)

Section NormalizeFacts.
Context `{PyUnicode}.

(** What the two substitutions of [normalize_text] compute. *)
Definition keep_items : list cset_item :=
  CWord :: CSpace :: map CLit
    (utf8 "àáạảãâầấậẩẫăằắặẳẵèéẹẻẽêềếệểễìíịỉĩòóọỏõôồốộổỗơờớợởỡùúụủũưừứựửữỳýỵỷỹđ").

Definition blank_punctuation (t : text) : text :=
  map (λ c, if in_set false true keep_items c then 32 else c) t.

Fixpoint collapse_go (in_run : bool) (t : text) : text :=
  match t with
  | [] => []
  | c :: t' =>
    if py_isspace c
    then (if in_run then collapse_go true t' else 32 :: collapse_go true t')
    else c :: collapse_go false t'
  end.

Definition collapse_spaces (t : text) : text := collapse_go false t.

Lemma punctuation_pattern_compiled :
  re_compile punctuation_pattern = Some (RSeq (RSet true keep_items) REmpty).
Proof. vm_compute. reflexivity. Qed.

Lemma spaces_pattern_compiled :
  re_compile (utf8 "\s+") =
  Some (RSeq (RRepeat true 1 None (RSet false [CSpace])) REmpty).
Proof. vm_compute. reflexivity. Qed.

Lemma sub_from_S fuel ic r repl s cur :
  sub_from (S fuel) ic r repl s cur =
  match match_here ic r s cur with
  | Some (m, cur') =>
    if (m_start m <? m_end m)%nat
    then repl ++ sub_from fuel ic r repl s cur'
    else match cur_rest cur with
         | [] => repl
         | x :: rest =>
           repl ++ x :: sub_from fuel ic r repl s (advance x rest cur)
         end
  | None =>
    match cur_rest cur with
    | [] => []
    | x :: rest => x :: sub_from fuel ic r repl s (advance x rest cur)
    end
  end.
Proof. reflexivity. Qed.

Lemma match_here_set negated items s prev rest pos :
  match_here false (RSeq (RSet negated items) REmpty) s (Cursor prev rest pos)
  = match rest with
    | x :: rest' =>
      if in_set false negated items x
      then Some (mkMatch pos (S pos) [] s, Cursor (Some x) rest' (S pos))
      else None
    | [] => None
    end.
Proof.
  unfold match_here. destruct rest as [|x rest']; [reflexivity|].
  cbn. destruct (in_set false negated items x); reflexivity.
Qed.

Lemma sub_from_set fuel negated items repl s prev rest pos :
  (length rest < fuel)%nat →
  sub_from fuel false (RSeq (RSet negated items) REmpty) repl s
           (Cursor prev rest pos)
  = flat_map (λ x, if in_set false negated items x then repl else [x]) rest.
Proof.
  revert prev rest pos.
  induction fuel as [|fuel IH]; intros prev rest pos Hlen; [lia|].
  rewrite sub_from_S, match_here_set.
  destruct rest as [|x rest]; [reflexivity|].
  simpl in Hlen. cbn [flat_map].
  destruct (in_set false negated items x) eqn:Hx.
  - cbn [m_start m_end].
    replace (pos <? S pos)%nat with true by (symmetry; apply Nat.ltb_lt; lia).
    f_equal. apply IH. lia.
  - cbn [cur_rest advance cur_pos app]. f_equal. apply IH. lia.
Qed.

(** The cursor after the whitespace at the head of [rest]. *)
Fixpoint skip_spaces (prev : option N) (rest : text) (pos : nat) : cursor :=
  match rest with
  | x :: rest' =>
    if py_isspace x then skip_spaces (Some x) rest' (S pos)
    else Cursor prev rest pos
  | [] => Cursor prev rest pos
  end.

Lemma skip_spaces_rest prev rest pos :
  cur_rest (skip_spaces prev rest pos) = py_lstrip rest.
Proof.
  revert prev pos. induction rest as [|x rest IH]; intros; [reflexivity|].
  simpl. destruct (py_isspace x); [apply IH|reflexivity].
Qed.

Lemma skip_spaces_pos prev rest pos :
  (pos ≤ cur_pos (skip_spaces prev rest pos))%nat.
Proof.
  revert prev pos. induction rest as [|x rest IH]; intros; simpl; [lia|].
  destruct (py_isspace x); [|simpl; lia].
  specialize (IH (Some x) (S pos)). lia.
Qed.

Lemma length_lstrip t : (length (py_lstrip t) ≤ length t)%nat.
Proof.
  induction t as [|x t IH]; simpl; [lia|].
  destruct (py_isspace x); simpl; lia.
Qed.

Lemma rounds_S body greedy lo hi k fuel n cur gs :
  rounds body greedy lo hi k (S fuel) n cur gs =
  if greedy then
    match (if under n hi then
             body cur gs (λ cur' gs',
               if (cur_pos cur <? cur_pos cur')%nat
               then rounds body greedy lo hi k fuel (S n) cur' gs' else None)
           else None) with
    | Some res => Some res
    | None => if (lo <=? n)%nat then k cur gs else None
    end
  else
    match (if (lo <=? n)%nat then k cur gs else None) with
    | Some res => Some res
    | None =>
      if under n hi then
        body cur gs (λ cur' gs',
          if (cur_pos cur <? cur_pos cur')%nat
          then rounds body greedy lo hi k fuel (S n) cur' gs' else None)
      else None
    end.
Proof. reflexivity. Qed.

(** [\s+] at a cursor takes all the whitespace there is. *)
Lemma rounds_spaces body k fuel n prev rest pos gs :
  (∀ cur gs k', body cur gs k' =
     match cur_rest cur with
     | x :: rest' =>
       if py_isspace x then k' (advance x rest' cur) gs else None
     | [] => None
     end) →
  (∀ cur gs, k cur gs = Some (cur, gs)) →
  (length rest < fuel)%nat →
  rounds body true 1 None k fuel n (Cursor prev rest pos) gs
  = let cur' := skip_spaces prev rest pos in
    if (1 <=? n + (cur_pos cur' - pos))%nat then Some (cur', gs) else None.
Proof.
  intros Hbody Hk. revert n prev rest pos.
  induction fuel as [|fuel IH]; intros n prev rest pos Hlen; [lia|].
  rewrite rounds_S, Hbody, Hk. cbn [under cur_rest].
  destruct rest as [|x rest].
  - cbn. replace (n + (pos - pos))%nat with n by lia. reflexivity.
  - simpl in Hlen. cbn [skip_spaces].
    destruct (py_isspace x) eqn:Hx.
    + unfold advance. cbn [cur_pos].
      replace (pos <? S pos)%nat with true by (symmetry; apply Nat.ltb_lt; lia).
      rewrite IH by lia. cbv zeta.
      pose proof (skip_spaces_pos (Some x) rest (S pos)) as Hp.
      replace (1 <=? S n + (cur_pos (skip_spaces (Some x) rest (S pos)) - S pos))%nat
        with true by (symmetry; apply Nat.leb_le; lia).
      replace (1 <=? n + (cur_pos (skip_spaces (Some x) rest (S pos)) - pos))%nat
        with true by (symmetry; apply Nat.leb_le; lia).
      reflexivity.
    + cbn. replace (n + (pos - pos))%nat with n by lia. reflexivity.
Qed.

Lemma match_here_spaces s prev rest pos :
  match_here false (RSeq (RRepeat true 1 None (RSet false [CSpace])) REmpty)
             s (Cursor prev rest pos)
  = let cur' := skip_spaces prev rest pos in
    if (pos <? cur_pos cur')%nat
    then Some (mkMatch pos (cur_pos cur') [] s, cur') else None.
Proof.
  unfold match_here. cbn [re_match cur_rest].
  rewrite (rounds_spaces _ _ (S (length rest)) 0 prev rest pos []).
  - cbv zeta. cbn [Nat.add cur_pos].
    pose proof (skip_spaces_pos prev rest pos) as Hp.
    destruct (Nat.ltb_spec pos (cur_pos (skip_spaces prev rest pos))).
    + replace (1 <=? cur_pos (skip_spaces prev rest pos) - pos)%nat
        with true by (symmetry; apply Nat.leb_le; lia). reflexivity.
    + replace (1 <=? cur_pos (skip_spaces prev rest pos) - pos)%nat
        with false by (symmetry; apply Nat.leb_gt; lia). reflexivity.
  - intros cur gs k'. cbn [re_match]. destruct (cur_rest cur); [reflexivity|].
    unfold in_set. cbn [existsb in_item xorb]. by rewrite orb_false_r.
  - reflexivity.
  - lia.
Qed.

Lemma collapse_go_lstrip t : collapse_go true t = collapse_go false (py_lstrip t).
Proof.
  induction t as [|x t IH]; [reflexivity|].
  simpl. destruct (py_isspace x) eqn:Hx; [exact IH|].
  simpl. by rewrite Hx.
Qed.

Lemma skip_spaces_cursor prev rest pos :
  ∃ prev' pos', skip_spaces prev rest pos = Cursor prev' (py_lstrip rest) pos'.
Proof.
  revert prev pos. induction rest as [|x rest IH]; intros; simpl; [eauto|].
  destruct (py_isspace x); eauto.
Qed.

Lemma sub_from_spaces fuel s prev rest pos :
  (length rest < fuel)%nat →
  sub_from fuel false
           (RSeq (RRepeat true 1 None (RSet false [CSpace])) REmpty)
           [32] s (Cursor prev rest pos)
  = collapse_spaces rest.
Proof.
  unfold collapse_spaces. revert prev rest pos.
  induction fuel as [|fuel IH]; intros prev rest pos Hlen; [lia|].
  rewrite sub_from_S, match_here_spaces. cbv zeta.
  destruct rest as [|x rest].
  { cbn [skip_spaces cur_pos]. by rewrite Nat.ltb_irrefl. }
  simpl in Hlen. cbn [skip_spaces collapse_go].
  destruct (py_isspace x) eqn:Hx.
  - pose proof (skip_spaces_pos (Some x) rest (S pos)) as Hp.
    replace (pos <? cur_pos (skip_spaces (Some x) rest (S pos)))%nat
      with true by (symmetry; apply Nat.ltb_lt; lia).
    cbn [m_start m_end].
    replace (pos <? cur_pos (skip_spaces (Some x) rest (S pos)))%nat
      with true by (symmetry; apply Nat.ltb_lt; lia).
    destruct (skip_spaces_cursor (Some x) rest (S pos)) as (p' & n' & ->).
    rewrite IH by (pose proof (length_lstrip rest); lia).
    by rewrite collapse_go_lstrip.
  - cbn [cur_pos]. rewrite Nat.ltb_irrefl.
    cbn [cur_rest advance cur_pos]. f_equal. apply IH. lia.
Qed.

Lemma normalize_text_unfold t :
  normalize_text t =
  if bool_decide (t = []) then []
  else py_strip (collapse_spaces (blank_punctuation (py_strip (py_lower t)))).
Proof.
  unfold normalize_text. case_bool_decide; [reflexivity|].
  cbv zeta. unfold re_sub.
  rewrite punctuation_pattern_compiled, spaces_pattern_compiled.
  unfold start_of. change (utf8 " ") with [32].
  rewrite sub_from_set by lia. rewrite sub_from_spaces by lia.
  f_equal. f_equal. unfold blank_punctuation.
  generalize (py_strip (py_lower t)). intros l.
  induction l as [|x l IH]; [reflexivity|].
  cbn [flat_map map]. rewrite IH.
  by destruct (in_set false true keep_items x).
Qed.

(** *** Facts on stripping and collapsing *)

Definition head_ok (t : text) : bool :=
  match t with
  | [] => true
  | c :: _ => negb (py_isspace c)
  end.

Lemma head_ok_lstrip t : head_ok (py_lstrip t) = true.
Proof.
  induction t as [|x t IH]; [reflexivity|].
  simpl. destruct (py_isspace x) eqn:Hx; [exact IH|]. simpl. by rewrite Hx.
Qed.

Lemma lstrip_head_ok t : head_ok t = true → py_lstrip t = t.
Proof.
  destruct t as [|x t]; [reflexivity|]. simpl.
  by destruct (py_isspace x).
Qed.

Lemma head_ok_rstrip t : head_ok t = true → head_ok (py_rstrip t) = true.
Proof.
  destruct t as [|x t]; [reflexivity|]. simpl.
  destruct (py_isspace x) eqn:Hx; [discriminate|]. simpl. by rewrite Hx.
Qed.

Lemma rstrip_rstrip t : py_rstrip (py_rstrip t) = py_rstrip t.
Proof.
  induction t as [|x t IH]; [reflexivity|]. simpl.
  destruct (py_isspace x) eqn:Hx; simpl.
  - case_bool_decide as Hr; [reflexivity|].
    simpl. rewrite Hx, IH. simpl. by rewrite bool_decide_false.
  - by rewrite Hx, IH.
Qed.

Lemma strip_strip t : py_strip (py_strip t) = py_strip t.
Proof.
  unfold py_strip.
  rewrite (lstrip_head_ok (py_rstrip (py_lstrip t))).
  - apply rstrip_rstrip.
  - apply head_ok_rstrip, head_ok_lstrip.
Qed.

Lemma elem_of_lstrip c t : c ∈ py_lstrip t → c ∈ t.
Proof.
  induction t as [|x t IH]; [done|]. simpl.
  destruct (py_isspace x); [|done]. intros Hc. right. by apply IH.
Qed.

Lemma elem_of_rstrip c t : c ∈ py_rstrip t → c ∈ t.
Proof.
  induction t as [|x t IH]; [done|]. simpl.
  destruct (py_isspace x && bool_decide (py_rstrip t = [])).
  - intros Hc. by apply elem_of_nil in Hc.
  - intros [->|Hc]%elem_of_cons; [left|right; by apply IH].
Qed.

Lemma elem_of_strip c t : c ∈ py_strip t → c ∈ t.
Proof. intros Hc. by apply elem_of_lstrip, elem_of_rstrip. Qed.

Lemma elem_of_collapse_go b c t : c ∈ collapse_go b t → c = 32 ∨ c ∈ t.
Proof.
  revert b. induction t as [|x t IH]; intros b; [intros Hc; by right|].
  simpl. destruct (py_isspace x).
  - destruct b.
    + intros Hc. destruct (IH _ Hc); [by left|right; by right].
    + intros [->|Hc]%elem_of_cons; [by left|].
      destruct (IH _ Hc); [by left|right; by right].
  - intros [->|Hc]%elem_of_cons; [right; by left|].
    destruct (IH _ Hc); [by left|right; by right].
Qed.

(** A text that [collapse_go b] leaves as it is. *)
Fixpoint tidy (b : bool) (t : text) : bool :=
  match t with
  | [] => true
  | c :: t' =>
    if py_isspace c then negb b && (c =? 32) && tidy true t'
    else tidy false t'
  end.

Lemma tidy_collapse_go b t : tidy b (collapse_go b t) = true.
Proof.
  revert b. induction t as [|x t IH]; intros b; [reflexivity|].
  simpl. destruct (py_isspace x) eqn:Hx.
  - destruct b; [apply IH|].
    simpl. rewrite py_isspace_SP. simpl. apply IH.
  - simpl. rewrite Hx. apply IH.
Qed.

Lemma collapse_go_tidy b t : tidy b t = true → collapse_go b t = t.
Proof.
  revert b. induction t as [|x t IH]; intros b; [reflexivity|].
  simpl. destruct (py_isspace x).
  - destruct b; [discriminate|]. simpl.
    intros [Hx Ht]%andb_true_iff. apply N.eqb_eq in Hx. subst x.
    f_equal. by apply IH.
  - intros Ht. f_equal. by apply IH.
Qed.

Lemma tidy_weaken t : tidy true t = true → tidy false t = true.
Proof.
  destruct t as [|x t]; [reflexivity|]. simpl.
  by destruct (py_isspace x).
Qed.

Lemma tidy_lstrip t : tidy false t = true → tidy false (py_lstrip t) = true.
Proof.
  destruct t as [|x t]; [reflexivity|]. simpl.
  destruct (py_isspace x) eqn:Hx; [|simpl; by rewrite Hx].
  simpl. intros [_ Ht]%andb_true_iff.
  destruct t as [|y t]; [reflexivity|]. simpl in *.
  destruct (py_isspace y) eqn:Hy; [discriminate|].
  simpl. by rewrite Hy.
Qed.

Lemma tidy_rstrip b t : tidy b t = true → tidy b (py_rstrip t) = true.
Proof.
  revert b. induction t as [|x t IH]; intros b; [reflexivity|]. simpl.
  destruct (py_isspace x) eqn:Hx; simpl.
  - intros [Hb Ht]%andb_true_iff. case_bool_decide; [reflexivity|].
    simpl. rewrite Hx, Hb. simpl. by apply IH.
  - intros Ht. rewrite Hx. by apply IH.
Qed.

Lemma tidy_strip t : tidy false t = true → tidy false (py_strip t) = true.
Proof. intros Ht. by apply tidy_rstrip, tidy_lstrip. Qed.

Lemma blank_punctuation_kept t :
  (∀ c, c ∈ t → in_set false true keep_items c = false) →
  blank_punctuation t = t.
Proof.
  induction t as [|x t IH]; intros Hk; [reflexivity|].
  unfold blank_punctuation in *. cbn [map].
  rewrite (Hk x) by left. f_equal. apply IH. intros c Hc. apply Hk. by right.
Qed.

Lemma space_kept : in_set false true keep_items 32 = false.
Proof.
  unfold in_set, keep_items. cbn [existsb in_item].
  by rewrite py_isspace_SP, orb_true_r.
Qed.

Lemma elem_of_blank_punctuation c t :
  c ∈ blank_punctuation t → in_set false true keep_items c = false.
Proof.
  unfold blank_punctuation. intros (x & -> & _)%list_elem_of_fmap.
  destruct (in_set false true keep_items x) eqn:Hx; [apply space_kept|exact Hx].
Qed.

Lemma elem_of_blank_punctuation_inv c t :
  c ∈ blank_punctuation t → c = 32 ∨ c ∈ t.
Proof.
  unfold blank_punctuation. intros (x & -> & Hx)%list_elem_of_fmap.
  destruct (in_set false true keep_items x); [by left|by right].
Qed.

Lemma lower_nil : py_lower [] = [].
Proof. apply py_lower_fixed. intros c Hc. by apply elem_of_nil in Hc. Qed.

End NormalizeFacts.

Section NormalizeIdempotent.
Context `{PyUnicode}.

(** C8. [normalize_text] is idempotent: normalising a normalised text
    gives it back, for every input and every Unicode table with the laws
    of [PyUnicode]. *)
Theorem normalize_text_idempotent (x : text) :
  normalize_text (normalize_text x) = normalize_text x.
Proof.
  rewrite (normalize_text_unfold x).
  case_bool_decide as Hx; [reflexivity|].
  set (r := py_strip (collapse_spaces (blank_punctuation (py_strip (py_lower x))))).
  rewrite normalize_text_unfold.
  case_bool_decide as Hr; [by rewrite Hr|].
  assert (Hlow : py_lower r = r).
  { apply py_lower_fixed. intros c Hc.
    apply elem_of_strip, elem_of_collapse_go in Hc as [->|Hc];
      [apply py_lower_SP|].
    apply elem_of_blank_punctuation_inv in Hc as [->|Hc];
      [apply py_lower_SP|].
    apply elem_of_strip in Hc. by apply (py_lower_lowered x). }
  assert (Hstrip : py_strip r = r) by apply strip_strip.
  assert (Hblank : blank_punctuation r = r).
  { apply blank_punctuation_kept. intros c Hc.
    apply elem_of_strip, elem_of_collapse_go in Hc as [->|Hc];
      [apply space_kept|].
    by apply elem_of_blank_punctuation in Hc. }
  assert (Hcol : collapse_spaces r = r).
  { apply collapse_go_tidy, tidy_strip, tidy_collapse_go. }
  by rewrite Hlow, Hstrip, Hblank, Hcol, Hstrip.
Qed.
End NormalizeIdempotent.

Lemma normalize_text_idempotent_witness :
  normalize_text (normalize_text (utf8 "  Xin CHÀO,   bạn!! Đặt SÁCH  "))
  = normalize_text (utf8 "  Xin CHÀO,   bạn!! Đặt SÁCH  ").
Proof.
  apply (normalize_text_idempotent (utf8 "  Xin CHÀO,   bạn!! Đặt SÁCH  ")).
Defined.

(** ** Synonym expansion *)

(** C10. [expand_synonyms] is not idempotent.  "loại" is listed as a
    synonym of "thể loại"; as a whole word inside that canonical form it
    is replaced again, so the canonical phrase "thể loại" expands to
    "thể thể loại", and expanding once more changes the text again. *)
Theorem expand_synonyms_not_idempotent :
  (∃ synonyms, (utf8 "thể loại", synonyms) ∈ SYNONYMS
               ∧ utf8 "loại" ∈ synonyms)
  ∧ re_sub (utf8 "\b" ++ utf8 "loại" ++ utf8 "\b") (utf8 "thể loại")
           (utf8 "thể loại") = utf8 "thể thể loại"
  ∧ expand_synonyms (utf8 "thể loại") = utf8 "thể thể loại"
  ∧ expand_synonyms (expand_synonyms (utf8 "thể loại"))
    ≠ expand_synonyms (utf8 "thể loại").
Proof.
  split; [|split; [|split]].
  - eexists. split.
    + unfold SYNONYMS. do 3 apply list_elem_of_further. apply list_elem_of_here.
    + do 2 apply list_elem_of_further. apply list_elem_of_here.
  - vm_compute. reflexivity.
  - vm_compute. reflexivity.
  - vm_compute. discriminate.
Qed.

(** ** Price-range extraction *)

(** The six patterns of [_extract_price_parameters] in the order they are
    tried, each with what a match of it yields. *)
Section PriceRules.
Context `{PyUnicode}.

Definition lower_bound_of (m : Match) : gmap string pyval :=
  match group_int m 2 with
  | Some number => {[ "price_range" := VRange (Some number) None ]}
  | None => ∅
  end.

Definition upper_bound_of (m : Match) : gmap string pyval :=
  match group_int m 2 with
  | Some number => {[ "price_range" := VRange None (Some number) ]}
  | None => ∅
  end.

Definition price_rules : list (text * (Match → gmap string pyval)) :=
  [ (* (a) range with price keyword *)
    (utf8 "giá\s+từ\s*(\d+)\s*đến\s*(\d+)", range_of);
    (* (b) bare range *)
    (utf8 "từ\s*(\d+)\s*đến\s*(\d+)", range_of);
    (* (c) single-sided with price keyword *)
    (utf8 "giá\s+(dưới|từ|trên|cao hơn|thấp hơn)\s*(\d+)",
     bound_of [utf8 "dưới"; utf8 "thấp hơn"]
              [utf8 "từ"; utf8 "trên"; utf8 "cao hơn"]);
    (* (d) single-sided with currency unit *)
    (utf8 "(dưới|từ|trên)\s*(\d+)\s*VND",
     bound_of [utf8 "dưới"] [utf8 "từ"; utf8 "trên"]);
    (* (e) bare above *)
    (utf8 "(trên|cao hơn)\s*(\d+)", lower_bound_of);
    (* (f) bare below *)
    (utf8 "(dưới|thấp hơn)\s*(\d+)", upper_bound_of) ].

Fixpoint first_match_wins (rules : list (text * (Match → gmap string pyval)))
    (t : text) : gmap string pyval :=
  match rules with
  | [] => ∅
  | (pattern, yield) :: rules' =>
    match re_search pattern t true with
    | Some m => yield m
    | None => first_match_wins rules' t
    end
  end.

Lemma extract_price_first_match t :
  _extract_price_parameters t = first_match_wins price_rules t.
Proof. reflexivity. Qed.

Lemma first_match_wins_at rules t i pattern yield m :
  rules !! i = Some (pattern, yield) →
  (∀ j earlier, (j < i)%nat → rules !! j = Some earlier →
                re_search earlier.1 t true = None) →
  re_search pattern t true = Some m →
  first_match_wins rules t = yield m.
Proof.
  revert i. induction rules as [|[p f] rules IH]; intros i Hi Hbefore Hm.
  - by rewrite lookup_nil in Hi.
  - destruct i as [|i]; simpl in *.
    + injection Hi as -> ->. by rewrite Hm.
    + pose proof (Hbefore 0%nat (p, f) ltac:(lia) eq_refl) as Hp.
      simpl in Hp. rewrite Hp.
      apply (IH i); [exact Hi| |exact Hm].
      intros j e Hj He. apply (Hbefore (S j) e); [lia|exact He].
Qed.

Lemma first_match_wins_none rules t :
  (∀ rule, rule ∈ rules → re_search rule.1 t true = None) →
  first_match_wins rules t = ∅.
Proof.
  induction rules as [|[p f] rules IH]; intros Hnone; [reflexivity|].
  pose proof (Hnone (p, f) ltac:(left)) as Hp. simpl in Hp.
  simpl. rewrite Hp. apply IH.
  intros r Hr. apply Hnone. by right.
Qed.
End PriceRules.

(** C7. The price patterns are tried in the order (a) to (f) and the
    first one that matches decides the result: when the pattern at
    position [i] matches and none before it does, the result is what that
    pattern yields, and when none matches no range is set.  In particular
    "giá từ 50000 đến 150000" gives (50000, 150000), "dưới 100000" gives
    (None, 100000) and "trên 200000" gives (200000, None). *)
Theorem price_range_first_match_wins :
  (∀ (U : PyUnicode) t i pattern yield m,
     price_rules !! i = Some (pattern, yield) →
     (∀ j earlier, (j < i)%nat → price_rules !! j = Some earlier →
                   re_search earlier.1 t true = None) →
     re_search pattern t true = Some m →
     _extract_price_parameters t = yield m)
  ∧ (∀ (U : PyUnicode) t,
       (∀ rule, rule ∈ price_rules → re_search rule.1 t true = None) →
       _extract_price_parameters t = ∅)
  ∧ _extract_price_parameters (utf8 "giá từ 50000 đến 150000")
    = {[ "price_range"%string := VRange (Some 50000%Z) (Some 150000%Z) ]}
  ∧ _extract_price_parameters (utf8 "dưới 100000")
    = {[ "price_range"%string := VRange None (Some 100000%Z) ]}
  ∧ _extract_price_parameters (utf8 "trên 200000")
    = {[ "price_range"%string := VRange (Some 200000%Z) None ]}.
Proof.
  split; [|split; [|split; [|split]]].
  - intros U t i pattern yield m Hi Hbefore Hm.
    rewrite extract_price_first_match.
    by apply (first_match_wins_at price_rules t i pattern yield m).
  - intros U t Hnone. rewrite extract_price_first_match.
    by apply first_match_wins_none.
  - vm_compute. reflexivity.
  - vm_compute. reflexivity.
  - vm_compute. reflexivity.
Qed.

Lemma price_range_first_match_wins_witness :
  _extract_price_parameters (utf8 "dưới 100000 VND")
  = bound_of [utf8 "dưới"] [utf8 "từ"; utf8 "trên"]
      (mkMatch 0 15 [(2, (5, 11)); (1, (0, 4))]%nat (utf8 "dưới 100000 VND")).
Proof.
  apply (proj1 price_range_first_match_wins latin_unicode
           (utf8 "dưới 100000 VND") 3%nat
           (utf8 "(dưới|từ|trên)\s*(\d+)\s*VND")).
  - reflexivity.
  - intros j earlier Hj Hearlier.
    destruct j as [|[|[|j]]]; try lia;
      injection Hearlier as <-; vm_compute; reflexivity.
  - vm_compute. reflexivity.
Defined.

(** ** Confidence of the classification *)

Section ClassifyFacts.
Context `{PyUnicode}.

(** The confidence the loop holds after a match was accepted: the raw
    confidence of the match plus the priority bonus of its intent. *)
Definition adjusted (expanded_text : text) (intent_type : IntentType)
    (m : Match) : float :=
  (_calculate_confidence m expanded_text
   + float_of_Z (intent_priority intent_type) * 0.01)%float.

(** What holds of the loop state at every point of the three loops. *)
Definition best_inv (expanded_text : text) (b : best) : Prop :=
  (best_intent b = UNKNOWN ∧ best_confidence b = 0.0%float
   ∧ matched_entities b = [])
  ∨ ∃ patterns pattern m,
      (best_intent b, patterns) ∈ intent_patterns
      ∧ pattern ∈ patterns
      ∧ m ∈ re_finditer pattern expanded_text true
      ∧ best_confidence b = adjusted expanded_text (best_intent b) m.

Lemma foldl_invariant {A B} (P : A → Prop) (f : A → B → A) (l : list B) a :
  P a → (∀ a x, x ∈ l → P a → P (f a x)) → P (foldl f a l).
Proof.
  revert a. induction l as [|x l IH]; intros a Ha Hf; [exact Ha|].
  simpl. apply IH.
  - apply Hf; [left|exact Ha].
  - intros a' y Hy. apply Hf. by right.
Qed.

Lemma elem_of_insert_by_key {A} (key : A → Z) (x y : A) l :
  y ∈ insert_by_key key x l → y = x ∨ y ∈ l.
Proof.
  induction l as [|z l IH]; simpl.
  - intros ->%list_elem_of_singleton. by left.
  - destruct (key z <? key x)%Z.
    + intros [->|Hy]%elem_of_cons; [by left|by right].
    + intros [->|Hy]%elem_of_cons; [right; left|].
      destruct (IH Hy); [by left|right; by right].
Qed.

Lemma elem_of_sorted_reverse {A} (key : A → Z) (y : A) l :
  y ∈ sorted_reverse key l → y ∈ l.
Proof.
  unfold sorted_reverse.
  assert (Hgen : ∀ acc, y ∈ foldl (λ acc x, insert_by_key key x acc) acc l
                        → y ∈ acc ∨ y ∈ l).
  { induction l as [|x l IH]; intros acc Hy; [by left|].
    simpl in Hy. destruct (IH _ Hy) as [Hacc|Hl]; [|right; by right].
    destruct (elem_of_insert_by_key _ _ _ _ Hacc) as [->|?];
      [right; left|by left]. }
  intros Hy. destruct (Hgen [] Hy) as [Hnil|Hl]; [|exact Hl].
  by apply elem_of_nil in Hnil.
Qed.

Lemma consider_inv expanded_text intent_type patterns pattern b m :
  (intent_type, patterns) ∈ intent_patterns →
  pattern ∈ patterns →
  m ∈ re_finditer pattern expanded_text true →
  best_inv expanded_text b →
  best_inv expanded_text (consider expanded_text intent_type b m).
Proof.
  intros Hi Hp Hm Hb. unfold consider. cbv zeta.
  destruct (PrimFloat.ltb _ _); [|exact Hb].
  right. exists patterns, pattern, m. cbn [best_intent best_confidence].
  repeat split; assumption || reflexivity.
Qed.

Lemma best_match_inv expanded_text :
  best_inv expanded_text (best_match expanded_text).
Proof.
  unfold best_match. cbv zeta.
  apply foldl_invariant; [left; repeat split; reflexivity|].
  intros b [intent_type patterns] Hin Hb.
  apply elem_of_sorted_reverse in Hin.
  apply foldl_invariant; [exact Hb|].
  intros b' pattern Hp Hb'.
  apply foldl_invariant; [exact Hb'|].
  intros b'' m Hm Hb''.
  by apply (consider_inv expanded_text intent_type patterns pattern).
Qed.

(** The result built from a loop state with the invariant. *)
Lemma result_of_best expanded_text t (b : best) params :
  best_inv expanded_text b →
  let r := mkIntentResult (best_intent b) (best_confidence b)
                          (matched_entities b) params t None None in
  (intent r = UNKNOWN ∧ confidence r = 0.0%float)
  ∨ ∃ patterns pattern m,
      (intent r, patterns) ∈ intent_patterns
      ∧ pattern ∈ patterns
      ∧ m ∈ re_finditer pattern expanded_text true
      ∧ confidence r
        = (_calculate_confidence m expanded_text
           + float_of_Z (intent_priority (intent r)) * 0.01)%float.
Proof.
  intros [(Hi & Hc & _)|(patterns & pattern & m & Hin & Hp & Hm & Hc)];
    cbv zeta; cbn [intent confidence].
  - left. split; assumption.
  - right. exists patterns, pattern, m. unfold adjusted in Hc.
    split; [exact Hin|]. split; [exact Hp|]. split; [exact Hm|exact Hc].
Qed.
End ClassifyFacts.

(** C2 (defect in the code).  The confidence recorded in the result is
    the ranking key, not the raw confidence: unless no match was accepted
    (intent UNKNOWN, confidence 0), it is the raw confidence of a match of
    the winning intent plus that intent's priority bonus.  On "mua sách"
    the accepted match has raw confidence 1.0, the value stored with its
    entity, while the result records 1.0 + 10 * 0.01. *)
Theorem classify_intent_confidence_keeps_bonus :
  (∀ (U : PyUnicode) t,
     let r := classify_intent t in
     let expanded_text := expand_synonyms (normalize_text t) in
     (intent r = UNKNOWN ∧ confidence r = 0.0%float)
     ∨ ∃ patterns pattern m,
         (intent r, patterns) ∈ intent_patterns
         ∧ pattern ∈ patterns
         ∧ m ∈ re_finditer pattern expanded_text true
         ∧ confidence r
           = (_calculate_confidence m expanded_text
              + float_of_Z (intent_priority (intent r)) * 0.01)%float)
  ∧ (let r := classify_intent (utf8 "mua sách") in
     intent r = ORDER
     ∧ entity_confidence <$> entities r = [1.0%float]
     ∧ confidence r = (1.0 + float_of_Z 10 * 0.01)%float
     ∧ PrimFloat.eqb (confidence r) 1.0 = false).
Proof.
  split.
  - intros U t. cbv zeta. unfold classify_intent.
    case_bool_decide as Ht; [left; split; reflexivity|].
    apply result_of_best, best_match_inv.
  - vm_compute. repeat split.
Qed.

(** The cap of [_calculate_confidence] works: the raw confidence of a
    match never exceeds 1. *)
Lemma ltb_leb (x y : float) :
  PrimFloat.ltb x y = true → PrimFloat.leb x y = true.
Proof.
  rewrite ltb_spec, leb_spec. unfold SFltb, SFleb.
  by destruct (SFcompare _ _) as [[]|].
Qed.

Lemma py_min_one_le (x : float) : PrimFloat.leb (py_min 1.0 x) 1.0 = true.
Proof.
  unfold py_min. destruct (PrimFloat.ltb x 1.0) eqn:Hx.
  - by apply ltb_leb.
  - reflexivity.
Qed.

(** C3 (defect in the code).  The confidence of the result can leave
    [0, 1].  The raw confidence of every match is capped at 1.0, but the
    priority bonus is added after the cap and the sum is what the result
    records: for "mua sách" the classifier answers ORDER with confidence
    1.1000000000000001, that is 1.0 + 10 * 0.01. *)
Theorem classify_intent_confidence_exceeds_one :
  (∀ (U : PyUnicode) m t,
     PrimFloat.leb (_calculate_confidence m t) 1.0 = true)
  ∧ (let r := classify_intent (utf8 "mua sách") in
     intent r = ORDER
     ∧ confidence r = 1.1%float
     ∧ PrimFloat.leb (confidence r) 1.0 = false).
Proof.
  split.
  - intros U m t. unfold _calculate_confidence. cbv zeta. apply py_min_one_le.
  - vm_compute. repeat split.
Qed.

(** ** Sentiment *)

Section SentimentFacts.
Context `{PyUnicode}.

(** The tag as a function of the set of words alone. *)
Definition sentiment_of_words (words : gset text) : SentimentType :=
  resolve_sentiment (size (words ∩ POSITIVE_KEYWORDS))
                    (size (words ∩ NEGATIVE_KEYWORDS))
                    (size (words ∩ FRUSTRATED_KEYWORDS))
                    (size (words ∩ EXCITED_KEYWORDS)).

Lemma resolve_sentiment_tests p n f e :
  (if (0 <? e)%nat && (p <=? e)%nat then EXCITED
   else if (0 <? f)%nat && (n <=? f)%nat then FRUSTRATED
   else if (n <? p)%nat then POSITIVE
   else if (p <? n)%nat then NEGATIVE
   else NEUTRAL) = resolve_sentiment p n f e.
Proof.
  unfold resolve_sentiment.
  repeat case_bool_decide;
    repeat match goal with
    | |- context [(?a <? ?b)%nat] => destruct (Nat.ltb_spec a b)
    | |- context [(?a <=? ?b)%nat] => destruct (Nat.leb_spec a b)
    end; simpl; try reflexivity; lia.
Qed.

Lemma sentiment_of_no_words : sentiment_of_words ∅ = NEUTRAL.
Proof.
  unfold sentiment_of_words.
  by rewrite !intersection_empty_l_L, size_empty.
Qed.

Lemma analyze_sentiment_words t :
  analyze_sentiment t
  = sentiment_of_words (list_to_set (py_split (py_lower t))).
Proof.
  unfold analyze_sentiment. case_bool_decide as Ht.
  - subst t. rewrite lower_nil. simpl. by rewrite sentiment_of_no_words.
  - cbv zeta. apply resolve_sentiment_tests.
Qed.

Lemma size_words_inter (ws : list text) (keywords : gset text) :
  size ((list_to_set ws : gset text) ∩ keywords)
  = keyword_count keywords (remove_dups ws).
Proof.
  unfold keyword_count.
  rewrite <- (size_list_to_set (C:=gset text)
                (filter (λ w, w ∈ keywords) (remove_dups ws))).
  - f_equal. apply set_eq. intros w.
    rewrite elem_of_intersection, !elem_of_list_to_set,
      list_elem_of_filter, elem_of_remove_dups. tauto.
  - apply NoDup_filter, NoDup_remove_dups.
Qed.
End SentimentFacts.

(** C6. [analyze_sentiment] equals the reference definition (the distinct
    whitespace-separated lower-cased words, counted against the four
    keyword sets, resolved in the order EXCITED, FRUSTRATED, POSITIVE,
    NEGATIVE, NEUTRAL); the empty input is NEUTRAL; and two inputs whose
    words are permutations of each other get the same tag. *)
Theorem analyze_sentiment_reference `{PyUnicode} :
  (∀ t, analyze_sentiment t = sentiment_reference t)
  ∧ analyze_sentiment [] = NEUTRAL
  ∧ (∀ t1 t2,
       py_split (py_lower t1) ≡ₚ py_split (py_lower t2) →
       analyze_sentiment t1 = analyze_sentiment t2).
Proof.
  split; [|split].
  - intros t. rewrite analyze_sentiment_words.
    unfold sentiment_of_words, sentiment_reference, distinct_words.
    cbv zeta. by rewrite !size_words_inter.
  - reflexivity.
  - intros t1 t2 Hperm. rewrite !analyze_sentiment_words.
    by rewrite Hperm.
Qed.

Lemma analyze_sentiment_reference_witness :
  analyze_sentiment (utf8 "wow hay") = analyze_sentiment (utf8 "hay wow").
Proof.
  apply (proj2 (proj2 analyze_sentiment_reference)).
  vm_compute. apply perm_swap.
Defined.

(** ** Sessions and the order flow *)

Section SessionFacts.
Variable clock : nat → time.

Local Open Scope Z_scope.

(** The manager after one more clock reading. *)
Definition tick (w : SessionManager) : SessionManager :=
  mkSessionManager (sessions w) (session_timeout w) (cleanup_interval w)
    (last_cleanup w) (S (ticks w)).

(** What the store holds for a session: order state, draft, expiry. *)
Definition holds (w : SessionManager) (sid : string) (st : OrderState)
    (o : option OrderData) (expiry : time) : Prop :=
  ∃ s, sessions w !! sid = Some s ∧ order_state s = st ∧ order_data s = o
       ∧ expires_at s = expiry.

Lemma bind_eq {A B} (m : M A) (f : A → M B) w a w' :
  m w = (a, w') → bind m f w = f a w'.
Proof. unfold bind. by intros ->. Qed.

Lemma get_session_missing sid w :
  sessions w !! sid = None → get_session clock sid w = (None, w).
Proof. intros Hs. unfold get_session, bind, get_sessions. by rewrite Hs. Qed.

Lemma get_session_expired sid w s :
  sessions w !! sid = Some s →
  expires_at s < clock (ticks w) →
  get_session clock sid w = (None, with_sessions (delete sid) (tick w)).
Proof.
  intros Hs Hexp. unfold get_session, bind, get_sessions. rewrite Hs.
  cbn [now fst snd]. 
  replace (expires_at s <? clock (ticks w)) with true
    by (symmetry; by apply Z.ltb_lt).
  unfold delete_session, bind, get_sessions. cbn [sessions].
  rewrite Hs. rewrite bool_decide_true by eauto. reflexivity.
Qed.

Lemma get_session_live sid w s :
  sessions w !! sid = Some s →
  clock (ticks w) ≤ expires_at s →
  get_session clock sid w
  = (Some (set_updated_at s (clock (S (ticks w)))),
     with_sessions (<[sid := set_updated_at s (clock (S (ticks w)))]>)
                   (tick (tick w))).
Proof.
  intros Hs Hexp. unfold get_session, bind, get_sessions. rewrite Hs.
  cbn [now fst snd].
  replace (expires_at s <? clock (ticks w)) with false
    by (symmetry; by apply Z.ltb_ge).
  reflexivity.
Qed.

Lemma update_session_present sid kwargs w s :
  sessions w !! sid = Some s →
  update_session clock sid kwargs w
  = (true,
     with_sessions
       (<[sid := set_updated_at (foldl setattr_session s kwargs)
                                (clock (ticks w))]>) (tick w)).
Proof.
  intros Hs. unfold update_session, bind, get_sessions. by rewrite Hs.
Qed.

Lemma update_session_missing sid kwargs w :
  sessions w !! sid = None → update_session clock sid kwargs w = (false, w).
Proof.
  intros Hs. unfold update_session, bind, get_sessions. by rewrite Hs.
Qed.

Lemma update_order_data_live sid kwargs w s o :
  sessions w !! sid = Some s →
  order_data s = Some o →
  clock (ticks w) ≤ expires_at s →
  ∃ w', update_order_data clock sid kwargs w = (true, w')
        ∧ holds w' sid (order_state s)
            (Some (set_order_updated_at (foldl setattr_order o kwargs)
                                        (clock (2 + ticks w))))
            (expires_at s)
        ∧ ticks w' = (4 + ticks w)%nat.
Proof.
  intros Hs Ho Hexp. unfold update_order_data.
  rewrite (bind_eq _ _ _ _ _ (get_session_live sid w s Hs Hexp)).
  cbn [order_data set_updated_at]. rewrite Ho.
  eexists. split; [reflexivity|]. split; [|reflexivity].
  eexists. split; [apply lookup_insert_eq|]. done.
Qed.

Lemma holds_update_session sid kwargs w st o expiry :
  holds w sid st o expiry →
  ∃ w', update_session clock sid kwargs w = (true, w')
        ∧ (∃ s s', sessions w !! sid = Some s
                   ∧ s' = foldl setattr_session s kwargs
                   ∧ holds w' sid (order_state s') (order_data s') expiry
                   ∧ expires_at s' = expiry)
        ∧ ticks w' = S (ticks w).
Proof.
  intros (s & Hs & Hst & Ho & He).
  rewrite (update_session_present sid kwargs w s Hs).
  eexists. split; [reflexivity|]. split; [|reflexivity].
  exists s, (foldl setattr_session s kwargs).
  assert (Hexp : ∀ kw s0, expires_at (foldl setattr_session s0 kw) = expires_at s0).
  { intros kw. induction kw as [|u kw IH]; intros s0; [reflexivity|].
    simpl. rewrite IH. by destruct u. }
  split; [exact Hs|]. split; [reflexivity|]. split.
  - eexists. split; [apply lookup_insert_eq|].
    cbn [order_state order_data expires_at set_updated_at].
    rewrite Hexp. done.
  - by rewrite Hexp.
Qed.

Lemma get_order_data_live sid w s :
  sessions w !! sid = Some s →
  clock (ticks w) ≤ expires_at s →
  get_order_data clock sid w
  = (order_data s,
     with_sessions (<[sid := set_updated_at s (clock (S (ticks w)))]>)
                   (tick (tick w))).
Proof.
  intros Hs Hexp. unfold get_order_data.
  by rewrite (bind_eq _ _ _ _ _ (get_session_live sid w s Hs Hexp)).
Qed.

(** *** The order flow on a live session *)

Lemma start_order_holds sid book w s :
  sessions w !! sid = Some s →
  ∃ r w', start_order clock sid book w = (r, w')
    ∧ holds w' sid WAITING_QUANTITY
        (Some (mkOrderData (default ""%string (bd_book_id book))
                 (default [] (bd_title book)) (default 0 (bd_price book)) 1
                 (utf8 "Khách hàng") [] [] (default 0 (bd_price book))
                 (clock (ticks w)) (clock (S (ticks w)))))
        (expires_at s)
    ∧ ticks w' = (4 + ticks w)%nat.
Proof.
  intros Hs. unfold start_order. cbv zeta.
  unfold bind at 1. cbn [now]. unfold bind at 1. cbn [now ticks].
  unfold set_order_data, set_order_state.
  rewrite (bind_eq _ _ _ _ _
             (update_session_present sid _ (tick (tick w)) s Hs)).
  erewrite bind_eq;
    [|apply update_session_present; cbn [with_sessions sessions tick];
      apply lookup_insert_eq].
  eexists _, _. split; [reflexivity|]. split; [|reflexivity].
  eexists. split; [apply lookup_insert_eq|]. done.
Qed.

Lemma process_quantity_holds sid q w st o expiry :
  holds w sid st (Some o) expiry →
  (∀ n, (ticks w ≤ n)%nat → clock n ≤ expiry) →
  ∃ r w' o', process_quantity clock sid q w = (r, w')
    ∧ status r = "success"%string
    ∧ holds w' sid WAITING_ADDRESS_PHONE (Some o') expiry
    ∧ price o' = price o
    ∧ quantity o' = q
    ∧ total_price o' = price o * q.
Proof.
  intros (s & Hs & Hst & Ho & He) Hlive. subst expiry.
  unfold process_quantity.
  destruct (update_order_data_live sid [Set_quantity q] w s o Hs Ho)
    as (w1 & Hw1 & (s1 & Hs1 & Hst1 & Ho1 & He1) & Ht1); [by apply Hlive|].
  rewrite (bind_eq _ _ _ _ _ Hw1). cbn [negb].
  assert (Hl1 : clock (ticks w1) ≤ expires_at s1).
  { rewrite He1. apply Hlive. lia. }
  rewrite (bind_eq _ _ _ _ _ (get_order_data_live sid w1 s1 Hs1 Hl1)).
  rewrite Ho1.
  set (s2 := set_updated_at s1 (clock (S (ticks w1)))).
  set (w2 := with_sessions (<[sid := s2]>) (tick (tick w1))).
  assert (Hs2 : sessions w2 !! sid = Some s2) by apply lookup_insert_eq.
  set (o1 := set_order_updated_at _ _) in *.
  destruct (update_order_data_live sid [Set_total_price (price o1 * q)]
              w2 s2 o1 Hs2)
    as (w3 & Hw3 & (s3 & Hs3 & Hst3 & Ho3 & He3) & Ht3);
    [exact Ho1| |].
  { cbn [expires_at s2 set_updated_at]. rewrite He1. apply Hlive.
    cbn [ticks w2 with_sessions tick]. lia. }
  rewrite (bind_eq _ _ _ _ _ Hw3).
  unfold set_order_state.
  rewrite (bind_eq _ _ _ _ _ (update_session_present sid _ w3 s3 Hs3)).
  unfold bind, get_sessions, ret. cbn [with_sessions sessions tick].
  rewrite lookup_insert_eq.
  eexists _, _, _. split; [reflexivity|]. split; [reflexivity|].
  split.
  - eexists. split; [apply lookup_insert_eq|].
    cbn [foldl setattr_session order_state order_data expires_at
         set_updated_at].
    split; [reflexivity|]. split; [exact Ho3|].
    rewrite He3. unfold s2. cbn [expires_at set_updated_at]. exact He1.
  - unfold o1. repeat split.
Qed.

(** *** Expiry and the statistics *)

Lemma delete_session_sessions sid w :
  sessions (delete_session sid w).2 ⊆ sessions w
  ∧ ticks (delete_session sid w).2 = ticks w.
Proof.
  unfold delete_session, bind, get_sessions.
  case_bool_decide; cbn; [|done].
  split; [apply delete_subseteq|reflexivity].
Qed.

Lemma for_each_cons {A} (x : A) l (body : A → M unit) w :
  for_each (x :: l) body w = for_each l body (body x w).2.
Proof. cbn [for_each]. unfold bind. by destruct (body x w). Qed.

Lemma delete_all_sessions (l : list (string * SessionData)) w :
  let w' := (for_each l (λ kv, bind (delete_session kv.1) (λ _, ret tt)) w).2 in
  sessions w' ⊆ sessions w ∧ ticks w' = ticks w.
Proof.
  cbv zeta. set (body := λ kv : string * SessionData, bind _ _).
  assert (Hbody : ∀ kv w, (body kv w).2 = (delete_session kv.1 w).2).
  { intros kv w0. unfold body, bind, ret.
    by destruct (delete_session kv.1 w0). }
  revert w. induction l as [|kv l IH]; intros w; [done|].
  rewrite for_each_cons, Hbody.
  destruct (IH (delete_session kv.1 w).2) as [IHs IHt].
  destruct (delete_session_sessions kv.1 w) as [Hsub Ht].
  split; [by etrans|congruence].
Qed.

Lemma cleanup_expired_sessions_sessions w :
  ∃ w', cleanup_expired_sessions clock w = (tt, w')
        ∧ sessions w' ⊆ sessions w ∧ ticks w' = S (ticks w).
Proof.
  unfold cleanup_expired_sessions. unfold bind at 1. cbn [now].
  set (w1 := mkSessionManager _ _ _ _ (S (ticks w))).
  destruct (_ <? _); [by eexists|].
  unfold bind at 1.
  pose proof (delete_all_sessions
                (filter (λ kv, expires_at kv.2 < clock (ticks w))
                        (map_to_list (sessions w1))) w1) as Hdel.
  cbv zeta in Hdel.
  destruct (for_each _ _ w1) as [u w2]. cbn [snd] in *.
  eexists. split; [reflexivity|]. exact Hdel.
Qed.

Lemma count_sessions_bound t0 l active order w :
  (∀ n, (ticks w ≤ n)%nat → t0 ≤ clock n) →
  ((count_sessions clock l active order w).1.1
   ≤ active + length (filter (λ s, (t0 ≤ expires_at s)%Z) l))%nat.
Proof.
  revert active order w.
  induction l as [|s l IH]; intros active order w Hclock; [simpl; lia|].
  cbn [count_sessions]. unfold bind. cbn [now].
  set (w1 := mkSessionManager _ _ _ _ (S (ticks w))).
  assert (Hclock1 : ∀ n, (ticks w1 ≤ n)%nat → t0 ≤ clock n).
  { intros n Hn. apply Hclock. cbn in Hn. lia. }
  rewrite filter_cons.
  destruct (Z.leb_spec (clock (ticks w)) (expires_at s)) as [Hle|Hgt].
  - rewrite decide_True by (specialize (Hclock (ticks w)); lia).
    etrans; [apply (IH _ _ w1 Hclock1)|]. simpl. lia.
  - etrans; [apply (IH _ _ w1 Hclock1)|]. case_decide; simpl; lia.
Qed.

Lemma length_filter_map_to_list (P : SessionData → Prop)
    `{!∀ s, Decision (P s)} (m : gmap string SessionData) :
  length (filter P (snd <$> map_to_list m))
  = size (filter (λ kv : string * SessionData, P kv.2) m).
Proof.
  induction m as [|i x m Hi IH] using map_ind.
  - by rewrite map_to_list_empty, map_filter_empty, map_size_empty.
  - rewrite (Permutation_length
               (filter_Permutation _ _ _
                  (fmap_Permutation snd _ _ (map_to_list_insert m i x Hi)))).
    rewrite fmap_cons, filter_cons. cbn [snd].
    destruct (decide (P x)) as [HP|HP].
    + rewrite map_filter_insert_True by done.
      rewrite map_size_insert_None
        by (apply map_lookup_filter_None; by left).
      simpl. by rewrite IH.
    + rewrite map_filter_insert_False by done.
      by rewrite delete_id.
Qed.
End SessionFacts.

(** C5. From CONFIRMING_ORDER, [confirm_order] with [confirmed = false]
    clears the draft of the session and returns its order state to NONE. *)
Theorem confirm_order_cancel_clears_draft clock w sid s :
  sessions w !! sid = Some s →
  order_state s = CONFIRMING_ORDER →
  let res := confirm_order clock sid false w in
  action res.1 = Some "order_cancelled"%string
  ∧ ∃ s', sessions res.2 !! sid = Some s'
          ∧ order_data s' = None
          ∧ order_state s' = NONE.
Proof.
  intros Hs _. cbv zeta. unfold confirm_order, clear_order_data.
  rewrite (bind_eq _ _ _ _ _ (update_session_present clock sid _ w s Hs)).
  split; [reflexivity|].
  eexists. split; [apply lookup_insert_eq|]. split; reflexivity.
Qed.

(** C4. On a session of the store, [start_order] for a book of unit
    price [p] leaves a draft with quantity 1 and total [p] in state
    WAITING_QUANTITY; [process_quantity] with [q > 0], called next while
    the session has not expired, sets the quantity to [q], the total to
    [p * q] and the state to WAITING_ADDRESS_PHONE. *)
Theorem start_order_then_process_quantity clock w sid s book p q :
  sessions w !! sid = Some s →
  bd_price book = Some p →
  (∀ n, (ticks w ≤ n)%nat → (clock n ≤ expires_at s)%Z) →
  (0 < q)%Z →
  let w1 := (start_order clock sid book w).2 in
  let w2 := (process_quantity clock sid q w1).2 in
  (∃ s1 o1, sessions w1 !! sid = Some s1
            ∧ order_data s1 = Some o1
            ∧ price o1 = p ∧ quantity o1 = 1%Z ∧ total_price o1 = p
            ∧ order_state s1 = WAITING_QUANTITY)
  ∧ (∃ s2 o2, sessions w2 !! sid = Some s2
              ∧ order_data s2 = Some o2
              ∧ quantity o2 = q ∧ total_price o2 = (p * q)%Z
              ∧ order_state s2 = WAITING_ADDRESS_PHONE).
Proof.
  intros Hs Hp Hlive _. cbv zeta.
  destruct (start_order_holds clock sid book w s Hs)
    as (r1 & w1 & Hw1 & Hh1 & Ht1).
  rewrite Hw1. cbn [snd]. rewrite Hp in Hh1. cbn [default] in Hh1.
  split.
  - destruct Hh1 as (s1 & Hs1 & Hst1 & Ho1 & _).
    exists s1. eexists.
    split; [exact Hs1|]. split; [exact Ho1|]. cbn [price quantity total_price].
    repeat split. exact Hst1.
  - destruct (process_quantity_holds clock sid q w1 _ _ _ Hh1)
      as (r2 & w2 & o2 & Hw2 & _ & (s2 & Hs2 & Hst2 & Ho2 & _) & Hp2 & Hq2 & Htot2).
    { intros n Hn. apply Hlive. lia. }
    rewrite Hw2. cbn [snd].
    exists s2, o2.
    split; [exact Hs2|]. split; [exact Ho2|]. split; [exact Hq2|].
    split; [|exact Hst2]. rewrite Htot2. reflexivity.
Qed.

(** A store with one session, waiting for a quantity, holding a draft for
    a book at 150000; the clock stands at 0 and the session expires at
    3600 seconds. *)
Definition sample_clock : nat → time := λ _, 0%Z.

Definition sample_draft : OrderData :=
  mkOrderData "B001" (utf8 "Gilead") 150000 1 (utf8 "Khách hàng") [] []
              150000 0 0.

Definition sample_session (st : OrderState) (draft : option OrderData)
    : SessionData :=
  mkSessionData "s1" "user_s1" SessionType.CHAT st draft [] ∅ 0 0 3600000000.

Definition sample_store (st : OrderState) (draft : option OrderData)
    : SessionManager :=
  mkSessionManager {[ "s1"%string := sample_session st draft ]} 3600 300 0 0.

Lemma confirm_order_cancel_clears_draft_witness :
  let res := confirm_order sample_clock "s1" false
               (sample_store CONFIRMING_ORDER (Some sample_draft)) in
  action res.1 = Some "order_cancelled"%string
  ∧ ∃ s', sessions res.2 !! "s1"%string = Some s'
          ∧ order_data s' = None
          ∧ order_state s' = NONE.
Proof.
  apply (confirm_order_cancel_clears_draft sample_clock
           (sample_store CONFIRMING_ORDER (Some sample_draft)) "s1"
           (sample_session CONFIRMING_ORDER (Some sample_draft)));
    reflexivity.
Defined.

Lemma start_order_then_process_quantity_witness :
  let w1 := (start_order sample_clock "s1"
               (mkBookData (Some "B001"%string) (Some (utf8 "Gilead"))
                           (Some 150000%Z))
               (sample_store NONE None)).2 in
  let w2 := (process_quantity sample_clock "s1" 3 w1).2 in
  (∃ s1 o1, sessions w1 !! "s1"%string = Some s1
            ∧ order_data s1 = Some o1
            ∧ price o1 = 150000%Z ∧ quantity o1 = 1%Z
            ∧ total_price o1 = 150000%Z
            ∧ order_state s1 = WAITING_QUANTITY)
  ∧ (∃ s2 o2, sessions w2 !! "s1"%string = Some s2
              ∧ order_data s2 = Some o2
              ∧ quantity o2 = 3%Z ∧ total_price o2 = (150000 * 3)%Z
              ∧ order_state s2 = WAITING_ADDRESS_PHONE).
Proof.
  apply (start_order_then_process_quantity sample_clock
           (sample_store NONE None) "s1" (sample_session NONE None)
           (mkBookData (Some "B001"%string) (Some (utf8 "Gilead"))
                       (Some 150000%Z)) 150000 3).
  - reflexivity.
  - reflexivity.
  - intros n _. vm_compute. discriminate.
  - reflexivity.
Defined.

(** C1, as stated, fails on [process_quantity]: called with quantity 0 on
    a live session that waits for a quantity, it answers "success",
    writes quantity 0 and total 0 into the draft and moves the state on
    to WAITING_ADDRESS_PHONE. *)
Lemma process_quantity_accepts_zero :
  let res := process_quantity sample_clock "s1" 0
               (sample_store WAITING_QUANTITY (Some sample_draft)) in
  status res.1 = "success"%string
  ∧ order_state <$> sessions res.2 !! "s1"%string
    = Some WAITING_ADDRESS_PHONE
  ∧ (sessions res.2 !! "s1"%string ≫= order_data)
    = Some (mkOrderData "B001" (utf8 "Gilead") 150000 0 (utf8 "Khách hàng")
                        [] [] 0 0 0).
Proof. vm_compute. repeat split. Qed.

(** C1, amended.  The non-positive quantities are turned away one level
    up, by the chatbot's quantity step, the caller of [process_quantity]:
    when no quantity can be read from the utterance, or the quantity read
    is [<= 0], [_handle_quantity_input] returns the retry prompt and
    leaves the session manager as it was, so the order state (still
    WAITING_QUANTITY) and the draft keep their values and no transition
    is made. *)
Theorem handle_quantity_input_rejects_non_positive
    `{PyUnicode} clock user_input sid w :
  (extract_quantity user_input = None
   ∨ ∃ q, extract_quantity user_input = Some q ∧ (q ≤ 0)%Z) →
  _handle_quantity_input clock user_input sid w = (quantity_retry, w)
  ∧ response_message quantity_retry
    = utf8 "Vui lòng nhập số lượng hợp lệ (ví dụ: '2')."
  ∧ response_intent quantity_retry = "order_quantity_error"%string.
Proof.
  intros Hq. split; [|split; reflexivity].
  unfold _handle_quantity_input.
  destruct Hq as [->|(q & -> & Hq)]; [reflexivity|].
  destruct (Z.eqb_spec q 0) as [->|Hne]; [reflexivity|].
  replace (0 <? q)%Z with false by (symmetry; apply Z.ltb_ge; lia).
  reflexivity.
Qed.

(** A positive quantity is the only way into [process_quantity]. *)
Lemma handle_quantity_input_accepts_positive
    `{PyUnicode} clock user_input sid w q :
  extract_quantity user_input = Some q →
  (0 < q)%Z →
  _handle_quantity_input clock user_input sid w
  = let res := process_quantity clock sid q w in
    (mkResponse (message res.1) "order_quantity" (result_order_data res.1),
     res.2).
Proof.
  intros Hq Hpos. unfold _handle_quantity_input. rewrite Hq.
  replace (q =? 0)%Z with false by (symmetry; apply Z.eqb_neq; lia).
  replace (0 <? q)%Z with true by (symmetry; apply Z.ltb_lt; lia).
  cbn [negb andb]. unfold bind, ret. cbv zeta.
  by destruct (process_quantity clock sid q w).
Qed.

Lemma handle_quantity_input_rejects_non_positive_witness :
  _handle_quantity_input sample_clock (utf8 "0") "s1"
    (sample_store WAITING_QUANTITY (Some sample_draft))
  = (quantity_retry, sample_store WAITING_QUANTITY (Some sample_draft))
  ∧ response_message quantity_retry
    = utf8 "Vui lòng nhập số lượng hợp lệ (ví dụ: '2')."
  ∧ response_intent quantity_retry = "order_quantity_error"%string.
Proof.
  apply (handle_quantity_input_rejects_non_positive sample_clock (utf8 "0")
           "s1" (sample_store WAITING_QUANTITY (Some sample_draft))).
  right. exists 0%Z. split; [vm_compute; reflexivity|lia].
Defined.

(** C9. A session whose expiry lies before the current time is gone at
    the next [get_session]: the call returns no session and the store no
    longer holds it.  In the statistics such a session is not counted as
    active: with every clock reading from now on at or after [t0], the
    active count is at most the number of stored sessions whose expiry is
    at or after [t0], hence at most the number of the other sessions when
    one has expired before [t0]. *)
Theorem expired_session_is_gone clock w :
  (∀ sid s,
     sessions w !! sid = Some s →
     (expires_at s < clock (ticks w))%Z →
     let res := get_session clock sid w in
     res.1 = None ∧ sessions res.2 !! sid = None)
  ∧ (∀ t0,
       (∀ n, (ticks w ≤ n)%nat → (t0 ≤ clock n)%Z) →
       let stats := (get_session_statistics clock w).1 in
       (active_sessions stats
        ≤ size (filter (λ kv : string * SessionData,
                          (t0 ≤ expires_at kv.2)%Z) (sessions w)))%nat
       ∧ ∀ sid s,
           sessions w !! sid = Some s →
           (expires_at s < t0)%Z →
           (active_sessions stats ≤ size (delete sid (sessions w)))%nat).
Proof.
  split.
  - intros sid s Hs Hexp. cbv zeta.
    rewrite (get_session_expired clock sid w s Hs Hexp). cbn [fst snd].
    split; [reflexivity|]. apply lookup_delete_eq.
  - intros t0 Hclock. cbv zeta.
    assert (Hbound :
      (active_sessions (get_session_statistics clock w).1
       ≤ size (filter (λ kv : string * SessionData,
                         (t0 ≤ expires_at kv.2)%Z) (sessions w)))%nat).
    { unfold get_session_statistics.
      destruct (cleanup_expired_sessions_sessions clock w)
        as (w1 & Hw1 & Hsub & Ht1).
      rewrite (bind_eq _ _ _ _ _ Hw1).
      unfold bind at 1. unfold get_sessions at 1. unfold bind at 1.
      pose proof (count_sessions_bound clock t0
                    (snd <$> map_to_list (sessions w1)) 0 0 w1) as Hcount.
      destruct (count_sessions clock _ 0%nat 0%nat w1) as [[a o] w2].
      cbn [fst snd ret active_sessions] in *.
      etrans; [apply Hcount; intros n Hn; apply Hclock; lia|].
      cbn [Nat.add].
      rewrite (length_filter_map_to_list (λ s, (t0 ≤ expires_at s)%Z)).
      apply map_subseteq_size, map_filter_subseteq_mono, Hsub. }
    split; [exact Hbound|].
    intros sid s Hs Hexp. etrans; [exact Hbound|].
    apply map_subseteq_size, map_subseteq_spec. intros i x Hix.
    apply map_lookup_filter_Some in Hix as [Hix HP]. cbn [snd] in HP.
    destruct (decide (i = sid)) as [->|Hne].
    + rewrite Hs in Hix. injection Hix as <-. lia.
    + by rewrite lookup_delete_ne.
Qed.

(** Two hours after the sample session was created it has expired. *)
Definition late_clock : nat → time := λ _, 7200000000%Z.

Lemma expired_session_is_gone_witness :
  (let res := get_session late_clock "s1" (sample_store NONE None) in
   res.1 = None ∧ sessions res.2 !! "s1"%string = None)
  ∧ (let stats :=
       (get_session_statistics late_clock (sample_store NONE None)).1 in
     (active_sessions stats
      ≤ size (delete "s1"%string (sessions (sample_store NONE None))))%nat).
Proof.
  split.
  - apply (proj1 (expired_session_is_gone late_clock (sample_store NONE None))
             "s1"%string (sample_session NONE None)); reflexivity.
  - apply (proj2 (proj2 (expired_session_is_gone late_clock
                           (sample_store NONE None))
                        7200000000%Z ltac:(intros n _; unfold late_clock; lia))
             "s1"%string (sample_session NONE None)); reflexivity.
Defined.

(** ** More on the session store *)

Section StoreFacts.
Variable clock : nat → time.

Local Open Scope Z_scope.

(** *** Creating and deleting *)

Lemma create_session_eq new_id user ty w :
  create_session clock new_id user ty w
  = (new_id,
     with_sessions
       (<[new_id :=
            mkSessionData new_id
              (match user with
               | Some u => if bool_decide (u = ""%string)
                           then ("user_" +:+ String.substring 0 8 new_id)%string
                           else u
               | None => ("user_" +:+ String.substring 0 8 new_id)%string
               end)
              ty NONE None [] ∅ (clock (ticks w)) (clock (S (ticks w)))
              (clock (2 + ticks w)%nat + seconds (session_timeout w))]>)
       (tick (tick (tick w)))).
Proof. reflexivity. Qed.

Lemma delete_session_present sid w s :
  sessions w !! sid = Some s →
  delete_session sid w = (true, with_sessions (delete sid) w).
Proof.
  intros Hs. unfold delete_session, bind, get_sessions.
  rewrite Hs. by rewrite bool_decide_true by eauto.
Qed.

Lemma delete_session_missing sid w :
  sessions w !! sid = None → delete_session sid w = (false, w).
Proof.
  intros Hs. unfold delete_session, bind, get_sessions.
  rewrite Hs. rewrite bool_decide_false; [reflexivity|].
  by intros [? ?].
Qed.

End StoreFacts.

(** X1. A session made by [create_session] is stored under the id the
    call returns, in order state NONE, without draft, history or context,
    for the given user (or "user_" and the first eight characters of the
    id when none is given), and expires [session_timeout] seconds after
    the third clock reading of the call; the other sessions are left
    alone.  [get_session], called next before that expiry, returns it. *)
Theorem create_session_then_get_session clock w new_id user ty :
  (clock (3 + ticks w)%nat
   ≤ clock (2 + ticks w)%nat + seconds (session_timeout w))%Z →
  let created := create_session clock new_id user ty w in
  let fetched := get_session clock new_id created.2 in
  created.1 = new_id
  ∧ (∀ sid, sid ≠ new_id → sessions created.2 !! sid = sessions w !! sid)
  ∧ ∃ s, fetched.1 = Some s
         ∧ sessions fetched.2 !! new_id = Some s
         ∧ session_id s = new_id
         ∧ user_id s
           = (match user with
              | Some u => if bool_decide (u = ""%string)
                          then ("user_" +:+ String.substring 0 8 new_id)%string
                          else u
              | None => ("user_" +:+ String.substring 0 8 new_id)%string
              end)
         ∧ session_type s = ty
         ∧ order_state s = NONE
         ∧ order_data s = None
         ∧ conversation_history s = []
         ∧ session_context s = ∅
         ∧ created_at s = clock (ticks w)
         ∧ expires_at s
           = (clock (2 + ticks w)%nat + seconds (session_timeout w))%Z.
Proof.
  intros Hlive. cbv zeta. rewrite create_session_eq. cbn [fst snd].
  split; [reflexivity|]. split.
  { intros sid Hne. cbn [with_sessions sessions tick].
    by rewrite lookup_insert_ne. }
  erewrite get_session_live;
    [|cbn [with_sessions sessions tick]; apply lookup_insert_eq|exact Hlive].
  cbn [fst snd]. eexists. split; [reflexivity|].
  split; [cbn [with_sessions sessions tick]; apply lookup_insert_eq|].
  cbn [set_updated_at session_id user_id session_type order_state order_data
       conversation_history session_context created_at expires_at].
  repeat split.
Qed.

Lemma create_session_then_get_session_witness :
  let created := create_session sample_clock "s2" None SessionType.CHAT
                   (sample_store NONE None) in
  let fetched := get_session sample_clock "s2" created.2 in
  created.1 = "s2"%string
  ∧ (∀ sid, sid ≠ "s2"%string →
       sessions created.2 !! sid = sessions (sample_store NONE None) !! sid)
  ∧ ∃ s, fetched.1 = Some s
         ∧ sessions fetched.2 !! "s2"%string = Some s
         ∧ session_id s = "s2"%string
         ∧ user_id s = "user_s2"%string
         ∧ session_type s = SessionType.CHAT
         ∧ order_state s = NONE
         ∧ order_data s = None
         ∧ conversation_history s = []
         ∧ session_context s = ∅
         ∧ created_at s = sample_clock (ticks (sample_store NONE None))
         ∧ expires_at s
           = (sample_clock (2 + ticks (sample_store NONE None))%nat
              + seconds (session_timeout (sample_store NONE None)))%Z.
Proof.
  apply (create_session_then_get_session sample_clock (sample_store NONE None)
           "s2" None SessionType.CHAT).
  vm_compute. discriminate.
Defined.

(** X2. Deleting a session that [create_session] has just stored under a
    fresh id gives back the store as it was; a second [delete_session]
    answers [False] and changes nothing. *)
Theorem create_then_delete_session clock w new_id user ty :
  sessions w !! new_id = None →
  let created := create_session clock new_id user ty w in
  let deleted := delete_session new_id created.2 in
  deleted.1 = true
  ∧ sessions deleted.2 = sessions w
  ∧ delete_session new_id deleted.2 = (false, deleted.2).
Proof.
  intros Hfresh. cbv zeta. rewrite create_session_eq. cbn [fst snd].
  erewrite delete_session_present;
    [|cbn [with_sessions sessions tick]; apply lookup_insert_eq].
  cbn [fst snd]. split; [reflexivity|].
  assert (Hs : sessions
                 (with_sessions (delete new_id)
                    (with_sessions
                       (<[new_id := mkSessionData new_id
                            (match user with
                             | Some u => if bool_decide (u = ""%string)
                                         then ("user_" +:+ String.substring 0 8 new_id)%string
                                         else u
                             | None => ("user_" +:+ String.substring 0 8 new_id)%string
                             end)
                            ty NONE None [] ∅ (clock (ticks w))
                            (clock (S (ticks w)))
                            (clock (2 + ticks w)%nat
                             + seconds (session_timeout w))%Z]>)
                       (tick (tick (tick w))))) = sessions w).
  { cbn [with_sessions sessions tick]. rewrite delete_insert_eq.
    by apply delete_id. }
  split; [exact Hs|].
  apply delete_session_missing. rewrite Hs. exact Hfresh.
Qed.

Lemma create_then_delete_session_witness :
  let created := create_session sample_clock "s2" None SessionType.CHAT
                   (sample_store NONE None) in
  let deleted := delete_session "s2" created.2 in
  deleted.1 = true
  ∧ sessions deleted.2 = sessions (sample_store NONE None)
  ∧ delete_session "s2" deleted.2 = (false, deleted.2).
Proof.
  apply (create_then_delete_session sample_clock (sample_store NONE None)
           "s2" None SessionType.CHAT).
  reflexivity.
Defined.

(** ** The lifetime of a session is fixed when it is created *)

Section Lifetimes.
Variable clock : nat → time.

Local Open Scope Z_scope.

(** Every session of [w'] was already in [w], with the same creation
    and expiry times. *)
Definition same_lifetimes (w w' : SessionManager) : Prop :=
  ∀ sid s', sessions w' !! sid = Some s' →
    ∃ s, sessions w !! sid = Some s
         ∧ expires_at s' = expires_at s
         ∧ created_at s' = created_at s.

Definition keeps_lifetimes {A} (m : M A) : Prop :=
  ∀ w, same_lifetimes w (m w).2.

Lemma same_lifetimes_sessions w w' :
  sessions w' = sessions w → same_lifetimes w w'.
Proof. intros Heq sid s' Hs'. rewrite Heq in Hs'. eauto. Qed.

Lemma same_lifetimes_trans w1 w2 w3 :
  same_lifetimes w1 w2 → same_lifetimes w2 w3 → same_lifetimes w1 w3.
Proof.
  intros H12 H23 sid s3 Hs3.
  destruct (H23 sid s3 Hs3) as (s2 & Hs2 & He2 & Hc2).
  destruct (H12 sid s2 Hs2) as (s1 & Hs1 & He1 & Hc1).
  exists s1. split; [exact Hs1|]. split; congruence.
Qed.

Lemma same_lifetimes_insert w w' sid s s' :
  sessions w !! sid = Some s →
  expires_at s' = expires_at s →
  created_at s' = created_at s →
  sessions w' = <[sid := s']> (sessions w) →
  same_lifetimes w w'.
Proof.
  intros Hs He Hc Hw' i x Hx. rewrite Hw' in Hx.
  destruct (decide (i = sid)) as [->|Hne].
  - rewrite lookup_insert_eq in Hx. injection Hx as <-. eauto.
  - rewrite lookup_insert_ne in Hx by done. eauto.
Qed.

Lemma same_lifetimes_delete w w' sid :
  sessions w' = delete sid (sessions w) → same_lifetimes w w'.
Proof.
  intros Hw' i x Hx. rewrite Hw' in Hx.
  apply lookup_delete_Some in Hx as [_ Hx]. eauto.
Qed.

Ltac by_insert Hs :=
  eapply same_lifetimes_insert; [exact Hs| | |reflexivity];
  cbn [expires_at created_at set_updated_at setattr_session
       set_conversation_history];
  first [reflexivity | assumption].

Lemma keeps_ret {A} (a : A) : keeps_lifetimes (ret a).
Proof. intros w. by apply same_lifetimes_sessions. Qed.

Lemma keeps_bind {A B} (m : M A) (f : A → M B) :
  keeps_lifetimes m → (∀ a, keeps_lifetimes (f a)) →
  keeps_lifetimes (bind m f).
Proof.
  intros Hm Hf w. unfold bind. specialize (Hm w).
  destruct (m w) as [a w1]. cbn [snd] in Hm.
  eapply same_lifetimes_trans; [exact Hm|apply Hf].
Qed.

Lemma keeps_now : keeps_lifetimes (now clock).
Proof. intros w. by apply same_lifetimes_sessions. Qed.

Lemma keeps_get_sessions : keeps_lifetimes get_sessions.
Proof. intros w. by apply same_lifetimes_sessions. Qed.

Lemma setattr_session_lifetime s kwargs :
  expires_at (foldl setattr_session s kwargs) = expires_at s
  ∧ created_at (foldl setattr_session s kwargs) = created_at s.
Proof.
  revert s. induction kwargs as [|u kw IH]; intros s; [done|].
  simpl. destruct (IH (setattr_session s u)) as [-> ->]. by destruct u.
Qed.

Lemma keeps_delete_session sid : keeps_lifetimes (delete_session sid).
Proof.
  intros w. destruct (sessions w !! sid) as [s|] eqn:Hs.
  - rewrite (delete_session_present sid w s Hs).
    by apply (same_lifetimes_delete _ _ sid).
  - rewrite (delete_session_missing sid w Hs).
    by apply same_lifetimes_sessions.
Qed.

Lemma keeps_get_session sid : keeps_lifetimes (get_session clock sid).
Proof.
  intros w. destruct (sessions w !! sid) as [s|] eqn:Hs.
  - destruct (Z.lt_ge_cases (expires_at s) (clock (ticks w))) as [Hexp|Hlive].
    + rewrite (get_session_expired clock sid w s Hs Hexp).
      by apply (same_lifetimes_delete _ _ sid).
    + rewrite (get_session_live clock sid w s Hs Hlive).
      by_insert Hs.
  - rewrite (get_session_missing clock sid w Hs).
    by apply same_lifetimes_sessions.
Qed.

Lemma keeps_update_session sid kwargs :
  keeps_lifetimes (update_session clock sid kwargs).
Proof.
  intros w. destruct (sessions w !! sid) as [s|] eqn:Hs.
  - rewrite (update_session_present clock sid kwargs w s Hs).
    destruct (setattr_session_lifetime s kwargs) as [He Hc].
    by_insert Hs.
  - rewrite (update_session_missing clock sid kwargs w Hs).
    by apply same_lifetimes_sessions.
Qed.

(** What [get_session] leaves behind, in its three cases. *)
Lemma get_session_cases sid w :
  (get_session clock sid w).1 = None
    ∧ same_lifetimes w (get_session clock sid w).2
  ∨ ∃ s s', sessions w !! sid = Some s
      ∧ clock (ticks w) ≤ expires_at s
      ∧ s' = set_updated_at s (clock (S (ticks w)))
      ∧ get_session clock sid w
        = (Some s', with_sessions (<[sid := s']>) (tick (tick w))).
Proof.
  destruct (sessions w !! sid) as [s|] eqn:Hs.
  - destruct (Z.lt_ge_cases (expires_at s) (clock (ticks w))) as [Hexp|Hlive].
    + left. rewrite (get_session_expired clock sid w s Hs Hexp).
      split; [reflexivity|]. by apply (same_lifetimes_delete _ _ sid).
    + right. exists s, (set_updated_at s (clock (S (ticks w)))).
      split; [reflexivity|]. split; [exact Hlive|]. split; [reflexivity|].
      apply (get_session_live clock sid w s Hs Hlive).
  - left. rewrite (get_session_missing clock sid w Hs).
    split; [reflexivity|]. by apply same_lifetimes_sessions.
Qed.

Lemma keeps_update_order_data sid kwargs :
  keeps_lifetimes (update_order_data clock sid kwargs).
Proof.
  intros w. unfold update_order_data.
  destruct (get_session_cases sid w)
    as [[Hnone Hkeep]|(s & s' & Hs & Hlive & -> & Hget)].
  - unfold bind. destruct (get_session clock sid w) as [r w1].
    cbn [fst snd] in *. subst r. exact Hkeep.
  - rewrite (bind_eq _ _ _ _ _ Hget). cbn [order_data set_updated_at].
    destruct (order_data s) as [o|]; [|by_insert Hs].
    eapply (same_lifetimes_trans _
              (with_sessions
                 (<[sid := set_updated_at s (clock (S (ticks w)))]>)
                 (tick (tick w)))); [by_insert Hs|].
    eapply (same_lifetimes_insert _ _ sid);
      [cbn [with_sessions sessions tick]; apply lookup_insert_eq
      | | |reflexivity]; reflexivity.
Qed.

Lemma keeps_add_message_to_history sid role content :
  keeps_lifetimes (add_message_to_history clock sid role content).
Proof.
  intros w. unfold add_message_to_history, bind, get_sessions.
  destruct (sessions w !! sid) as [s|] eqn:Hs.
  - by_insert Hs.
  - by apply same_lifetimes_sessions.
Qed.

Lemma keeps_set_context sid key v :
  keeps_lifetimes (set_context clock sid key v).
Proof.
  intros w. unfold set_context.
  destruct (get_session_cases sid w)
    as [[Hnone Hkeep]|(s & s' & Hs & Hlive & -> & Hget)].
  - unfold bind. destruct (get_session clock sid w) as [r w1].
    cbn [fst snd] in *. subst r. exact Hkeep.
  - rewrite (bind_eq _ _ _ _ _ Hget).
    eapply (same_lifetimes_trans _
              (with_sessions
                 (<[sid := set_updated_at s (clock (S (ticks w)))]>)
                 (tick (tick w)))); [by_insert Hs|].
    eapply (same_lifetimes_insert _ _ sid);
      [cbn [with_sessions sessions tick]; apply lookup_insert_eq
      | | |reflexivity]; reflexivity.
Qed.

Lemma keeps_for_each {A} (l : list A) (body : A → M unit) :
  (∀ x, keeps_lifetimes (body x)) → keeps_lifetimes (for_each l body).
Proof.
  intros Hbody. induction l as [|x l IH]; [apply keeps_ret|].
  cbn [for_each]. apply keeps_bind; [apply Hbody|]. intros _. exact IH.
Qed.

Lemma keeps_cleanup_expired_sessions :
  keeps_lifetimes (cleanup_expired_sessions clock).
Proof.
  unfold cleanup_expired_sessions. apply keeps_bind; [apply keeps_now|].
  intros t w. destruct (_ <? _); [by apply same_lifetimes_sessions|].
  unfold bind at 1.
  pose proof (keeps_for_each
                (filter (λ kv, expires_at kv.2 < t) (map_to_list (sessions w)))
                (λ kv, bind (delete_session kv.1) (λ _, ret tt))) as Hloop.
  specialize (Hloop (λ kv, keeps_bind _ _ (keeps_delete_session kv.1)
                             (λ _, keeps_ret tt)) w).
  destruct (for_each _ _ w) as [u w1]. cbn [snd] in *. exact Hloop.
Qed.

End Lifetimes.

Create HintDb lifetimes.

#[local] Hint Resolve keeps_ret keeps_now keeps_get_sessions
  keeps_get_session keeps_update_session keeps_update_order_data
  keeps_delete_session : lifetimes.


(** ** Expiry is checked on reading only *)

(** X4. [update_session] does not look at the expiry: [set_order_state]
    on a stored session answers [True] and writes the state whether or
    not the session has expired.  When it has, the state just written is
    never seen: the next [get_order_state] finds the session expired,
    deletes it and answers NONE. *)
Theorem set_order_state_ignores_expiry clock w sid s state :
  sessions w !! sid = Some s →
  (expires_at s < clock (S (ticks w)))%Z →
  let written := set_order_state clock sid state w in
  let read := get_order_state clock sid written.2 in
  written.1 = true
  ∧ order_state <$> sessions written.2 !! sid = Some state
  ∧ read.1 = NONE
  ∧ sessions read.2 !! sid = None.
Proof.
  intros Hs Hexp. cbv zeta. unfold set_order_state.
  rewrite (update_session_present clock sid _ w s Hs). cbn [fst snd].
  split; [reflexivity|]. split.
  { cbn [with_sessions sessions tick]. by rewrite lookup_insert_eq. }
  unfold get_order_state.
  erewrite bind_eq;
    [|eapply get_session_expired;
      [cbn [with_sessions sessions tick]; apply lookup_insert_eq
      |cbn [expires_at set_updated_at foldl setattr_session with_sessions
            ticks tick]; exact Hexp]].
  split; [reflexivity|].
  cbn [ret snd with_sessions sessions tick]. apply lookup_delete_eq.
Qed.

Lemma set_order_state_ignores_expiry_witness :
  let written := set_order_state late_clock "s1" WAITING_QUANTITY
                   (sample_store NONE None) in
  let read := get_order_state late_clock "s1" written.2 in
  written.1 = true
  ∧ order_state <$> sessions written.2 !! "s1"%string = Some WAITING_QUANTITY
  ∧ read.1 = NONE
  ∧ sessions read.2 !! "s1"%string = None.
Proof.
  apply (set_order_state_ignores_expiry late_clock (sample_store NONE None)
           "s1" (sample_session NONE None) WAITING_QUANTITY);
    reflexivity.
Defined.

(** ** The conversation history *)

Section HistoryFacts.
Variable clock : nat → time.

Local Open Scope Z_scope.

Lemma length_py_last {A} (n : nat) (l : list A) :
  length (py_last n l) = (length l `min` n)%nat.
Proof. unfold py_last. rewrite length_drop. lia. Qed.

Lemma py_last_suffix {A} (n : nat) (l : list A) : py_last n l `suffix_of` l.
Proof. apply suffix_drop. Qed.

Lemma py_last_all {A} (n : nat) (l : list A) :
  (length l ≤ n)%nat → py_last n l = l.
Proof.
  intros Hn. unfold py_last. by replace (length l - n)%nat with 0%nat by lia.
Qed.

Lemma last_py_last {A} (n : nat) (l : list A) :
  (0 < n)%nat → last (py_last n l) = last l.
Proof.
  intros Hn. unfold py_last.
  destruct (decide (l = [])) as [->|Hne]; [reflexivity|].
  rewrite !last_lookup, length_drop, lookup_drop. f_equal.
  assert (0 < length l)%nat by (destruct l; simpl; [done|lia]). lia.
Qed.

(** The history after one more message. *)
Definition appended (h : list HistoryMessage) (m : HistoryMessage)
    : list HistoryMessage :=
  if (50 <? length (h ++ [m]))%nat then py_last 50 (h ++ [m]) else h ++ [m].

Lemma appended_last_50 h m : appended h m = py_last 50 (h ++ [m]).
Proof.
  unfold appended. destruct (Nat.ltb_spec 50 (length (h ++ [m]))); [done|].
  by rewrite py_last_all.
Qed.

Lemma add_message_to_history_present sid role content w s :
  sessions w !! sid = Some s →
  add_message_to_history clock sid role content w
  = (true,
     with_sessions
       (<[sid := set_updated_at
                   (set_conversation_history s
                      (appended (conversation_history s)
                         (mkHistoryMessage role content (clock (ticks w)))))
                   (clock (S (ticks w)))]>)
       (tick (tick w))).
Proof.
  intros Hs. unfold add_message_to_history, bind, get_sessions.
  by rewrite Hs.
Qed.

Lemma add_message_to_history_missing sid role content w :
  sessions w !! sid = None →
  add_message_to_history clock sid role content w = (false, w).
Proof.
  intros Hs. unfold add_message_to_history, bind, get_sessions.
  by rewrite Hs.
Qed.

End HistoryFacts.

(** X5. [add_message_to_history] on a stored session appends the message,
    stamped with the time of the call, and keeps the last 50 entries: the
    new history is the 50-element tail of the old one followed by the
    message, the message is its last entry and it never has more than 50
    entries.  Nothing else of the session changes but [updated_at].  For
    an unknown session the call answers [False] and changes nothing. *)
Theorem add_message_to_history_keeps_last_50 clock w sid role content :
  let res := add_message_to_history clock sid role content w in
  let message := mkHistoryMessage role content (clock (ticks w)) in
  match sessions w !! sid with
  | None => res = (false, w)
  | Some s =>
    res.1 = true
    ∧ ∃ s', sessions res.2 !! sid = Some s'
        ∧ conversation_history s'
          = py_last 50 (conversation_history s ++ [message])
        ∧ last (conversation_history s') = Some message
        ∧ (length (conversation_history s') ≤ 50)%nat
        ∧ (length (conversation_history s) < 50 →
           conversation_history s' = conversation_history s ++ [message])%nat
        ∧ order_state s' = order_state s
        ∧ order_data s' = order_data s
        ∧ session_context s' = session_context s
        ∧ expires_at s' = expires_at s
  end.
Proof.
  cbv zeta. destruct (sessions w !! sid) as [s|] eqn:Hs.
  - rewrite (add_message_to_history_present clock sid role content w s Hs).
    cbn [fst snd]. split; [reflexivity|].
    eexists. split; [cbn [with_sessions sessions tick]; apply lookup_insert_eq|].
    cbn [conversation_history set_updated_at set_conversation_history
         order_state order_data session_context expires_at].
    rewrite appended_last_50.
    split; [reflexivity|]. split.
    { rewrite last_py_last by lia. apply last_snoc. }
    split; [rewrite length_py_last; lia|].
    split; [|repeat split].
    intros Hlen. apply py_last_all. rewrite length_app. simpl. lia.
  - apply add_message_to_history_missing, Hs.
Qed.

(** X6. [get_conversation_history] on a stored session that has not
    expired returns the last [limit] messages of its history (all of them
    when there are fewer) for a positive [limit], and the whole history
    for [limit <= 0]; on an unknown or expired session it returns the
    empty list.  After [add_message_to_history], a [limit] of 1 returns
    exactly the message added. *)
Theorem get_conversation_history_returns_tail clock w sid limit :
  let res := get_conversation_history clock sid limit w in
  (∀ s, sessions w !! sid = Some s →
        (clock (ticks w) ≤ expires_at s)%Z →
        res.1 = (if (0 <? limit)%Z
                 then py_last (Z.to_nat limit) (conversation_history s)
                 else conversation_history s)
        ∧ res.1 `suffix_of` conversation_history s
        ∧ ((0 < limit)%Z →
           length res.1
           = (length (conversation_history s) `min` Z.to_nat limit)%nat))
  ∧ (sessions w !! sid = None → res.1 = [])
  ∧ (∀ s, sessions w !! sid = Some s →
          (expires_at s < clock (ticks w))%Z → res.1 = [])
  ∧ (∀ s role content,
       sessions w !! sid = Some s →
       (clock (2 + ticks w)%nat ≤ expires_at s)%Z →
       let added := add_message_to_history clock sid role content w in
       (get_conversation_history clock sid 1 added.2).1
       = [mkHistoryMessage role content (clock (ticks w))]).
Proof.
  cbv zeta. split; [|split; [|split]].
  - intros s Hs Hlive. unfold get_conversation_history.
    rewrite (bind_eq _ _ _ _ _ (get_session_live clock sid w s Hs Hlive)).
    cbn [ret fst conversation_history set_updated_at].
    split; [reflexivity|]. split.
    + destruct (0 <? limit)%Z; [apply py_last_suffix|done].
    + intros Hpos. replace (0 <? limit)%Z with true
        by (symmetry; by apply Z.ltb_lt).
      apply length_py_last.
  - intros Hs. unfold get_conversation_history.
    by rewrite (bind_eq _ _ _ _ _ (get_session_missing clock sid w Hs)).
  - intros s Hs Hexp. unfold get_conversation_history.
    by rewrite (bind_eq _ _ _ _ _ (get_session_expired clock sid w s Hs Hexp)).
  - intros s role content Hs Hlive.
    rewrite (add_message_to_history_present clock sid role content w s Hs).
    cbn [snd]. unfold get_conversation_history.
    erewrite bind_eq;
      [|eapply get_session_live;
        [cbn [with_sessions sessions tick]; apply lookup_insert_eq
        |cbn [expires_at set_updated_at set_conversation_history
              with_sessions ticks tick]; exact Hlive]].
    cbn [ret fst conversation_history set_updated_at set_conversation_history].
    change (0 <? 1)%Z with true. cbv iota. change (Z.to_nat 1) with 1%nat.
    rewrite appended_last_50.
    set (h := py_last 50 _).
    assert (Hlast : last h = Some (mkHistoryMessage role content (clock (ticks w)))).
    { unfold h. rewrite last_py_last by lia. apply last_snoc. }
    clearbody h. unfold py_last.
    destruct h as [|x h _] using rev_ind; [discriminate|].
    rewrite last_snoc in Hlast. injection Hlast as ->.
    rewrite length_app. simpl.
    replace (length h + 1 - 1)%nat with (length h) by lia.
    by rewrite drop_app_length.
Qed.

Lemma get_conversation_history_returns_tail_witness :
  (get_conversation_history sample_clock "s1" 1
     (add_message_to_history sample_clock "s1" "user" (utf8 "xin chào")
        (sample_store NONE None)).2).1
  = [mkHistoryMessage "user" (utf8 "xin chào")
       (sample_clock (ticks (sample_store NONE None)))].
Proof.
  apply (proj2 (proj2 (proj2
           (get_conversation_history_returns_tail sample_clock
              (sample_store NONE None) "s1" 1)))
           (sample_session NONE None) "user"%string (utf8 "xin chào")).
  - reflexivity.
  - vm_compute. discriminate.
Defined.

(** ** The session context *)

(** X7. On a stored session that does not expire in between,
    [get_context] after [set_context] returns the value just set for that
    key, and for any other key what it returned before, the default
    included; [set_context] changes neither the order state nor the
    draft. *)
Theorem set_context_then_get_context clock w sid s key v :
  sessions w !! sid = Some s →
  (∀ n, (ticks w ≤ n)%nat → (clock n ≤ expires_at s)%Z) →
  let set := set_context clock sid key v w in
  set.1 = true
  ∧ (∀ default, (get_context clock sid key default set.2).1 = Some v)
  ∧ (∀ key' default,
       key' ≠ key →
       (get_context clock sid key' default set.2).1
       = (get_context clock sid key' default w).1)
  ∧ ∃ s', sessions set.2 !! sid = Some s'
          ∧ order_state s' = order_state s
          ∧ order_data s' = order_data s.
Proof.
  intros Hs Hlive. cbv zeta.
  assert (Hset : set_context clock sid key v w
    = (true,
       with_sessions
         (<[sid := set_updated_at
                     (setattr_session
                        (set_updated_at s (clock (S (ticks w))))
                        (Set_context (<[key := v]> (session_context s))))
                     (clock (2 + ticks w)%nat)]>)
         (tick (tick (tick w))))).
  { unfold set_context.
    rewrite (bind_eq _ _ _ _ _
               (get_session_live clock sid w s Hs (Hlive _ (le_n _)))).
    unfold bind, now, modify_sessions, ret, with_sessions, tick.
    cbn [sessions session_timeout cleanup_interval last_cleanup ticks
         session_context set_updated_at].
    by rewrite insert_insert_eq. }
  rewrite Hset. cbn [fst snd]. split; [reflexivity|].
  assert (Hget : ∀ k default,
    (get_context clock sid k default
       (with_sessions
          (<[sid := set_updated_at
                      (setattr_session
                         (set_updated_at s (clock (S (ticks w))))
                         (Set_context (<[key := v]> (session_context s))))
                      (clock (2 + ticks w)%nat)]>)
          (tick (tick (tick w))))).1
    = match <[key := v]> (session_context s) !! k with
      | Some x => Some x
      | None => default
      end).
  { intros k default. unfold get_context.
    erewrite bind_eq;
      [|eapply get_session_live;
        [cbn [with_sessions sessions tick]; apply lookup_insert_eq
        |cbn [expires_at set_updated_at setattr_session with_sessions ticks
              tick]; apply Hlive; lia]].
    reflexivity. }
  split; [|split].
  - intros default. by rewrite Hget, lookup_insert_eq.
  - intros key' default Hne. rewrite Hget, lookup_insert_ne by done.
    unfold get_context.
    by rewrite (bind_eq _ _ _ _ _
                  (get_session_live clock sid w s Hs (Hlive _ (le_n _)))).
  - eexists. split; [cbn [with_sessions sessions tick]; apply lookup_insert_eq|].
    split; reflexivity.
Qed.

Lemma set_context_then_get_context_witness :
  let set := set_context sample_clock "s1" "topic" (VStr (utf8 "fiction"))
               (sample_store NONE None) in
  set.1 = true
  ∧ (∀ default,
       (get_context sample_clock "s1" "topic" default set.2).1
       = Some (VStr (utf8 "fiction")))
  ∧ (∀ key' default,
       key' ≠ "topic"%string →
       (get_context sample_clock "s1" key' default set.2).1
       = (get_context sample_clock "s1" key' default
            (sample_store NONE None)).1)
  ∧ ∃ s', sessions set.2 !! "s1"%string = Some s'
          ∧ order_state s' = order_state (sample_session NONE None)
          ∧ order_data s' = order_data (sample_session NONE None).
Proof.
  apply (set_context_then_get_context sample_clock (sample_store NONE None)
           "s1" (sample_session NONE None) "topic" (VStr (utf8 "fiction"))).
  - reflexivity.
  - intros n _. vm_compute. discriminate.
Defined.

(** X8. After [clear_context] on a stored session, [get_context] answers
    the default for every key (while the session has not expired), and
    the order state and the draft are as before; [get_context] on an
    unknown session answers the default too. *)
Theorem clear_context_forgets_every_key clock w sid key default :
  (∀ s, sessions w !! sid = Some s →
        (clock (S (ticks w)) ≤ expires_at s)%Z →
        let cleared := clear_context clock sid w in
        cleared.1 = true
        ∧ (get_context clock sid key default cleared.2).1 = default
        ∧ ∃ s', sessions cleared.2 !! sid = Some s'
                ∧ session_context s' = ∅
                ∧ order_state s' = order_state s
                ∧ order_data s' = order_data s)
  ∧ (sessions w !! sid = None →
     clear_context clock sid w = (false, w)
     ∧ (get_context clock sid key default w).1 = default).
Proof.
  split.
  - intros s Hs Hlive. cbv zeta. unfold clear_context.
    rewrite (update_session_present clock sid _ w s Hs). cbn [fst snd].
    split; [reflexivity|]. split.
    + unfold get_context.
      erewrite bind_eq;
        [|eapply get_session_live;
          [cbn [with_sessions sessions tick]; apply lookup_insert_eq
          |cbn [expires_at set_updated_at foldl setattr_session with_sessions
                ticks tick]; exact Hlive]].
      cbn [ret fst session_context set_updated_at foldl setattr_session].
      by rewrite lookup_empty.
    + eexists.
      split; [cbn [with_sessions sessions tick]; apply lookup_insert_eq|].
      repeat split.
  - intros Hs. split.
    + unfold clear_context. apply update_session_missing, Hs.
    + unfold get_context.
      by rewrite (bind_eq _ _ _ _ _ (get_session_missing clock sid w Hs)).
Qed.

Lemma clear_context_forgets_every_key_witness :
  let cleared := clear_context sample_clock "s1" (sample_store NONE None) in
  cleared.1 = true
  ∧ (get_context sample_clock "s1" "topic" None cleared.2).1 = None
  ∧ ∃ s', sessions cleared.2 !! "s1"%string = Some s'
          ∧ session_context s' = ∅
          ∧ order_state s' = order_state (sample_session NONE None)
          ∧ order_data s' = order_data (sample_session NONE None).
Proof.
  apply (proj1 (clear_context_forgets_every_key sample_clock
                  (sample_store NONE None) "s1" "topic" None)
           (sample_session NONE None)).
  - reflexivity.
  - vm_compute. discriminate.
Defined.

(** ** The later steps of the order flow *)

Section FlowFacts.
Variable clock : nat → time.

Local Open Scope Z_scope.

Lemma process_address_phone_holds sid addr ph w st o expiry :
  holds w sid st (Some o) expiry →
  (∀ n, (ticks w ≤ n)%nat → clock n ≤ expiry) →
  ∃ r w' o', process_address_phone clock sid addr ph w = (r, w')
    ∧ o' = set_order_updated_at
             (foldl setattr_order o [Set_address addr; Set_phone ph])
             (clock (2 + ticks w)%nat)
    ∧ r = mkFlowResult "success"
            (utf8 "Xác nhận đặt: '" ++ book_title o'
               ++ utf8 "', SL: " ++ py_str_int (quantity o')
               ++ utf8 ", Địa chỉ: " ++ address o'
               ++ utf8 ", SĐT: " ++ phone o'
               ++ utf8 ". Tổng: " ++ _format_currency (total_price o')
               ++ utf8 ". Trả lời 'có' để xác nhận hoặc 'không' để hủy.")
            (Some o') None
    ∧ holds w' sid CONFIRMING_ORDER (Some o') expiry
    ∧ ticks w' = (7 + ticks w)%nat.
Proof.
  intros (s & Hs & Hst & Ho & He) Hlive. subst expiry.
  unfold process_address_phone.
  destruct (update_order_data_live clock sid
              [Set_address addr; Set_phone ph] w s o Hs Ho)
    as (w1 & Hw1 & (s1 & Hs1 & Hst1 & Ho1 & He1) & Ht1); [by apply Hlive|].
  rewrite (bind_eq _ _ _ _ _ Hw1). cbn [negb].
  unfold set_order_state.
  rewrite (bind_eq _ _ _ _ _ (update_session_present clock sid _ w1 s1 Hs1)).
  erewrite bind_eq;
    [|eapply get_order_data_live;
      [cbn [with_sessions sessions tick]; apply lookup_insert_eq
      |cbn [expires_at set_updated_at foldl setattr_session with_sessions
            ticks tick]; rewrite He1; apply Hlive; lia]].
  cbn [order_data set_updated_at foldl setattr_session]. rewrite Ho1.
  eexists _, _, _. split; [reflexivity|]. split; [reflexivity|].
  split; [reflexivity|]. split.
  - eexists. split; [cbn [with_sessions sessions tick]; apply lookup_insert_eq|].
    cbn [order_state order_data expires_at set_updated_at setattr_session].
    split; [reflexivity|]. split; [reflexivity|exact He1].
  - cbn [with_sessions ticks tick]. lia.
Qed.

Lemma confirm_order_holds sid w st o expiry :
  holds w sid st o expiry →
  ∃ w', confirm_order clock sid true w
        = (mkFlowResult "success"
             (utf8 "Đơn hàng đã được xác nhận. Đang xử lý...")
             None (Some "process_order"%string), w')
    ∧ holds w' sid PROCESSING_ORDER o expiry
    ∧ ticks w' = S (ticks w).
Proof.
  intros (s & Hs & Hst & Ho & He). unfold confirm_order, set_order_state.
  rewrite (bind_eq _ _ _ _ _ (update_session_present clock sid _ w s Hs)).
  eexists. split; [reflexivity|]. split; [|reflexivity].
  eexists. split; [cbn [with_sessions sessions tick]; apply lookup_insert_eq|].
  done.
Qed.

Lemma complete_order_holds sid success msg w st o expiry :
  holds w sid st o expiry →
  ∃ w', complete_order clock sid success msg w
        = (mkFlowResult (if success then "success" else "error")
             (default (if success
                       then utf8 "Đơn hàng đã được tạo thành công."
                       else utf8 "Có lỗi xảy ra khi tạo đơn hàng.") msg)
             None
             (Some (if success then "order_completed"
                    else "order_failed")%string), w')
    ∧ holds w' sid (if success then ORDER_COMPLETED else ORDER_CANCELLED)
            o expiry
    ∧ ticks w' = S (ticks w).
Proof.
  intros (s & Hs & Hst & Ho & He). unfold complete_order, set_order_state.
  destruct success;
    rewrite (bind_eq _ _ _ _ _ (update_session_present clock sid _ w s Hs));
    (eexists; split; [reflexivity|]; split; [|reflexivity];
     eexists; split;
       [cbn [with_sessions sessions tick]; apply lookup_insert_eq|done]).
Qed.

Lemma get_order_summary_holds sid w st o expiry :
  holds w sid st (Some o) expiry →
  clock (ticks w) ≤ expiry →
  clock (2 + ticks w)%nat ≤ expiry →
  (get_order_summary clock sid w).1
  = Some (mkOrderSummary (book_title o) (quantity o) (price o)
            (total_price o) (address o) (phone o) (order_state_value st)).
Proof.
  intros (s & Hs & Hst & Ho & He) Hl1 Hl2. subst expiry.
  unfold get_order_summary.
  rewrite (bind_eq _ _ _ _ _ (get_order_data_live clock sid w s Hs Hl1)).
  rewrite Ho. unfold get_order_state.
  erewrite bind_eq;
    [|erewrite bind_eq;
       [reflexivity
       |eapply get_session_live;
         [cbn [with_sessions sessions tick]; apply lookup_insert_eq
         |cbn [expires_at set_updated_at with_sessions ticks tick];
          exact Hl2]]].
  cbn [ret fst order_state set_updated_at]. by rewrite Hst.
Qed.

Lemma start_order_missing sid book w :
  sessions w !! sid = None →
  ∃ r, start_order clock sid book w = (r, tick (tick w))
       ∧ status r = "success"%string.
Proof.
  intros Hs. unfold start_order. cbv zeta.
  unfold bind at 1. cbn [now]. unfold bind at 1. cbn [now ticks].
  unfold set_order_data, set_order_state.
  rewrite (bind_eq _ _ _ _ _
             (update_session_missing clock sid _ (tick (tick w)) Hs)).
  rewrite (bind_eq _ _ _ _ _
             (update_session_missing clock sid _ (tick (tick w)) Hs)).
  eexists. split; reflexivity.
Qed.

Lemma update_order_data_missing sid kwargs w :
  sessions w !! sid = None →
  update_order_data clock sid kwargs w = (false, w).
Proof.
  intros Hs. unfold update_order_data.
  by rewrite (bind_eq _ _ _ _ _ (get_session_missing clock sid w Hs)).
Qed.

(** [process_quantity] on a live draft, with the clock readings it
    takes. *)
Lemma process_quantity_steps sid q w st o expiry :
  holds w sid st (Some o) expiry →
  (∀ n, (ticks w ≤ n)%nat → clock n ≤ expiry) →
  ∃ r w' o', process_quantity clock sid q w = (r, w')
    ∧ holds w' sid WAITING_ADDRESS_PHONE (Some o') expiry
    ∧ book_id o' = book_id o ∧ book_title o' = book_title o
    ∧ price o' = price o ∧ quantity o' = q
    ∧ total_price o' = price o * q
    ∧ address o' = address o ∧ phone o' = phone o
    ∧ ticks w' = (11 + ticks w)%nat.
Proof.
  intros (s & Hs & Hst & Ho & He) Hlive. subst expiry.
  unfold process_quantity.
  destruct (update_order_data_live clock sid [Set_quantity q] w s o Hs Ho)
    as (w1 & Hw1 & (s1 & Hs1 & Hst1 & Ho1 & He1) & Ht1); [by apply Hlive|].
  rewrite (bind_eq _ _ _ _ _ Hw1). cbn [negb].
  assert (Hl1 : clock (ticks w1) ≤ expires_at s1).
  { rewrite He1. apply Hlive. lia. }
  rewrite (bind_eq _ _ _ _ _ (get_order_data_live clock sid w1 s1 Hs1 Hl1)).
  rewrite Ho1.
  set (s2 := set_updated_at s1 (clock (S (ticks w1)))).
  set (w2 := with_sessions (<[sid := s2]>) (tick (tick w1))).
  assert (Hs2 : sessions w2 !! sid = Some s2) by apply lookup_insert_eq.
  set (o1 := set_order_updated_at _ _) in *.
  destruct (update_order_data_live clock sid
              [Set_total_price (price o1 * q)] w2 s2 o1 Hs2)
    as (w3 & Hw3 & (s3 & Hs3 & Hst3 & Ho3 & He3) & Ht3);
    [exact Ho1| |].
  { cbn [expires_at s2 set_updated_at]. rewrite He1. apply Hlive.
    cbn [ticks w2 with_sessions tick]. lia. }
  rewrite (bind_eq _ _ _ _ _ Hw3).
  unfold set_order_state.
  rewrite (bind_eq _ _ _ _ _ (update_session_present clock sid _ w3 s3 Hs3)).
  unfold bind, get_sessions, ret. cbn [with_sessions sessions tick].
  rewrite lookup_insert_eq.
  eexists _, _, _. split; [reflexivity|]. split.
  - eexists. split; [apply lookup_insert_eq|].
    cbn [foldl setattr_session order_state order_data expires_at
         set_updated_at].
    split; [reflexivity|]. split; [exact Ho3|].
    rewrite He3. unfold s2. cbn [expires_at set_updated_at]. exact He1.
  - unfold o1. repeat split.
    assert (Ht2 : ticks w2 = (2 + ticks w1)%nat) by reflexivity.
    cbn [ticks with_sessions tick]. lia.
Qed.

End FlowFacts.

(** X9. [process_address_phone] on a stored session with a draft, not
    expiring during the call, writes the address and the phone number
    into the draft, leaves its other fields as they are (the stamp
    [updated_at] apart), moves the order state to CONFIRMING_ORDER and
    answers "success" with the draft and a confirmation message that
    quotes title, quantity, address, phone and the formatted total. *)
Theorem process_address_phone_asks_for_confirmation
    clock w sid s o addr ph :
  sessions w !! sid = Some s →
  order_data s = Some o →
  (∀ n, (ticks w ≤ n)%nat → (clock n ≤ expires_at s)%Z) →
  let res := process_address_phone clock sid addr ph w in
  status res.1 = "success"%string
  ∧ message res.1
    = utf8 "Xác nhận đặt: '" ++ book_title o
        ++ utf8 "', SL: " ++ py_str_int (quantity o)
        ++ utf8 ", Địa chỉ: " ++ addr
        ++ utf8 ", SĐT: " ++ ph
        ++ utf8 ". Tổng: " ++ _format_currency (total_price o)
        ++ utf8 ". Trả lời 'có' để xác nhận hoặc 'không' để hủy."
  ∧ ∃ s' o', sessions res.2 !! sid = Some s'
      ∧ order_state s' = CONFIRMING_ORDER
      ∧ order_data s' = Some o'
      ∧ result_order_data res.1 = Some o'
      ∧ address o' = addr ∧ phone o' = ph
      ∧ book_id o' = book_id o ∧ book_title o' = book_title o
      ∧ price o' = price o ∧ quantity o' = quantity o
      ∧ customer_name o' = customer_name o
      ∧ total_price o' = total_price o.
Proof.
  intros Hs Ho Hlive. cbv zeta.
  destruct (process_address_phone_holds clock sid addr ph w (order_state s) o
              (expires_at s))
    as (r & w' & o' & Hr & Ho' & Hres & (s' & Hs' & Hst' & Hod' & _) & _);
    [by exists s|exact Hlive|].
  rewrite Hr. cbn [fst snd]. subst r o'. cbn [status message].
  split; [reflexivity|]. split; [reflexivity|].
  exists s'. eexists. split; [exact Hs'|]. split; [exact Hst'|].
  split; [exact Hod'|]. repeat split.
Qed.

Lemma process_address_phone_asks_for_confirmation_witness :
  status (process_address_phone sample_clock "s1" (utf8 "123 Hà Nội")
            (utf8 "0987654321")
            (sample_store WAITING_ADDRESS_PHONE (Some sample_draft))).1
  = "success"%string.
Proof.
  apply (process_address_phone_asks_for_confirmation sample_clock
           (sample_store WAITING_ADDRESS_PHONE (Some sample_draft)) "s1"
           (sample_session WAITING_ADDRESS_PHONE (Some sample_draft))
           sample_draft (utf8 "123 Hà Nội") (utf8 "0987654321")).
  - reflexivity.
  - reflexivity.
  - intros n _. vm_compute. discriminate.
Defined.

(** X10. The order flow does not check that the session exists.  For an
    unknown session id [start_order] and [confirm_order] still answer
    "success" and [complete_order] answers by the outcome it is given,
    while nothing is stored; [process_quantity] and
    [process_address_phone] answer "error" and leave the manager as it
    was. *)
Theorem order_flow_on_unknown_session clock w sid :
  sessions w !! sid = None →
  (∀ book, let res := start_order clock sid book w in
           status res.1 = "success"%string ∧ sessions res.2 = sessions w)
  ∧ (∀ confirmed,
       let res := confirm_order clock sid confirmed w in
       status res.1 = "success"%string ∧ res.2 = w)
  ∧ (∀ success msg,
       let res := complete_order clock sid success msg w in
       status res.1 = (if success then "success" else "error")%string
       ∧ res.2 = w)
  ∧ (∀ q, process_quantity clock sid q w
          = (mkFlowResult "error" (utf8 "Không thể cập nhật số lượng.")
                          None None, w))
  ∧ (∀ addr ph,
       process_address_phone clock sid addr ph w
       = (mkFlowResult "error"
            (utf8 "Không thể cập nhật thông tin giao hàng.") None None, w)).
Proof.
  intros Hs. split; [|split; [|split; [|split]]].
  - intros book. cbv zeta.
    destruct (start_order_missing clock sid book w Hs) as (r & -> & Hr).
    by split.
  - intros [|]; cbv zeta;
      unfold confirm_order, clear_order_data, set_order_state;
      rewrite (bind_eq _ _ _ _ _ (update_session_missing clock sid _ w Hs));
      split; reflexivity.
  - intros [|] msg; cbv zeta; unfold complete_order, set_order_state;
      rewrite (bind_eq _ _ _ _ _ (update_session_missing clock sid _ w Hs));
      split; reflexivity.
  - intros q. unfold process_quantity.
    by rewrite (bind_eq _ _ _ _ _
                  (update_order_data_missing clock sid _ w Hs)).
  - intros addr ph. unfold process_address_phone.
    by rewrite (bind_eq _ _ _ _ _
                  (update_order_data_missing clock sid _ w Hs)).
Qed.

Lemma order_flow_on_unknown_session_witness :
  process_quantity sample_clock "nobody" 2 (sample_store NONE None)
  = (mkFlowResult "error" (utf8 "Không thể cập nhật số lượng.") None None,
     sample_store NONE None).
Proof.
  apply (proj1 (proj2 (proj2 (proj2
           (order_flow_on_unknown_session sample_clock
              (sample_store NONE None) "nobody" eq_refl)))) 2%Z).
Defined.

(** X11. Without a draft there is nothing to fill in: on a stored session
    whose [order_data] is [None], [process_quantity] and
    [process_address_phone] answer "error", and the session, if it is
    still stored afterwards, has the order state it had and still no
    draft; [get_order_summary] answers [None]. *)
Theorem order_steps_need_a_draft clock w sid s :
  sessions w !! sid = Some s →
  order_data s = None →
  (∀ q, let res := process_quantity clock sid q w in
        res.1 = mkFlowResult "error" (utf8 "Không thể cập nhật số lượng.")
                             None None
        ∧ ∀ s', sessions res.2 !! sid = Some s' →
                order_state s' = order_state s ∧ order_data s' = None)
  ∧ (∀ addr ph,
       let res := process_address_phone clock sid addr ph w in
       res.1 = mkFlowResult "error"
                 (utf8 "Không thể cập nhật thông tin giao hàng.") None None
       ∧ ∀ s', sessions res.2 !! sid = Some s' →
               order_state s' = order_state s ∧ order_data s' = None)
  ∧ (get_order_summary clock sid w).1 = None.
Proof.
  intros Hs Ho.
  assert (Hupd : ∀ kwargs,
    ∃ w1, update_order_data clock sid kwargs w = (false, w1)
      ∧ ∀ s', sessions w1 !! sid = Some s'
              → order_state s' = order_state s ∧ order_data s' = None).
  { intros kwargs. unfold update_order_data.
    destruct (Z.lt_ge_cases (expires_at s) (clock (ticks w))) as [Hexp|Hlive].
    - rewrite (bind_eq _ _ _ _ _ (get_session_expired clock sid w s Hs Hexp)).
      eexists. split; [reflexivity|].
      intros s'. cbn [with_sessions sessions tick].
      by rewrite lookup_delete_eq.
    - rewrite (bind_eq _ _ _ _ _ (get_session_live clock sid w s Hs Hlive)).
      cbn [order_data set_updated_at]. rewrite Ho.
      eexists. split; [reflexivity|].
      intros s'. cbn [with_sessions sessions tick].
      rewrite lookup_insert_eq. intros [= <-]. by split. }
  split; [|split].
  - intros q. cbv zeta. unfold process_quantity.
    destruct (Hupd [Set_quantity q]) as (w1 & Hw1 & Hkeep).
    rewrite (bind_eq _ _ _ _ _ Hw1). by split.
  - intros addr ph. cbv zeta. unfold process_address_phone.
    destruct (Hupd [Set_address addr; Set_phone ph]) as (w1 & Hw1 & Hkeep).
    rewrite (bind_eq _ _ _ _ _ Hw1). by split.
  - unfold get_order_summary, get_order_data.
    destruct (Z.lt_ge_cases (expires_at s) (clock (ticks w))) as [Hexp|Hlive].
    + erewrite bind_eq;
        [|erewrite bind_eq;
           [reflexivity|exact (get_session_expired clock sid w s Hs Hexp)]].
      reflexivity.
    + erewrite bind_eq;
        [|erewrite bind_eq;
           [reflexivity|exact (get_session_live clock sid w s Hs Hlive)]].
      cbn [order_data set_updated_at]. by rewrite Ho.
Qed.

Lemma order_steps_need_a_draft_witness :
  (get_order_summary sample_clock "s1" (sample_store NONE None)).1 = None.
Proof.
  apply (proj2 (proj2 (order_steps_need_a_draft sample_clock
                         (sample_store NONE None) "s1"
                         (sample_session NONE None) eq_refl eq_refl))).
Defined.

(** X12. [confirm_order] with [confirmed = True] moves a stored session
    to PROCESSING_ORDER and asks for the order to be processed;
    [complete_order] then moves it to ORDER_COMPLETED with "success" when
    the order was created and to ORDER_CANCELLED with "error" when it was
    not, answering the message of the outcome or, when there is none, a
    fixed one.  Neither step touches the draft, which stays in the
    session after the order is completed. *)
Theorem confirm_then_complete_order clock w sid s success msg :
  sessions w !! sid = Some s →
  let confirmed := confirm_order clock sid true w in
  let completed := complete_order clock sid success msg confirmed.2 in
  status confirmed.1 = "success"%string
  ∧ action confirmed.1 = Some "process_order"%string
  ∧ (∃ s1, sessions confirmed.2 !! sid = Some s1
           ∧ order_state s1 = PROCESSING_ORDER
           ∧ order_data s1 = order_data s)
  ∧ status completed.1 = (if success then "success" else "error")%string
  ∧ action completed.1
    = Some (if success then "order_completed" else "order_failed")%string
  ∧ message completed.1
    = default (if success then utf8 "Đơn hàng đã được tạo thành công."
               else utf8 "Có lỗi xảy ra khi tạo đơn hàng.") msg
  ∧ ∃ s2, sessions completed.2 !! sid = Some s2
          ∧ order_state s2
            = (if success then ORDER_COMPLETED else ORDER_CANCELLED)
          ∧ order_data s2 = order_data s.
Proof.
  intros Hs. cbv zeta.
  destruct (confirm_order_holds clock sid w (order_state s) (order_data s)
              (expires_at s))
    as (w1 & Hw1 & Hh1 & _); [by exists s|].
  rewrite Hw1. cbn [fst snd status action].
  split; [reflexivity|]. split; [reflexivity|]. split.
  { destruct Hh1 as (s1 & Hs1 & Hst1 & Ho1 & _). by exists s1. }
  destruct (complete_order_holds clock sid success msg w1 _ _ _ Hh1)
    as (w2 & Hw2 & (s2 & Hs2 & Hst2 & Ho2 & _) & _).
  rewrite Hw2. cbn [fst snd status action message].
  split; [reflexivity|]. split; [reflexivity|]. split; [reflexivity|].
  by exists s2.
Qed.

Lemma confirm_then_complete_order_witness :
  let w := sample_store CONFIRMING_ORDER (Some sample_draft) in
  let s := sample_session CONFIRMING_ORDER (Some sample_draft) in
  let confirmed := confirm_order sample_clock "s1" true w in
  let completed := complete_order sample_clock "s1" true None confirmed.2 in
  status confirmed.1 = "success"%string
  ∧ action confirmed.1 = Some "process_order"%string
  ∧ (∃ s1, sessions confirmed.2 !! "s1"%string = Some s1
           ∧ order_state s1 = PROCESSING_ORDER
           ∧ order_data s1 = order_data s)
  ∧ status completed.1 = "success"%string
  ∧ action completed.1 = Some "order_completed"%string
  ∧ message completed.1
    = default (utf8 "Đơn hàng đã được tạo thành công.") None
  ∧ ∃ s2, sessions completed.2 !! "s1"%string = Some s2
          ∧ order_state s2 = ORDER_COMPLETED
          ∧ order_data s2 = order_data s.
Proof.
  intros w s.
  apply (confirm_then_complete_order sample_clock w "s1" s true None).
  reflexivity.
Defined.

(** X13. [get_order_summary] on a stored session with a draft reports the
    title, quantity, unit price, total, address and phone of the draft
    and the value of the order state, provided the session has expired
    at neither of the two readings the call makes.  When it expires
    between them, the summary still carries the draft but reports the
    status "none", and the session is gone. *)
Theorem get_order_summary_reports_the_draft clock w sid s o :
  sessions w !! sid = Some s →
  order_data s = Some o →
  (clock (ticks w) ≤ expires_at s)%Z →
  let res := get_order_summary clock sid w in
  ((clock (2 + ticks w)%nat ≤ expires_at s)%Z →
   res.1 = Some (mkOrderSummary (book_title o) (quantity o) (price o)
                   (total_price o) (address o) (phone o)
                   (order_state_value (order_state s))))
  ∧ ((expires_at s < clock (2 + ticks w)%nat)%Z →
     res.1 = Some (mkOrderSummary (book_title o) (quantity o) (price o)
                     (total_price o) (address o) (phone o) "none")
     ∧ sessions res.2 !! sid = None).
Proof.
  intros Hs Ho Hl1. cbv zeta. split.
  - intros Hl2.
    apply (get_order_summary_holds clock sid w (order_state s) o (expires_at s));
      [by exists s|exact Hl1|exact Hl2].
  - intros Hexp. unfold get_order_summary.
    rewrite (bind_eq _ _ _ _ _ (get_order_data_live clock sid w s Hs Hl1)).
    rewrite Ho. unfold get_order_state.
    erewrite bind_eq;
      [|erewrite bind_eq;
         [reflexivity
         |eapply get_session_expired;
           [cbn [with_sessions sessions tick]; apply lookup_insert_eq
           |cbn [expires_at set_updated_at with_sessions ticks tick];
            exact Hexp]]].
    split; [reflexivity|].
    cbn [ret snd with_sessions sessions tick]. apply lookup_delete_eq.
Qed.

Lemma get_order_summary_reports_the_draft_witness :
  (get_order_summary sample_clock "s1"
     (sample_store WAITING_QUANTITY (Some sample_draft))).1
  = Some (mkOrderSummary (utf8 "Gilead") 1 150000 150000 [] []
            "waiting_quantity").
Proof.
  apply (proj1 (get_order_summary_reports_the_draft sample_clock
                  (sample_store WAITING_QUANTITY (Some sample_draft)) "s1"
                  (sample_session WAITING_QUANTITY (Some sample_draft))
                  sample_draft eq_refl eq_refl
                  ltac:(vm_compute; discriminate))).
  vm_compute. discriminate.
Defined.

(** X14. The whole order, step by step.  On a stored session that does
    not expire on the way, [start_order] for a book of unit price [p],
    [process_quantity] with [q], [process_address_phone],
    [confirm_order] with [True] and [complete_order] with a created order
    end in state ORDER_COMPLETED with a draft that holds quantity [q],
    total [p * q], the address and the phone number given; before the
    confirmation the summary reads the same, with status
    "confirming_order". *)
Theorem order_flow_from_start_to_completion
    clock w sid s book p q addr ph msg :
  sessions w !! sid = Some s →
  bd_price book = Some p →
  (∀ n, (ticks w ≤ n)%nat → (clock n ≤ expires_at s)%Z) →
  let w1 := (start_order clock sid book w).2 in
  let w2 := (process_quantity clock sid q w1).2 in
  let w3 := (process_address_phone clock sid addr ph w2).2 in
  let w4 := (confirm_order clock sid true w3).2 in
  let w5 := (complete_order clock sid true msg w4).2 in
  (get_order_summary clock sid w3).1
  = Some (mkOrderSummary (default [] (bd_title book)) q p (p * q) addr ph
            "confirming_order")
  ∧ ∃ s5 o5, sessions w5 !! sid = Some s5
      ∧ order_state s5 = ORDER_COMPLETED
      ∧ order_data s5 = Some o5
      ∧ book_id o5 = default ""%string (bd_book_id book)
      ∧ book_title o5 = default [] (bd_title book)
      ∧ price o5 = p ∧ quantity o5 = q ∧ total_price o5 = (p * q)%Z
      ∧ address o5 = addr ∧ phone o5 = ph.
Proof.
  intros Hs Hp Hlive. cbv zeta.
  destruct (start_order_holds clock sid book w s Hs)
    as (r1 & w1 & Hw1 & Hh1 & Ht1).
  rewrite Hw1. cbn [snd]. rewrite Hp in Hh1. cbn [default] in Hh1.
  destruct (process_quantity_steps clock sid q w1 _ _ _ Hh1)
    as (r2 & w2 & o2 & Hw2 & Hh2 & Hid2 & Hti2 & Hp2 & Hq2 & Htot2 & Ha2
        & Hph2 & Ht2).
  { intros n Hn. apply Hlive. lia. }
  rewrite Hw2. cbn [snd].
  destruct (process_address_phone_holds clock sid addr ph w2 _ _ _ Hh2)
    as (r3 & w3 & o3 & Hw3 & Ho3 & _ & Hh3 & Ht3).
  { intros n Hn. apply Hlive. lia. }
  rewrite Hw3. cbn [snd].
  cbn [price quantity book_title book_id] in *.
  split.
  - rewrite (get_order_summary_holds clock sid w3 CONFIRMING_ORDER o3
               (expires_at s) Hh3); [|apply Hlive; lia|apply Hlive; lia].
    subst o3.
    cbn [foldl setattr_order set_order_updated_at book_title quantity price
         total_price address phone order_state_value].
    by rewrite Hti2, Hq2, Hp2, Htot2.
  - destruct (confirm_order_holds clock sid w3 _ _ _ Hh3)
      as (w4 & Hw4 & Hh4 & _).
    rewrite Hw4. cbn [snd].
    destruct (complete_order_holds clock sid true msg w4 _ _ _ Hh4)
      as (w5 & Hw5 & (s5 & Hs5 & Hst5 & Ho5 & _) & _).
    rewrite Hw5. cbn [snd].
    exists s5, o3. split; [exact Hs5|]. split; [exact Hst5|].
    split; [exact Ho5|]. subst o3.
    cbn [foldl setattr_order set_order_updated_at book_id book_title quantity
         price total_price address phone].
    rewrite Hid2, Hti2, Hp2, Hq2, Htot2. repeat split.
Qed.

Lemma order_flow_from_start_to_completion_witness :
  let w := sample_store NONE None in
  let book := mkBookData (Some "B001"%string) (Some (utf8 "Gilead"))
                         (Some 150000%Z) in
  let w1 := (start_order sample_clock "s1" book w).2 in
  let w2 := (process_quantity sample_clock "s1" 3 w1).2 in
  let w3 := (process_address_phone sample_clock "s1" (utf8 "123 Hà Nội")
               (utf8 "0987654321") w2).2 in
  (get_order_summary sample_clock "s1" w3).1
  = Some (mkOrderSummary (default [] (bd_title book)) 3 150000 (150000 * 3)
            (utf8 "123 Hà Nội") (utf8 "0987654321") "confirming_order").
Proof.
  intros w book.
  apply (proj1 (order_flow_from_start_to_completion sample_clock w "s1"
                  (sample_session NONE None) book 150000 3
                  (utf8 "123 Hà Nội") (utf8 "0987654321") None
                  eq_refl eq_refl
                  ltac:(intros n _; vm_compute; discriminate))).
Defined.

(** ** Cleaning up and counting *)

Section CleanupFacts.
Variable clock : nat → time.

Local Open Scope Z_scope.

Lemma delete_session_eq sid w :
  ∃ b, delete_session sid w = (b, with_sessions (delete sid) w).
Proof.
  destruct (sessions w !! sid) as [s|] eqn:Hs.
  - exists true. apply (delete_session_present sid w s Hs).
  - exists false. rewrite (delete_session_missing sid w Hs). f_equal.
    destruct w as [ss ? ? ? ?]. unfold with_sessions. cbn in *.
    by rewrite delete_id.
Qed.

Lemma for_each_delete_session (l : list (string * SessionData)) w :
  for_each l (λ kv, bind (delete_session kv.1) (λ _, ret tt)) w
  = (tt, with_sessions (λ m, foldl (λ m kv, delete kv.1 m) m l) w).
Proof.
  revert w. induction l as [|kv l IH]; intros w.
  - by destruct w.
  - cbn [for_each foldl]. unfold bind at 1. unfold bind at 1.
    destruct (delete_session_eq kv.1 w) as [b ->]. unfold ret.
    rewrite IH. by destruct w.
Qed.

Lemma lookup_foldl_delete (l : list (string * SessionData))
    (m : gmap string SessionData) i :
  foldl (λ m kv, delete kv.1 m) m l !! i
  = if bool_decide (i ∈ l.*1) then None else m !! i.
Proof.
  revert m. induction l as [|kv l IH]; intros m; [done|].
  cbn [foldl fmap list_fmap]. rewrite IH.
  destruct (decide (i = kv.1)) as [->|Hne].
  - rewrite lookup_delete_eq. rewrite (bool_decide_true (_ ∈ _ :: _)) by left.
    by case_bool_decide.
  - rewrite lookup_delete_ne by done.
    case_bool_decide as Hi.
    + by rewrite bool_decide_true by (by right).
    + rewrite bool_decide_false; [done|].
      intros [?|?]%elem_of_cons; done.
Qed.

Lemma delete_expired (m : gmap string SessionData) (t : time) :
  foldl (λ m kv, delete kv.1 m) m
        (filter (λ kv, expires_at kv.2 < t) (map_to_list m))
  = filter (λ kv : string * SessionData, t ≤ expires_at kv.2) m.
Proof.
  apply map_eq. intros i. rewrite lookup_foldl_delete.
  destruct (m !! i) as [x|] eqn:Hx.
  - case_bool_decide as Hi.
    + apply list_elem_of_fmap in Hi as ([j y] & -> & Hy).
      apply list_elem_of_filter in Hy as [HP Hy]. cbn [fst snd] in *.
      apply elem_of_map_to_list in Hy. rewrite Hx in Hy. injection Hy as <-.
      symmetry. apply map_lookup_filter_None. right.
      intros x' Hx'. rewrite Hx in Hx'. injection Hx' as <-.
      cbn [snd]. lia.
    + symmetry. apply map_lookup_filter_Some. split; [exact Hx|].
      cbn [snd]. destruct (Z.lt_ge_cases (expires_at x) t) as [Hlt|]; [|done].
      exfalso. apply Hi. apply list_elem_of_fmap. exists (i, x).
      split; [reflexivity|]. apply list_elem_of_filter.
      split; [exact Hlt|]. by apply elem_of_map_to_list.
  - rewrite (proj2 (map_lookup_filter_None _ m i)) by (left; exact Hx).
    by case_bool_decide.
Qed.

Lemma cleanup_expired_sessions_eq w :
  cleanup_expired_sessions clock w
  = (tt,
     if timedelta_seconds (clock (ticks w) - last_cleanup w)
        <? cleanup_interval w
     then tick w
     else with_last_cleanup (clock (ticks w))
            (with_sessions
               (filter (λ kv : string * SessionData,
                          clock (ticks w) ≤ expires_at kv.2))
               (tick w))).
Proof.
  unfold cleanup_expired_sessions. unfold bind at 1. cbn [now].
  change (mkSessionManager (sessions w) (session_timeout w)
            (cleanup_interval w) (last_cleanup w) (S (ticks w)))
    with (tick w).
  cbn [last_cleanup cleanup_interval tick sessions].
  destruct (_ <? _); [reflexivity|].
  unfold bind at 1. rewrite for_each_delete_session.
  f_equal. unfold with_last_cleanup, with_sessions, tick.
  cbn [sessions session_timeout cleanup_interval last_cleanup ticks].
  by rewrite delete_expired.
Qed.

(** The counting loop: both counts grow, the second no faster than the
    first, the first by at most one per session. *)
Lemma count_sessions_counts l active order w :
  let counts := (count_sessions clock l active order w).1 in
  (active ≤ counts.1 ≤ active + length l)%nat
  ∧ (order ≤ counts.2)%nat
  ∧ (counts.2 - order ≤ counts.1 - active)%nat.
Proof.
  revert active order w.
  induction l as [|s l IH]; intros active order w; cbv zeta.
  - simpl. lia.
  - cbn [count_sessions]. unfold bind. cbn [now].
    set (w1 := mkSessionManager _ _ _ _ (S (ticks w))).
    destruct (_ <=? _).
    + case_bool_decide.
      * pose proof (IH (S active) (S order) w1) as IH'. cbv zeta in IH'.
        simpl length. lia.
      * pose proof (IH (S active) order w1) as IH'. cbv zeta in IH'.
        simpl length. lia.
    + pose proof (IH active order w1) as IH'. cbv zeta in IH'.
      simpl length. lia.
Qed.

Lemma count_sessions_sessions l active order w :
  sessions (count_sessions clock l active order w).2 = sessions w.
Proof.
  revert active order w.
  induction l as [|s l IH]; intros a o w; [reflexivity|].
  cbn [count_sessions]. unfold bind. cbn [now].
  destruct (_ <=? _); by rewrite IH.
Qed.

Lemma get_session_statistics_eq w :
  ∃ w1 a o w2,
    cleanup_expired_sessions clock w = (tt, w1)
    ∧ count_sessions clock (snd <$> map_to_list (sessions w1)) 0 0 w1
      = ((a, o), w2)
    ∧ get_session_statistics clock w
      = (mkSessionStatistics (size (sessions w1)) a o
           (Z.of_nat (size (sessions w1)) - Z.of_nat a), w2).
Proof.
  destruct (cleanup_expired_sessions_sessions clock w) as (w1 & Hw1 & _).
  destruct (count_sessions clock (snd <$> map_to_list (sessions w1)) 0 0 w1)
    as [[a o] w2] eqn:Hcount.
  exists w1, a, o, w2. split; [exact Hw1|]. split; [exact Hcount|].
  unfold get_session_statistics.
  rewrite (bind_eq _ _ _ _ _ Hw1).
  unfold bind at 1. unfold get_sessions at 1.
  by rewrite (bind_eq _ _ _ _ _ Hcount).
Qed.

End CleanupFacts.

(** X15. [cleanup_expired_sessions] is throttled by the seconds part of
    the time since the last cleanup.  When that part is below
    [cleanup_interval] the store is left as it is: in particular when a
    whole number of days and fewer than [cleanup_interval] seconds have
    passed.  Otherwise exactly the sessions whose expiry lies before the
    time of the call are removed, the others are kept unchanged, and the
    time of the call becomes [last_cleanup]. *)
Theorem cleanup_expired_sessions_throttled clock w :
  let t := clock (ticks w) in
  let res := cleanup_expired_sessions clock w in
  ((timedelta_seconds (t - last_cleanup w) < cleanup_interval w)%Z →
   sessions res.2 = sessions w ∧ last_cleanup res.2 = last_cleanup w)
  ∧ ((cleanup_interval w ≤ timedelta_seconds (t - last_cleanup w))%Z →
     sessions res.2
     = filter (λ kv : string * SessionData, (t ≤ expires_at kv.2)%Z)
              (sessions w)
     ∧ last_cleanup res.2 = t)
  ∧ (∀ days secs : Z,
       (0 ≤ secs < 86400)%Z →
       (secs < cleanup_interval w)%Z →
       (t - last_cleanup w = seconds (86400 * days + secs))%Z →
       sessions res.2 = sessions w).
Proof.
  cbv zeta. rewrite cleanup_expired_sessions_eq. cbn [snd].
  assert (Hskip :
    (timedelta_seconds (clock (ticks w) - last_cleanup w)
     < cleanup_interval w)%Z →
    sessions (if (timedelta_seconds (clock (ticks w) - last_cleanup w)
                  <? cleanup_interval w)%Z
              then tick w
              else with_last_cleanup (clock (ticks w))
                     (with_sessions
                        (filter (λ kv : string * SessionData,
                                   (clock (ticks w) ≤ expires_at kv.2)%Z))
                        (tick w)))
    = sessions w
    ∧ last_cleanup (if (timedelta_seconds (clock (ticks w) - last_cleanup w)
                        <? cleanup_interval w)%Z
                    then tick w
                    else with_last_cleanup (clock (ticks w))
                           (with_sessions
                              (filter (λ kv : string * SessionData,
                                         (clock (ticks w) ≤ expires_at kv.2)%Z))
                              (tick w)))
      = last_cleanup w).
  { intros Hlt. apply Z.ltb_lt in Hlt. rewrite Hlt. by split. }
  split; [exact Hskip|]. split.
  - intros Hge. apply Z.ltb_ge in Hge. rewrite Hge. by split.
  - intros days secs Hsecs Hint Hdelta. apply Hskip.
    rewrite Hdelta. unfold timedelta_seconds, seconds.
    rewrite Z.div_mul by lia.
    rewrite Z.add_comm, Z.mul_comm, Z.mod_add by lia.
    rewrite Z.mod_small by lia. exact Hint.
Qed.

(** A day and ten seconds after the last cleanup, with the sample
    session long expired, the cleanup does nothing. *)
Lemma cleanup_expired_sessions_throttled_witness :
  sessions (cleanup_expired_sessions (λ _, 86410000000%Z)
              (sample_store NONE None)).2
  = sessions (sample_store NONE None).
Proof.
  apply (proj2 (proj2 (cleanup_expired_sessions_throttled
                         (λ _, 86410000000%Z) (sample_store NONE None)))
           1%Z 10%Z); [lia|vm_compute; reflexivity|reflexivity].
Defined.

(** X16. The figures of [get_session_statistics] are consistent: the
    sessions in an order are among the active ones, the active ones among
    the total, the total is the number of sessions left after the cleanup
    and at most the number stored before the call, and [expired_sessions]
    is the total less the active ones, never negative. *)
Theorem session_statistics_are_consistent clock w :
  let stats := (get_session_statistics clock w).1 in
  let after := (get_session_statistics clock w).2 in
  (order_sessions stats ≤ active_sessions stats)%nat
  ∧ (active_sessions stats ≤ total_sessions stats)%nat
  ∧ total_sessions stats = size (sessions after)
  ∧ (total_sessions stats ≤ size (sessions w))%nat
  ∧ expired_sessions stats
    = (Z.of_nat (total_sessions stats) - Z.of_nat (active_sessions stats))%Z
  ∧ (0 ≤ expired_sessions stats)%Z.
Proof.
  cbv zeta.
  destruct (get_session_statistics_eq clock w)
    as (w1 & a & o & w2 & Hw1 & Hcount & ->).
  destruct (cleanup_expired_sessions_sessions clock w)
    as (w1' & Hw1' & Hsub & _).
  rewrite Hw1 in Hw1'. injection Hw1' as <-.
  pose proof (count_sessions_counts clock
                (snd <$> map_to_list (sessions w1)) 0 0 w1) as Hle.
  pose proof (count_sessions_sessions clock
                (snd <$> map_to_list (sessions w1)) 0 0 w1) as Hsess.
  rewrite Hcount in Hle, Hsess. cbv zeta in Hle. cbn [fst snd] in Hle, Hsess.
  rewrite length_fmap, length_map_to_list in Hle.
  cbn [fst snd order_sessions active_sessions total_sessions
       expired_sessions].
  pose proof (map_subseteq_size _ _ Hsub) as Hsize.
  rewrite Hsess. repeat split; lia.
Qed.

(** ** Amounts of money *)

Section CurrencyFacts.

Definition is_digit (c : N) : Prop := 48 ≤ c ≤ 57.

Lemma string_of_uint_digits (d : Decimal.uint) :
  Forall is_digit (string_bytes (NilEmpty.string_of_uint d)).
Proof.
  induction d; cbn [NilEmpty.string_of_uint string_bytes];
    [constructor|..]; (constructor; [vm_compute; split; discriminate|done]).
Qed.

Lemma py_str_int_digits (z : Z) :
  (0 ≤ z)%Z → Forall is_digit (py_str_int z) ∧ py_str_int z ≠ [].
Proof.
  intros Hz. unfold py_str_int.
  destruct z as [|p|p]; [| |lia].
  - split; [|discriminate].
    constructor; [vm_compute; split; discriminate|constructor].
  - cbn [Z.to_int NilZero.string_of_int].
    assert (Hne : Pos.to_uint p ≠ Decimal.Nil).
    { intros Hnil.
      pose proof (DecimalPos.Unsigned.of_to p) as Hof.
      rewrite Hnil in Hof. discriminate. }
    unfold NilZero.string_of_uint.
    destruct (Pos.to_uint p) as [|d|d|d|d|d|d|d|d|d|d] eqn:Hp; [done|..];
      (split; [apply string_of_uint_digits|discriminate]).
Qed.

Lemma filter_all {A} (P : A → Prop) `{!∀ x, Decision (P x)} (l : list A) :
  (∀ x, x ∈ l → P x) → filter P l = l.
Proof.
  induction l as [|x l IH]; intros HP; [done|].
  rewrite filter_cons, decide_True by (apply HP; left).
  f_equal. apply IH. intros y Hy. apply HP. by right.
Qed.

(** The separators of [group_thousands] stand at every fourth place and
    nowhere else, and the digits between them are the digits given. *)
Lemma group_thousands_spec fuel ds :
  (length ds ≤ fuel)%nat →
  44 ∉ ds →
  let g := group_thousands fuel ds in
  filter (λ c, c ≠ 44) g = ds
  ∧ (∀ i, g !! i = Some 44 ↔ (i < length g)%nat ∧ (i `mod` 4 = 3)%nat)
  ∧ last g = last ds
  ∧ (∀ c, c ∈ g → c = 44 ∨ c ∈ ds).
Proof.
  revert ds. induction fuel as [|fuel IH]; intros ds Hlen Hno; cbv zeta.
  - destruct ds; [|simpl in Hlen; lia]. simpl.
    split; [done|]. split; [|split; [done|]].
    + intros i. rewrite lookup_nil. simpl. split; [done|lia].
    + intros c Hc. by right.
  - assert (Hshort : (length ds ≤ 3)%nat →
      filter (λ c, c ≠ 44) ds = ds
      ∧ (∀ i, ds !! i = Some 44 ↔ (i < length ds)%nat ∧ (i `mod` 4 = 3)%nat)
      ∧ last ds = last ds
      ∧ (∀ c, c ∈ ds → c = 44 ∨ c ∈ ds)).
    { intros Hshort. split; [|split; [|split; [done|by right]]].
      - apply filter_all. intros c Hc ->. done.
      - intros i. split.
        + intros Hi. exfalso. apply Hno. by eapply list_elem_of_lookup_2.
        + intros [Hi Hmod]. rewrite Nat.mod_small in Hmod by lia. lia. }
    destruct ds as [|a [|b [|c [|d rest]]]];
      try (apply Hshort; simpl; lia).
    cbn [group_thousands].
    destruct (IH (d :: rest)) as (Hf & Hdot & Hlast & Hin).
    { simpl in *. lia. }
    { intros Hd. apply Hno. by do 3 right. }
    cbv zeta in Hf, Hdot, Hlast, Hin.
    set (g := group_thousands fuel (d :: rest)) in *.
    assert (Ha : a ≠ 44) by (intros ->; apply Hno; left).
    assert (Hb : b ≠ 44) by (intros ->; apply Hno; right; left).
    assert (Hc : c ≠ 44) by (intros ->; apply Hno; do 2 right; left).
    split; [|split; [|split]].
    + rewrite !filter_cons. rewrite !decide_True by done.
      rewrite decide_False by (intros ?; done). by rewrite Hf.
    + intros i. destruct i as [|[|[|[|j]]]]; cbn [lookup list_lookup length].
      * split; [by intros [= ->]|]. intros [_ H0]. simpl in H0. lia.
      * split; [by intros [= ->]|]. intros [_ H0]. simpl in H0. lia.
      * split; [by intros [= ->]|]. intros [_ H0]. simpl in H0. lia.
      * split; [intros _; split; [lia|reflexivity]|done].
      * change (g !! j = Some 44 ↔
                (S (S (S (S j))) < S (S (S (S (length g)))))%nat
                ∧ (S (S (S (S j))) `mod` 4 = 3)%nat).
        rewrite Hdot.
        replace (S (S (S (S j)))) with (j + 1 * 4)%nat by lia.
        rewrite Nat.Div0.mod_add. split; intros [? ?]; split; lia.
    + assert (Hg : g ≠ []).
      { intros Hg. rewrite Hg in Hf. discriminate. }
      destruct g as [|x g']; [done|].
      change (last (a :: b :: c :: 44 :: x :: g') = last (a :: b :: c :: d :: rest)).
      cbn [last]. cbn [last] in Hlast.
      destruct g'; destruct rest; exact Hlast.
    + intros x [->|[->|[->|[->|Hx]%elem_of_cons]%elem_of_cons]%elem_of_cons]%elem_of_cons.
      * right. left.
      * right. right. left.
      * right. do 2 right. left.
      * by left.
      * destruct (Hin x Hx) as [?|?]; [by left|right; by do 3 right].
Qed.

Lemma replace_char_fmap a b t :
  replace_char a b t = (λ c, if c =? a then b else c) <$> t.
Proof.
  induction t as [|x t IH]; [done|].
  rewrite fmap_cons, <- IH. reflexivity.
Qed.

Lemma filter_replaced (l : text) :
  46 ∉ l →
  filter (λ c, c ≠ 46) ((λ c, if c =? 44 then 46 else c) <$> l)
  = filter (λ c, c ≠ 44) l.
Proof.
  induction l as [|x l IH]; intros Hno; [done|].
  rewrite fmap_cons, !filter_cons.
  rewrite IH by (intros Hl; apply Hno; by right).
  destruct (N.eqb_spec x 44) as [->|Hx].
  - rewrite decide_False by (intros ?; done).
    by rewrite decide_False by (intros ?; done).
  - rewrite decide_True by (intros ->; apply Hno; left).
    by rewrite decide_True by done.
Qed.

End CurrencyFacts.

(** X17. [_format_currency] of a non-negative amount is the decimal
    digits of the amount, in order, with a dot before every group of
    three digits counted from the right, followed by " VND": taking the
    dots out gives the digits back, read from the right the dots stand
    at the places 3, 7, 11, ... and nowhere else, the text does not start
    with a dot and holds no comma. *)
Theorem format_currency_groups_by_three (amount : Z) :
  (0 ≤ amount)%Z →
  ∃ body,
    _format_currency amount = body ++ utf8 " VND"
    ∧ filter (λ c, c ≠ 46) body = py_str_int amount
    ∧ (∀ i, reverse body !! i = Some 46
            ↔ (i < length body)%nat ∧ (i `mod` 4 = 3)%nat)
    ∧ head body ≠ Some 46
    ∧ 44 ∉ body.
Proof.
  intros Hpos. unfold _format_currency, format_grouped.
  replace (amount <? 0)%Z with false by (symmetry; apply Z.ltb_ge; lia).
  rewrite Z.abs_eq by exact Hpos. cbn [app].
  destruct (py_str_int_digits amount Hpos) as [Hdigits Hne].
  set (ds := py_str_int amount) in *.
  assert (Hno : ∀ c, c = 44 ∨ c = 46 → c ∉ ds).
  { intros c Hc Hin. rewrite Forall_forall in Hdigits.
    specialize (Hdigits c Hin). unfold is_digit in Hdigits.
    destruct Hc as [-> | ->]; lia. }
  destruct (group_thousands_spec (length ds) (reverse ds))
    as (Hf & Hdot & Hlast & Hin).
  { by rewrite length_reverse. }
  { rewrite elem_of_reverse. apply Hno. by left. }
  cbv zeta in Hf, Hdot, Hlast, Hin.
  set (g := group_thousands (length ds) (reverse ds)) in *.
  assert (Hg46 : 46 ∉ g).
  { intros H46. destruct (Hin 46 H46) as [?|Hd]; [done|].
    rewrite elem_of_reverse in Hd. exact (Hno 46 (or_intror eq_refl) Hd). }
  eexists. split; [reflexivity|]. rewrite replace_char_fmap.
  split; [|split; [|split]].
  - rewrite filter_replaced by (by rewrite elem_of_reverse).
    rewrite filter_reverse, Hf. apply reverse_involutive.
  - intros i. rewrite <- fmap_reverse, reverse_involutive.
    rewrite length_fmap, length_reverse, <- Hdot, list_lookup_fmap.
    destruct (g !! i) as [x|] eqn:Hx; cbn [fmap option_fmap option_map]; [|done].
    destruct (N.eqb_spec x 44) as [->|Hne44]; [done|].
    split; intros [= ->]; [|done].
    exfalso. apply Hg46. by eapply list_elem_of_lookup_2.
  - rewrite fmap_reverse, head_reverse, fmap_last, Hlast, last_reverse.
    destruct ds as [|d ds']; [done|]. cbn [head fmap option_fmap option_map].
    assert (Hd44 : d ≠ 44)
      by (intros ->; exact (Hno 44 (or_introl eq_refl) (list_elem_of_here _ _))).
    assert (Hd46 : d ≠ 46)
      by (intros ->; exact (Hno 46 (or_intror eq_refl) (list_elem_of_here _ _))).
    destruct (N.eqb_spec d 44); [done|]. by intros [= ->].
  - intros (x & Hx & _)%list_elem_of_fmap.
    destruct (N.eqb_spec x 44); [done|]. by subst x.
Qed.

Lemma format_currency_groups_by_three_witness :
  ∃ body,
    _format_currency 1234567 = body ++ utf8 " VND"
    ∧ filter (λ c, c ≠ 46) body = py_str_int 1234567
    ∧ (∀ i, reverse body !! i = Some 46
            ↔ (i < length body)%nat ∧ (i `mod` 4 = 3)%nat)
    ∧ head body ≠ Some 46
    ∧ 44 ∉ body.
Proof. apply (format_currency_groups_by_three 1234567). lia. Defined.

(** ** Words and spaces *)

Section WordFacts.
Context `{PyUnicode}.

(** A word: not empty, no whitespace in it. *)
Definition is_token (w : text) : Prop :=
  w ≠ [] ∧ ∀ c, c ∈ w → py_isspace c = false.

Lemma split_go_tokens acc t w :
  (∀ c, c ∈ acc → py_isspace c = false) →
  w ∈ split_go acc t → is_token w.
Proof.
  revert acc. induction t as [|c t IH]; intros acc Hacc; cbn [split_go].
  - case_bool_decide as Hnil; [intros Hw; by apply elem_of_nil in Hw|].
    intros ->%list_elem_of_singleton. split.
    + intros Hr. apply Hnil. apply (f_equal reverse) in Hr.
      by rewrite reverse_involutive in Hr.
    + intros x Hx. apply Hacc. by apply elem_of_reverse.
  - destruct (py_isspace c) eqn:Hc.
    + assert (Hnone : ∀ x : N, x ∈ @nil N → py_isspace x = false)
        by (intros x Hx; by apply elem_of_nil in Hx).
      case_bool_decide as Hnil; [by apply IH|].
      intros [->|Hw]%elem_of_cons; [|by apply (IH [])].
      split.
      * intros Hr. apply Hnil. apply (f_equal reverse) in Hr.
        by rewrite reverse_involutive in Hr.
      * intros x Hx. apply Hacc. by apply elem_of_reverse.
    + apply IH. intros x [->|Hx]%elem_of_cons; [exact Hc|by apply Hacc].
Qed.

(** The words [str.split] returns are words. *)
Lemma py_split_tokens t w : w ∈ py_split t → is_token w.
Proof.
  apply split_go_tokens. intros c Hc. by apply elem_of_nil in Hc.
Qed.

Lemma split_go_word acc w rest :
  (∀ c, c ∈ w → py_isspace c = false) →
  split_go acc (w ++ rest) = split_go (reverse w ++ acc) rest.
Proof.
  revert acc. induction w as [|c w IH]; intros acc Hw; [done|].
  cbn [app split_go]. rewrite (Hw c) by left.
  rewrite IH by (intros x Hx; apply Hw; by right).
  by rewrite reverse_cons, <- app_assoc.
Qed.

(** Splitting what was joined with single spaces gives the words back. *)
Lemma py_split_join ws :
  Forall is_token ws → py_split (py_join [32] ws) = ws.
Proof.
  unfold py_split. induction ws as [|w ws IH]; intros Hws; [done|].
  apply Forall_cons in Hws as [[Hne Hw] Hws].
  destruct ws as [|w' ws].
  - cbn [py_join]. rewrite <- (app_nil_r w) at 1.
    rewrite split_go_word by done. cbn [split_go].
    rewrite app_nil_r, bool_decide_false, reverse_involutive; [done|].
    intros Hr. apply Hne. apply (f_equal reverse) in Hr.
    by rewrite reverse_involutive in Hr.
  - change (py_join [32] (w :: w' :: ws))
      with (w ++ 32 :: py_join [32] (w' :: ws)).
    rewrite split_go_word by done. cbn [split_go].
    rewrite py_isspace_SP, app_nil_r, bool_decide_false, reverse_involutive.
    + f_equal. by apply IH.
    + intros Hr. apply Hne. apply (f_equal reverse) in Hr.
      by rewrite reverse_involutive in Hr.
Qed.

End WordFacts.

Section StopwordFacts.
Context `{PyUnicode}.

(** X18. [remove_stopwords] keeps the words of the text that are not
    stop words, in their order, joined by single spaces: splitting its
    result gives exactly those words.  So no stop word is left, and
    removing the stop words a second time changes nothing. *)
Theorem remove_stopwords_keeps_the_other_words (t : text) :
  py_split (remove_stopwords t)
  = filter (λ word, word ∉ stopwords) (py_split t)
  ∧ (∀ w, w ∈ py_split (remove_stopwords t) → w ∉ stopwords)
  ∧ remove_stopwords (remove_stopwords t) = remove_stopwords t.
Proof.
  assert (Hsplit : py_split (remove_stopwords t)
                   = filter (λ word, word ∉ stopwords) (py_split t)).
  { unfold remove_stopwords. cbv zeta. change (utf8 " ") with [32].
    apply py_split_join, Forall_forall. intros w Hw.
    apply list_elem_of_filter in Hw as [_ Hw]. by apply (py_split_tokens t). }
  split; [exact Hsplit|]. split.
  - intros w. rewrite Hsplit. by intros [? _]%list_elem_of_filter.
  - unfold remove_stopwords at 1. cbv zeta. rewrite Hsplit.
    rewrite list_filter_filter.
    unfold remove_stopwords. cbv zeta. f_equal.
    apply list_filter_iff. tauto.
Qed.

End StopwordFacts.

(** ** The shape of a normalised text *)

Section NormalizeShape.
Context `{PyUnicode}.

(** The letters the pattern of [normalize_text] keeps by name. *)
Definition vietnamese_letters : text :=
  utf8 "àáạảãâầấậẩẫăằắặẳẵèéẹẻẽêềếệểễìíịỉĩòóọỏõôồốộổỗơờớợởỡùúụủũưừứựửữỳýỵỷỹđ".

Lemma split_go_nonempty acc t : acc ≠ [] → split_go acc t ≠ [].
Proof.
  revert acc. induction t as [|c t IH]; intros acc Hacc; cbn [split_go].
  - by rewrite bool_decide_false.
  - destruct (py_isspace c); [by rewrite bool_decide_false|].
    by apply IH.
Qed.

Lemma py_join_cons sep w ws :
  ws ≠ [] → py_join sep (w :: ws) = w ++ sep ++ py_join sep ws.
Proof. by destruct ws. Qed.

Lemma tidy_space b t c :
  tidy b t = true → c ∈ t → py_isspace c = true → c = 32.
Proof.
  revert b. induction t as [|x t IH]; intros b Ht Hc Hsp;
    [by apply elem_of_nil in Hc|].
  cbn [tidy] in Ht. apply elem_of_cons in Hc as [->|Hc].
  - rewrite Hsp in Ht. apply andb_true_iff in Ht as [Ht _].
    apply andb_true_iff in Ht as [_ Ht]. by apply N.eqb_eq in Ht.
  - destruct (py_isspace x).
    + apply andb_true_iff in Ht as [_ Ht]. by apply (IH true).
    + by apply (IH false).
Qed.

Lemma kept_char c :
  in_set false true keep_items c = false →
  py_isspace c = true ∨ is_word c = true ∨ c ∈ vietnamese_letters.
Proof.
  unfold in_set. intros Hc.
  destruct (existsb (in_item false c) keep_items) eqn:Hex; [|discriminate].
  clear Hc. apply existsb_exists in Hex as (i & Hi & Hic).
  unfold keep_items in Hi. apply in_inv in Hi as [<-|Hi]; [right; by left|].
  apply in_inv in Hi as [<-|Hi]; [by left|].
  apply in_map_iff in Hi as (l & <- & Hl).
  apply N.eqb_eq in Hic. subst l.
  right. right. apply list_elem_of_In. exact Hl.
Qed.

(** A text with single spaces between its words and none around them
    is its words joined by single spaces. *)
Lemma join_split_go acc t :
  tidy false t = true →
  py_rstrip t = t →
  (acc = [] → head_ok t = true) →
  py_join [32] (split_go acc t) = reverse acc ++ t.
Proof.
  revert acc. induction t as [|c t IH]; intros acc Ht Hr Hhead.
  - cbn [split_go]. rewrite app_nil_r.
    case_bool_decide as Hacc; [by subst acc|done].
  - cbn [split_go]. cbn [tidy] in Ht. cbn [py_rstrip] in Hr.
    destruct (py_isspace c) eqn:Hc.
    + assert (Hacc : acc ≠ []).
      { intros Hacc. specialize (Hhead Hacc). cbn [head_ok] in Hhead.
        by rewrite Hc in Hhead. }
      rewrite bool_decide_false by done.
      apply andb_true_iff in Ht as [Ht Htidy].
      apply andb_true_iff in Ht as [_ Ht]. apply N.eqb_eq in Ht. subst c.
      cbn [andb] in Hr.
      case_bool_decide as Hnil; [discriminate|].
      injection Hr as Hr.
      destruct t as [|x t]; [done|].
      assert (Hx : py_isspace x = false).
      { cbn [tidy] in Htidy. by destruct (py_isspace x). }
      rewrite py_join_cons.
      * rewrite (IH []); [reflexivity| | |].
        -- by apply tidy_weaken.
        -- exact Hr.
        -- intros _. cbn [head_ok]. by rewrite Hx.
      * cbn [split_go]. rewrite Hx. by apply split_go_nonempty.
    + cbn [andb] in Hr. injection Hr as Hr.
      rewrite (IH (c :: acc)); [|exact Ht|exact Hr|done].
      by rewrite reverse_cons, <- app_assoc.
Qed.

(** X19. A normalised text is a sequence of words with one U+0020
    between neighbours and nothing around them: joining its words with
    single spaces gives the text itself.  Each of its characters is
    U+0020, a word character ([\w]) or one of the Vietnamese letters
    the pattern names, and the text is in lower case. *)
Theorem normalize_text_is_words_and_single_spaces (t : text) :
  let r := normalize_text t in
  py_join (utf8 " ") (py_split r) = r
  ∧ (∀ c, c ∈ r → c = 32 ∨ is_word c = true ∨ c ∈ vietnamese_letters)
  ∧ py_lower r = r.
Proof.
  cbv zeta. rewrite normalize_text_unfold.
  case_bool_decide as Ht.
  { split; [reflexivity|]. split; [|apply lower_nil].
    intros c Hc. by apply elem_of_nil in Hc. }
  set (x := py_strip (py_lower t)).
  set (r := py_strip (collapse_spaces (blank_punctuation x))).
  assert (Htidy : tidy false r = true)
    by apply tidy_strip, tidy_collapse_go.
  split; [|split].
  - change (utf8 " ") with [32]. unfold py_split.
    rewrite join_split_go; [reflexivity|exact Htidy| |].
    + unfold r, py_strip. apply rstrip_rstrip.
    + intros _. unfold r, py_strip. apply head_ok_rstrip, head_ok_lstrip.
  - intros c Hc.
    destruct (py_isspace c) eqn:Hsp;
      [left; by apply (tidy_space false r)|].
    apply elem_of_strip, elem_of_collapse_go in Hc as [->|Hc]; [by left|].
    apply elem_of_blank_punctuation, kept_char in Hc.
    destruct Hc as [Hc|Hc]; [congruence|by right].
  - apply py_lower_fixed. intros c Hc.
    apply elem_of_strip, elem_of_collapse_go in Hc as [->|Hc];
      [apply py_lower_SP|].
    apply elem_of_blank_punctuation_inv in Hc as [->|Hc];
      [apply py_lower_SP|].
    apply elem_of_strip in Hc. by apply (py_lower_lowered t).
Qed.

End NormalizeShape.

(** ** Keywords of several words *)

Section SentimentWords.
Context `{PyUnicode}.

Lemma space_not_in_words t k : 32 ∈ k → k ∉ py_split t.
Proof.
  intros Hsp Hk. destruct (py_split_tokens t k Hk) as [_ Hw].
  specialize (Hw 32 Hsp). by rewrite py_isspace_SP in Hw.
Qed.

(** A keyword set counts only through its keywords without a space. *)
Lemma keyword_hit (keywords : gset text) (singles : list text)
    (words : list text) :
  (∀ k, k ∈ keywords → k ∈ singles ∨ 32 ∈ k) →
  (∀ k, 32 ∈ k → k ∉ words) →
  (0 < size ((list_to_set words : gset text) ∩ keywords))%nat →
  ∃ w, w ∈ words ∧ w ∈ singles.
Proof.
  intros Hsingles Hwords Hsize.
  destruct (set_choose_or_empty
              ((list_to_set words : gset text) ∩ keywords))
    as [[w Hw]|Hempty].
  - apply elem_of_intersection in Hw as [Hw Hk].
    apply elem_of_list_to_set in Hw.
    destruct (Hsingles w Hk) as [Hs|Hsp]; [by exists w|].
    by destruct (Hwords w Hsp).
  - apply size_empty_iff in Hempty. lia.
Qed.

Lemma resolve_sentiment_counts p n f e :
  match resolve_sentiment p n f e with
  | EXCITED => (0 < e)%nat
  | FRUSTRATED => (0 < f)%nat
  | POSITIVE => (0 < p)%nat
  | NEGATIVE => (0 < n)%nat
  | NEUTRAL => True
  end.
Proof. unfold resolve_sentiment. repeat case_bool_decide; lia || done. Qed.

End SentimentWords.

(** Every keyword of the set is in the list given or holds a space. *)
Ltac single_or_phrase :=
  let k := fresh "k" in
  let Hk := fresh "Hk" in
  intros k Hk;
  first [unfold POSITIVE_KEYWORDS in Hk | unfold NEGATIVE_KEYWORDS in Hk
        | unfold FRUSTRATED_KEYWORDS in Hk | unfold EXCITED_KEYWORDS in Hk];
  apply elem_of_list_to_set in Hk; revert k Hk;
  apply Forall_forall; compute_done.

(** X20. [analyze_sentiment] looks the words of the text up in the
    keyword sets, and a word holds no space: the keywords of several
    words ("không hiểu", "tại sao", "tuyệt vời", ...) never count.  So a
    text is tagged FRUSTRATED only if "help" or "giúp" is one of its
    lower-cased words, and EXCITED, POSITIVE or NEGATIVE only if one of
    the single-word keywords of that set is. *)
Theorem analyze_sentiment_counts_single_words `{PyUnicode} (t : text) :
  let words := py_split (py_lower t) in
  (∀ k, 32 ∈ k → k ∉ words)
  ∧ (analyze_sentiment t = FRUSTRATED →
     utf8 "help" ∈ words ∨ utf8 "giúp" ∈ words)
  ∧ (analyze_sentiment t = EXCITED →
     ∃ w, w ∈ words
          ∧ w ∈ [ utf8 "wow"; utf8 "amazing"; utf8 "incredible";
                  utf8 "fantastic"; utf8 "gấp"; utf8 "urgent" ])
  ∧ (analyze_sentiment t = POSITIVE →
     ∃ w, w ∈ words
          ∧ w ∈ [ utf8 "tốt"; utf8 "hay"; utf8 "tuyệt"; utf8 "đẹp";
                  utf8 "thích"; utf8 "yêu"; utf8 "vui"; utf8 "thanks";
                  utf8 "khuyên" ])
  ∧ (analyze_sentiment t = NEGATIVE →
     ∃ w, w ∈ words
          ∧ w ∈ [ utf8 "tệ"; utf8 "xấu"; utf8 "ghét"; utf8 "chán";
                  utf8 "buồn"; utf8 "phiền"; utf8 "đắt"; utf8 "mắc";
                  utf8 "giả"; utf8 "lỗi"; utf8 "sai" ]).
Proof.
  cbv zeta.
  assert (Hwords : ∀ k, 32 ∈ k → k ∉ py_split (py_lower t))
    by (intros k; apply space_not_in_words).
  split; [exact Hwords|].
  rewrite analyze_sentiment_words. unfold sentiment_of_words.
  pose proof (resolve_sentiment_counts
    (size ((list_to_set (py_split (py_lower t)) : gset text) ∩ POSITIVE_KEYWORDS))
    (size ((list_to_set (py_split (py_lower t)) : gset text) ∩ NEGATIVE_KEYWORDS))
    (size ((list_to_set (py_split (py_lower t)) : gset text) ∩ FRUSTRATED_KEYWORDS))
    (size ((list_to_set (py_split (py_lower t)) : gset text) ∩ EXCITED_KEYWORDS)))
    as Hcount.
  split; [|split; [|split]]; intros Htag; rewrite Htag in Hcount.
  - destruct (keyword_hit FRUSTRATED_KEYWORDS [utf8 "help"; utf8 "giúp"]
                (py_split (py_lower t))) as (w & Hw & Hs);
      [single_or_phrase|exact Hwords|exact Hcount|].
    apply elem_of_cons in Hs as [->|Hs]; [by left|].
    apply list_elem_of_singleton in Hs as ->. by right.
  - apply (keyword_hit EXCITED_KEYWORDS);
      [single_or_phrase|exact Hwords|exact Hcount].
  - apply (keyword_hit POSITIVE_KEYWORDS);
      [single_or_phrase|exact Hwords|exact Hcount].
  - apply (keyword_hit NEGATIVE_KEYWORDS);
      [single_or_phrase|exact Hwords|exact Hcount].
Qed.

Lemma analyze_sentiment_counts_single_words_witness :
  utf8 "help" ∈ py_split (py_lower (utf8 "Help tôi"))
  ∨ utf8 "giúp" ∈ py_split (py_lower (utf8 "Help tôi")).
Proof.
  apply (proj1 (proj2 (analyze_sentiment_counts_single_words
                         (utf8 "Help tôi")))).
  vm_compute. reflexivity.
Defined.

(** ** The entities of a classification *)

Section EntityFacts.
Context `{PyUnicode}.

Lemma match_here_string ic r s cur m cur' :
  match_here ic r s cur = Some (m, cur') → m_string m = s.
Proof.
  unfold match_here. destruct (re_match _ _ _ _ _) as [[c gs]|]; [|done].
  by intros [= <- _].
Qed.

Lemma search_from_string ic r s prev rest pos m cur' :
  search_from ic r s prev rest pos = Some (m, cur') → m_string m = s.
Proof.
  revert prev pos. induction rest as [|x rest IH]; intros prev pos;
    cbn [search_from];
    destruct (match_here ic r s (Cursor prev _ pos)) as [[m0 c0]|] eqn:Hm.
  - intros [= <- _]. by eapply match_here_string.
  - done.
  - intros [= <- _]. by eapply match_here_string.
  - apply IH.
Qed.

Lemma finditer_from_string fuel ic r s cur m :
  m ∈ finditer_from fuel ic r s cur → m_string m = s.
Proof.
  revert cur. induction fuel as [|fuel IH]; intros cur; cbn [finditer_from];
    [intros Hm; by apply elem_of_nil in Hm|].
  destruct (search_from _ _ _ _ _ _) as [[m0 c0]|] eqn:Hs;
    [|intros Hm; by apply elem_of_nil in Hm].
  intros [->|Hm]%elem_of_cons; [by eapply search_from_string|].
  destruct (_ <? _)%nat; [by eapply IH|].
  destruct (step c0); [by eapply IH|by apply elem_of_nil in Hm].
Qed.

Lemma re_finditer_string pattern s ic m :
  m ∈ re_finditer pattern s ic → m_string m = s.
Proof.
  unfold re_finditer. destruct (re_compile pattern);
    [apply finditer_from_string|intros Hm; by apply elem_of_nil in Hm].
Qed.

(** An entity as the loop of [classify_intent] builds it. *)
Definition entity_of (expanded_text : text) (e : ExtractedEntity) : Prop :=
  ∃ intent_type patterns pattern m,
    (intent_type, patterns) ∈ intent_patterns
    ∧ pattern ∈ patterns
    ∧ m ∈ re_finditer pattern expanded_text true
    ∧ e = mkEntity (m_text m) (_calculate_confidence m expanded_text)
                   (m_start m) (m_end m) (intent_value intent_type).

(** What holds of the entities at every point of the three loops. *)
Definition entities_inv (expanded_text : text) (b : best) : Prop :=
  ((best_intent b = UNKNOWN ∧ matched_entities b = [])
   ∨ (best_intent b ∈ intent_patterns.*1 ∧ matched_entities b ≠ []))
  ∧ NoDup (value <$> matched_entities b)
  ∧ Forall (entity_of expanded_text) (matched_entities b).

Lemma consider_entities expanded_text intent_type patterns pattern b m :
  (intent_type, patterns) ∈ intent_patterns →
  pattern ∈ patterns →
  m ∈ re_finditer pattern expanded_text true →
  entities_inv expanded_text b →
  entities_inv expanded_text (consider expanded_text intent_type b m).
Proof.
  intros Hi Hp Hm (Hint & Hnd & Hall). unfold consider. cbv zeta.
  destruct (PrimFloat.ltb _ _); [|done].
  unfold entities_inv. cbn [best_intent matched_entities].
  assert (Hpat : intent_type ∈ intent_patterns.*1).
  { apply list_elem_of_fmap. by exists (intent_type, patterns). }
  destruct (existsb _ (matched_entities b)) eqn:Hex;
    cbn [best_intent matched_entities].
  - split; [|done]. right. split; [exact Hpat|].
    intros Hnil. rewrite Hnil in Hex. discriminate.
  - split; [|split].
    + right. split; [exact Hpat|]. by destruct (matched_entities b).
    + rewrite fmap_app. apply NoDup_app. split; [exact Hnd|].
      split; [|apply NoDup_singleton].
      intros v Hv ->%list_elem_of_singleton.
      apply list_elem_of_fmap in Hv as (e & He & Hin).
      assert (Htrue : existsb (λ e, bool_decide (value e = m_text m))
                        (matched_entities b) = true).
      { apply existsb_exists. exists e.
        split; [by apply list_elem_of_In|]. by apply bool_decide_eq_true. }
      congruence.
    + apply Forall_app. split; [exact Hall|].
      apply Forall_singleton. by exists intent_type, patterns, pattern, m.
Qed.

Lemma best_match_entities expanded_text :
  entities_inv expanded_text (best_match expanded_text).
Proof.
  unfold best_match. cbv zeta.
  apply foldl_invariant.
  { split; [by left|]. split; [apply NoDup_nil_2|apply Forall_nil_2]. }
  intros b [intent_type patterns] Hin Hb.
  apply elem_of_sorted_reverse in Hin.
  apply foldl_invariant; [exact Hb|].
  intros b' pattern Hp Hb'.
  apply foldl_invariant; [exact Hb'|].
  intros b'' m Hm Hb''.
  by apply (consider_entities expanded_text intent_type patterns pattern).
Qed.

Lemma unknown_has_no_pattern : UNKNOWN ∉ intent_patterns.*1.
Proof. compute_done. Qed.

Lemma dead_intents_have_no_pattern i :
  i ∈ [RECOMMEND_BEST; COMPARISON; REVIEW] → i ∉ intent_patterns.*1.
Proof.
  revert i. apply Forall_forall. compute_done.
Qed.

Lemma entity_of_facts expanded_text e :
  entity_of expanded_text e →
  value e = slice expanded_text (start_pos e) (end_pos e)
  ∧ PrimFloat.leb (entity_confidence e) 1.0 = true
  ∧ ∃ i, i ∈ intent_patterns.*1 ∧ entity_type e = intent_value i.
Proof.
  intros (intent_type & patterns & pattern & m & Hi & Hp & Hm & ->).
  cbn [value start_pos end_pos entity_confidence entity_type].
  split; [|split].
  - unfold m_text. by rewrite (re_finditer_string _ _ _ _ Hm).
  - unfold _calculate_confidence. cbv zeta. apply py_min_one_le.
  - exists intent_type. split; [|reflexivity].
    apply list_elem_of_fmap. by exists (intent_type, patterns).
Qed.

(** The result built from a loop state with the invariant. *)
Lemma result_shape_of_best expanded_text t (b : best) params :
  entities_inv expanded_text b →
  let r := mkIntentResult (best_intent b) (best_confidence b)
                          (matched_entities b) params t None None in
  (∀ i, i ∈ [RECOMMEND_BEST; COMPARISON; REVIEW] → intent r ≠ i)
  ∧ (intent r = UNKNOWN ↔ entities r = [])
  ∧ NoDup (value <$> entities r)
  ∧ ∀ e, e ∈ entities r →
      value e = slice expanded_text (start_pos e) (end_pos e)
      ∧ PrimFloat.leb (entity_confidence e) 1.0 = true
      ∧ ∃ i, i ∈ intent_patterns.*1 ∧ entity_type e = intent_value i.
Proof.
  intros (Hint & Hnd & Hall). cbv zeta. cbn [intent entities].
  split; [|split; [|split]].
  - intros i Hi Heq. destruct Hint as [[Hu _]|[Hp _]].
    + rewrite Hu in Heq. subst i. revert Hi. compute_done.
    + rewrite Heq in Hp. by apply (dead_intents_have_no_pattern i).
  - destruct Hint as [[Hu Hnil]|[Hp Hne]]; [done|].
    split; [|done]. intros Hu. rewrite Hu in Hp.
    by destruct unknown_has_no_pattern.
  - exact Hnd.
  - intros e He. rewrite Forall_forall in Hall.
    by apply entity_of_facts, Hall.
Qed.

End EntityFacts.

(** X21. What [classify_intent] returns.  The intent is UNKNOWN or one
    of the thirteen intents that have patterns, never RECOMMEND_BEST,
    COMPARISON or REVIEW; it is UNKNOWN exactly when no entity was
    collected.  No two entities carry the same text; each entity is the
    piece of the normalised and expanded input between its two positions,
    has a confidence of at most 1 and the value of an intent with
    patterns as its type. *)
Theorem classify_intent_entities `{PyUnicode} (t : text) :
  let r := classify_intent t in
  let expanded_text := expand_synonyms (normalize_text t) in
  (∀ i, i ∈ [RECOMMEND_BEST; COMPARISON; REVIEW] → intent r ≠ i)
  ∧ (intent r = UNKNOWN ↔ entities r = [])
  ∧ NoDup (value <$> entities r)
  ∧ ∀ e, e ∈ entities r →
      value e = slice expanded_text (start_pos e) (end_pos e)
      ∧ PrimFloat.leb (entity_confidence e) 1.0 = true
      ∧ ∃ i, i ∈ intent_patterns.*1 ∧ entity_type e = intent_value i.
Proof.
  cbv zeta. unfold classify_intent.
  case_bool_decide as Ht.
  - cbn [intent entities]. split; [|split; [done|split]].
    + intros i Hi <-. revert Hi. compute_done.
    + apply NoDup_nil_2.
    + intros e He. by apply elem_of_nil in He.
  - apply result_shape_of_best, best_match_entities.
Qed.

(** ** Numbers read from an utterance *)

Section QuantityFacts.
Context `{PyUnicode}.

Lemma py_int_fold_none t :
  foldl (λ acc c, a ← acc; d ← py_decimal c; Some (10 * a + d)%Z) None t
  = None.
Proof. induction t as [|c t IH]; [done|]. exact IH. Qed.

Lemma py_int_fold_nonneg t a q :
  (∀ c d, py_decimal c = Some d → (0 ≤ d)%Z) →
  (0 ≤ a)%Z →
  foldl (λ acc c, a ← acc; d ← py_decimal c; Some (10 * a + d)%Z)
        (Some a) t = Some q →
  (0 ≤ q)%Z.
Proof.
  intros Hdec. revert a. induction t as [|c t IH]; intros a Ha.
  - cbn. intros [= <-]. exact Ha.
  - cbn [foldl]. cbn [mbind option_bind].
    destruct (py_decimal c) as [d|] eqn:Hd.
    + cbn [mbind option_bind]. apply IH. specialize (Hdec c d Hd). lia.
    + cbn [mbind option_bind]. by rewrite py_int_fold_none.
Qed.

Lemma py_int_nonneg t q :
  (∀ c d, py_decimal c = Some d → (0 ≤ d)%Z) →
  py_int t = Some q → (0 ≤ q)%Z.
Proof.
  intros Hdec. unfold py_int. destruct t as [|c t]; [done|].
  by apply py_int_fold_nonneg.
Qed.

End QuantityFacts.


Lemma latin_digits_not_negative c d :
  Latin.decimal c = Some d → (0 ≤ d)%Z.
Proof.
  unfold Latin.decimal. destruct (Latin.between _ _ _); [|done].
  intros [= <-]. lia.
Qed.


(** ** Runs of digits *)

Section DigitRuns.
Context `{PyUnicode}.

Definition is_decimal (c : N) : bool :=
  bool_decide (is_Some (py_decimal c)).

(** The number of decimal digits a text starts with. *)
Fixpoint digits_at (t : text) : nat :=
  match t with
  | c :: t' => if is_decimal c then S (digits_at t') else 0
  | [] => 0
  end.

(** The leftmost run of ten or more digits, cut after eleven. *)
Fixpoint first_digit_run (t : text) : option text :=
  match t with
  | [] => None
  | _ :: t' =>
    if (10 <=? digits_at t)%nat
    then Some (take (digits_at t `min` 11) t)
    else first_digit_run t'
  end.

(** The cursor [j] characters on. *)
Fixpoint cursor_after (j : nat) (prev : option N) (rest : text) (pos : nat)
    : cursor :=
  match j, rest with
  | S j', x :: rest' => cursor_after j' (Some x) rest' (S pos)
  | _, _ => Cursor prev rest pos
  end.

Lemma digits_at_le t : (digits_at t ≤ length t)%nat.
Proof.
  induction t as [|c t IH]; [done|]. cbn [digits_at length].
  destruct (is_decimal c); lia.
Qed.

Lemma cursor_after_pos j prev rest pos :
  (j ≤ length rest)%nat → cur_pos (cursor_after j prev rest pos) = (pos + j)%nat.
Proof.
  revert prev rest pos. induction j as [|j IH]; intros prev rest pos Hj.
  - destruct rest; cbn; lia.
  - destruct rest as [|x rest]; [simpl in Hj; lia|].
    cbn [cursor_after]. rewrite IH by (simpl in Hj; lia). lia.
Qed.

Lemma take_digits j t c :
  (j ≤ digits_at t)%nat → c ∈ take j t → is_Some (py_decimal c).
Proof.
  revert t. induction j as [|j IH]; intros t Hj Hc.
  - rewrite take_0 in Hc. by apply elem_of_nil in Hc.
  - destruct t as [|x t]; [by apply elem_of_nil in Hc|].
    cbn [digits_at] in Hj. destruct (is_decimal x) eqn:Hx; [|lia].
    cbn [take] in Hc. apply elem_of_cons in Hc as [->|Hc].
    + by apply bool_decide_eq_true in Hx.
    + apply (IH t); [lia|exact Hc].
Qed.

Lemma digits_at_app ds post :
  (∀ c, c ∈ ds → is_Some (py_decimal c)) →
  (length ds ≤ digits_at (ds ++ post))%nat.
Proof.
  induction ds as [|x ds IH]; intros Hds; [simpl; lia|].
  cbn [app digits_at length]. unfold is_decimal.
  rewrite (bool_decide_eq_true_2 _ (Hds x (list_elem_of_here _ _))).
  specialize (IH (λ c Hc, Hds c (list_elem_of_further _ _ _ Hc))). lia.
Qed.

(** *** The digit class and its repetition *)

(** What [\d] does at a cursor. *)
Definition digit_body
    (body : cursor → groups → (cursor → groups → option (cursor * groups))
            → option (cursor * groups))
    : Prop :=
  ∀ cur gs k,
    body cur gs k =
    match cur_rest cur with
    | x :: rest => if is_decimal x then k (advance x rest cur) gs else None
    | [] => None
    end.

Lemma re_match_digit ic : digit_body (re_match ic (RSet false [CDigit])).
Proof.
  intros cur gs k. cbn [re_match]. destruct (cur_rest cur); [done|].
  unfold in_set. cbn [existsb in_item xorb]. by rewrite orb_false_r.
Qed.

(** [\d{lo,hi}] before a rest of the pattern that cannot fail takes as
    many digits as there are, up to [hi]. *)
Lemma rounds_digits body k fuel lo hi n prev rest pos gs :
  digit_body body →
  (∀ cur gs, is_Some (k cur gs)) →
  (length rest < fuel)%nat →
  rounds body true lo (Some hi) k fuel n (Cursor prev rest pos) gs
  = let j := (digits_at rest `min` (hi - n))%nat in
    if (lo <=? n + j)%nat then k (cursor_after j prev rest pos) gs
    else None.
Proof.
  intros Hbody Hk. revert n prev rest pos.
  induction fuel as [|fuel IH]; intros n prev rest pos Hlen; [lia|].
  rewrite rounds_S. cbn [under]. cbv zeta.
  assert (Hstop : ∀ j, j = 0%nat →
    (if (lo <=? n)%nat then k (Cursor prev rest pos) gs else None)
    = (if (lo <=? n + j)%nat then k (cursor_after j prev rest pos) gs
       else None)).
  { intros j ->. rewrite Nat.add_0_r. by destruct rest. }
  destruct (Nat.ltb_spec n hi) as [Hn|Hn].
  - rewrite Hbody. cbn [cur_rest].
    destruct rest as [|x rest]; [by apply Hstop|].
    cbn [digits_at]. destruct (is_decimal x) eqn:Hx; [|by apply Hstop].
    unfold advance. cbn [cur_pos].
    replace (pos <? S pos)%nat with true by (symmetry; apply Nat.ltb_lt; lia).
    rewrite IH by (simpl in Hlen; lia). cbv zeta.
    replace (S (digits_at rest) `min` (hi - n))%nat
      with (S (digits_at rest `min` (hi - S n)))%nat by lia.
    cbn [cursor_after].
    replace (n + S (digits_at rest `min` (hi - S n)))%nat
      with (S n + digits_at rest `min` (hi - S n))%nat by lia.
    destruct (Nat.leb_spec lo (S n + digits_at rest `min` (hi - S n)))
      as [Hlo|Hlo].
    + by destruct (Hk (cursor_after (digits_at rest `min` (hi - S n))
                                    (Some x) rest (S pos)) gs) as [res ->].
    + replace (lo <=? n)%nat with false
        by (symmetry; apply Nat.leb_gt; lia). reflexivity.
  - apply Hstop. lia.
Qed.

(** *** The three phone patterns *)

Definition phone_1 : regex :=
  RSeq (RGroup 1 (RSeq (RRepeat true 10 (Some 11%nat) (RSet false [CDigit]))
                       REmpty)) REmpty.

Definition phone_2 : regex :=
  RSeq (RGroup 1
          (RSeq (RChar 43) (RSeq (RChar 56) (RSeq (RChar 52)
             (RSeq (RRepeat true 9 (Some 10%nat) (RSet false [CDigit]))
                   REmpty))))) REmpty.

Definition phone_3 : regex :=
  RSeq (RGroup 1
          (RSeq (RChar 48)
             (RSeq (RRepeat true 9 (Some 10%nat) (RSet false [CDigit]))
                   REmpty))) REmpty.

Lemma phone_1_compiled : re_compile (utf8 "(\d{10,11})") = Some phone_1.
Proof. vm_compute. reflexivity. Qed.

Lemma phone_2_compiled : re_compile (utf8 "(\+84\d{9,10})") = Some phone_2.
Proof. vm_compute. reflexivity. Qed.

Lemma phone_3_compiled : re_compile (utf8 "(0\d{9,10})") = Some phone_3.
Proof. vm_compute. reflexivity. Qed.

Lemma match_here_phone_1 s prev rest pos :
  match_here false phone_1 s (Cursor prev rest pos)
  = let j := (digits_at rest `min` 11)%nat in
    if (10 <=? j)%nat
    then Some (mkMatch pos (pos + j) [(1%nat, (pos, (pos + j)%nat))] s,
               cursor_after j prev rest pos)
    else None.
Proof.
  unfold match_here, phone_1. cbn [re_match cur_rest cur_pos].
  change (rounds _ true 10 (Some 11%nat))
    with (rounds (re_match false (RSet false [CDigit])) true 10
                 (Some 11%nat)).
  rewrite rounds_digits;
    [|apply re_match_digit|intros cur gs; by eexists|lia].
  cbv zeta. rewrite Nat.sub_0_r. cbn [Nat.add].
  destruct (10 <=? _)%nat; [|reflexivity].
  unfold accept.
  rewrite cursor_after_pos; [reflexivity|].
  pose proof (digits_at_le rest). lia.
Qed.

(** The tail of a run of fewer than [n] digits starts no run either. *)
Lemma match_here_digits_short body lo hi k rest prev pos gs :
  digit_body body →
  (∀ cur gs, is_Some (k cur gs)) →
  (digits_at rest < lo)%nat →
  rounds body true lo (Some hi) k
         (S (length rest)) 0 (Cursor prev rest pos) gs = None.
Proof.
  intros Hbody Hk Hshort. rewrite rounds_digits by (done || lia). cbv zeta.
  replace (lo <=? 0 + _)%nat with false; [done|].
  symmetry. apply Nat.leb_gt. lia.
Qed.

Lemma first_digit_run_cons x t :
  first_digit_run (x :: t)
  = if (10 <=? digits_at (x :: t))%nat
    then Some (take (digits_at (x :: t) `min` 11) (x :: t))
    else first_digit_run t.
Proof. reflexivity. Qed.

Lemma first_digit_run_none_inv x t :
  first_digit_run (x :: t) = None →
  (digits_at (x :: t) < 10)%nat ∧ first_digit_run t = None.
Proof.
  rewrite first_digit_run_cons.
  destruct (Nat.leb_spec 10 (digits_at (x :: t))); [done|]. by split.
Qed.

Lemma search_phone_1 s prev rest pos :
  rest = drop pos s →
  (search_from false phone_1 s prev rest pos ≫= λ res, m_group res.1 1)
  = first_digit_run rest.
Proof.
  revert prev pos. induction rest as [|x rest IH]; intros prev pos Hrest;
    cbn [search_from]; rewrite match_here_phone_1; cbv zeta.
  - reflexivity.
  - rewrite first_digit_run_cons.
    destruct (Nat.leb_spec 10 (digits_at (x :: rest) `min` 11)) as [Hrun|Hrun].
    + replace (10 <=? digits_at (x :: rest))%nat with true
        by (symmetry; apply Nat.leb_le; lia).
      cbn [mbind option_bind fst]. unfold m_group, m_span.
      cbn [m_groups group_span Nat.eqb mbind option_bind m_string].
      unfold slice. rewrite <- Hrest. do 2 f_equal. lia.
    + replace (10 <=? digits_at (x :: rest))%nat with false
        by (symmetry; apply Nat.leb_gt; lia).
      apply IH.
      replace (S pos) with (pos + 1)%nat by lia.
      by rewrite <- drop_drop, <- Hrest.
Qed.

Section Unreachable.
Hypothesis digit_0 : is_decimal 48 = true.
Hypothesis digit_4 : is_decimal 52 = true.
Hypothesis digit_8 : is_decimal 56 = true.

Lemma search_phone_3 s prev rest pos :
  first_digit_run rest = None →
  search_from false phone_3 s prev rest pos = None.
Proof using digit_0.
  revert prev pos. induction rest as [|x rest IH]; intros prev pos Hnone;
    cbn [search_from].
  - reflexivity.
  - apply first_digit_run_none_inv in Hnone as [Hshort Hnone].
    rewrite (IH _ _ Hnone).
    replace (match_here false phone_3 s (Cursor prev (x :: rest) pos))
      with (@None (Match * cursor)); [reflexivity|].
    symmetry. unfold match_here, phone_3.
    cbn [re_match cur_rest cur_pos char_eq].
    destruct (N.eqb_spec 48 x) as [<-|Hx]; [|reflexivity].
    cbn [digits_at] in Hshort. rewrite digit_0 in Hshort.
    unfold advance. cbn [cur_rest cur_pos].
    rewrite match_here_digits_short;
      [reflexivity|apply (re_match_digit false)
      |intros cur gs; by eexists|lia].
Qed.

Lemma search_phone_2 s prev rest pos :
  first_digit_run rest = None →
  search_from false phone_2 s prev rest pos = None.
Proof using digit_4 digit_8.
  revert prev pos. induction rest as [|x rest IH]; intros prev pos Hnone;
    cbn [search_from].
  - reflexivity.
  - apply first_digit_run_none_inv in Hnone as [_ Hnone].
    rewrite (IH _ _ Hnone).
    replace (match_here false phone_2 s (Cursor prev (x :: rest) pos))
      with (@None (Match * cursor)); [reflexivity|].
    symmetry. unfold match_here, phone_2.
    cbn [re_match cur_rest cur_pos char_eq].
    destruct (43 =? x); [|reflexivity].
    unfold advance. cbn [cur_rest cur_pos].
    destruct rest as [|y rest]; [reflexivity|].
    destruct (N.eqb_spec 56 y) as [<-|Hy]; [|reflexivity].
    cbn [cur_rest cur_pos].
    destruct rest as [|z rest]; [reflexivity|].
    destruct (N.eqb_spec 52 z) as [<-|Hz]; [|reflexivity].
    cbn [cur_rest cur_pos].
    apply first_digit_run_none_inv in Hnone as [Hshort _].
    cbn [digits_at] in Hshort. rewrite digit_8, digit_4 in Hshort.
    rewrite match_here_digits_short;
      [reflexivity|apply (re_match_digit false)
      |intros cur gs; by eexists|lia].
Qed.

Lemma extract_phone_number_eq t :
  extract_phone_number t = first_digit_run t.
Proof using digit_0 digit_4 digit_8.
  unfold extract_phone_number, phone_patterns.
  cbn [first_phone]. unfold re_search.
  rewrite phone_1_compiled, phone_2_compiled, phone_3_compiled.
  pose proof (search_phone_1 t None t 0 eq_refl) as Hs1.
  destruct (search_from false phone_1 t None t 0) as [[m c]|];
    cbn [fmap option_fmap option_map fst mbind option_bind] in *;
    [exact Hs1|].
  symmetry in Hs1.
  by rewrite (search_phone_2 t None t 0 Hs1),
             (search_phone_3 t None t 0 Hs1).
Qed.
End Unreachable.

(** *** What the first run is *)

Lemma first_digit_run_some t p :
  first_digit_run t = Some p →
  (length p = 10 ∨ length p = 11)%nat
  ∧ (∀ c, c ∈ p → is_Some (py_decimal c))
  ∧ ∃ pre post, t = pre ++ p ++ post.
Proof.
  revert p. induction t as [|x t IH]; intros p; [done|].
  rewrite first_digit_run_cons.
  destruct (Nat.leb_spec 10 (digits_at (x :: t))) as [Hrun|Hrun].
  - intros Hp. apply (inj Some) in Hp. subst p.
    pose proof (digits_at_le (x :: t)) as Hle.
    split; [rewrite length_take; lia|]. split.
    + intros c. apply take_digits. lia.
    + exists [], (drop (digits_at (x :: t) `min` 11) (x :: t)).
      by rewrite app_nil_l, take_drop.
  - intros Hp. destruct (IH p Hp) as (Hlen & Hdig & pre & post & ->).
    split; [exact Hlen|]. split; [exact Hdig|]. by exists (x :: pre), post.
Qed.

Lemma first_digit_run_none t :
  first_digit_run t = None ↔
  ∀ pre ds post, t = pre ++ ds ++ post →
                 (∀ c, c ∈ ds → is_Some (py_decimal c)) →
                 (length ds < 10)%nat.
Proof.
  split.
  - intros Hnone pre. revert t Hnone.
    induction pre as [|y pre IH]; intros t Hnone ds post -> Hds.
    + cbn [app] in Hnone. pose proof (digits_at_app ds post Hds) as Hle.
      destruct (ds ++ post) as [|x u] eqn:Hu.
      * destruct ds; [simpl; lia|discriminate].
      * apply first_digit_run_none_inv in Hnone as [Hshort _]. lia.
    + cbn [app] in Hnone.
      apply first_digit_run_none_inv in Hnone as [_ Hnone].
      by apply (IH _ Hnone ds post).
  - intros Hno. destruct (first_digit_run t) as [p|] eqn:Hp; [|done].
    destruct (first_digit_run_some t p Hp) as (Hlen & Hdig & pre & post & Ht).
    specialize (Hno pre p post Ht Hdig). lia.
Qed.

End DigitRuns.

(** X23. [extract_phone_number] returns the leftmost run of ten or more
    decimal digits of the text, cut after eleven digits, and [None] when
    the text has no ten digits in a row.  Its second and third pattern
    never decide: wherever "+84" or "0" followed by nine digits stands,
    the first pattern finds ten digits, so a number written "+84..." is
    returned from its "84" on, without the plus sign.  (The digits are
    those of a table in which the ASCII digits are decimal digits.) *)
Theorem extract_phone_number_is_first_digit_run `{PyUnicode} (t : text) :
  (∀ c, 48 ≤ c ≤ 57 → is_Some (py_decimal c)) →
  extract_phone_number t = first_digit_run t
  ∧ (∀ p, extract_phone_number t = Some p →
          (length p = 10 ∨ length p = 11)%nat
          ∧ (∀ c, c ∈ p → is_Some (py_decimal c))
          ∧ ∃ pre post, t = pre ++ p ++ post)
  ∧ (extract_phone_number t = None ↔
     ∀ pre ds post,
       t = pre ++ ds ++ post →
       (∀ c, c ∈ ds → is_Some (py_decimal c)) →
       (length ds < 10)%nat).
Proof.
  intros Hascii.
  assert (Heq : extract_phone_number t = first_digit_run t).
  { apply extract_phone_number_eq; apply bool_decide_eq_true_2, Hascii; lia. }
  split; [exact Heq|]. rewrite Heq. split.
  - apply first_digit_run_some.
  - apply first_digit_run_none.
Qed.

Lemma latin_ascii_digits c : 48 ≤ c ≤ 57 → is_Some (Latin.decimal c).
Proof.
  intros Hc. unfold Latin.decimal, Latin.between.
  replace (48 <=? c) with true by (symmetry; apply N.leb_le; lia).
  replace (c <=? 57) with true by (symmetry; apply N.leb_le; lia).
  by eexists.
Qed.

Lemma extract_phone_number_is_first_digit_run_witness :
  extract_phone_number (utf8 "gọi +84987654321 nhé")
  = first_digit_run (utf8 "gọi +84987654321 nhé")
  ∧ first_digit_run (utf8 "gọi +84987654321 nhé") = Some (utf8 "84987654321").
Proof.
  split; [|vm_compute; reflexivity].
  apply (proj1 (@extract_phone_number_is_first_digit_run latin_unicode
                  (utf8 "gọi +84987654321 nhé") latin_ascii_digits)).
Defined.

(** ** The address step of the dialogue *)

Section AddressStep.
Context `{PyUnicode}.

Lemma address_after_nonempty keywords lowered a :
  address_after keywords lowered = Some a → a ≠ [].
Proof.
  induction keywords as [|k ks IH]; [done|]. cbn [address_after].
  destruct (py_contains k lowered); [|exact IH].
  cbv zeta. destruct (1 <? _)%nat; [|exact IH].
  case_bool_decide as Ha; cbn [negb]; [exact IH|].
  by intros [= <-].
Qed.

(** [extract_address] finds an address in whatever is left of the text
    when the runs of 9 to 11 digits are taken out, unless nothing but
    whitespace is left. *)
Lemma extract_address_some t :
  py_strip (re_sub (utf8 "\d{9,11}") [] t) ≠ [] →
  ∃ a, extract_address t = Some a ∧ a ≠ [].
Proof.
  intros Hleft. unfold extract_address. cbv zeta.
  destruct (address_after _ _) as [a|] eqn:Ha.
  - exists a. split; [reflexivity|]. by eapply address_after_nonempty.
  - rewrite bool_decide_false by done. cbn [negb]. by eexists.
Qed.

End AddressStep.

(** X24. The address step of the dialogue goes on only with a phone
    number.  An utterance without ten digits in a row gets the retry
    prompt and nothing is changed.  An utterance with such a run, and
    with anything but whitespace left when its runs of 9 to 11 digits
    are taken out, is handed to [process_address_phone], with the first
    run (cut after eleven digits) as the phone number and a non-empty
    address. *)
Theorem handle_address_phone_input_needs_ten_digits
    `{PyUnicode} clock (t : text) sid w :
  (∀ c, 48 ≤ c ≤ 57 → is_Some (py_decimal c)) →
  ((∀ pre ds post,
      t = pre ++ ds ++ post →
      (∀ c, c ∈ ds → is_Some (py_decimal c)) →
      (length ds < 10)%nat) →
   _handle_address_phone_input clock t sid w = (address_phone_retry, w))
  ∧ (∀ ph,
       first_digit_run t = Some ph →
       py_strip (re_sub (utf8 "\d{9,11}") [] t) ≠ [] →
       ∃ addr,
         addr ≠ []
         ∧ extract_address t = Some addr
         ∧ _handle_address_phone_input clock t sid w
           = let res := process_address_phone clock sid addr ph w in
             (mkResponse (message res.1) "order_address_phone"
                         (result_order_data res.1), res.2)).
Proof.
  intros Hascii.
  assert (Heq : extract_phone_number t = first_digit_run t).
  { apply extract_phone_number_eq; apply bool_decide_eq_true_2, Hascii; lia. }
  split.
  - intros Hno. apply first_digit_run_none in Hno.
    unfold _handle_address_phone_input. cbv zeta.
    by rewrite Heq, Hno.
  - intros ph Hph Hleft.
    destruct (extract_address_some t Hleft) as (addr & Haddr & Hne).
    exists addr. split; [exact Hne|]. split; [exact Haddr|].
    unfold _handle_address_phone_input. cbv zeta.
    rewrite Heq, Hph, Haddr.
    destruct (first_digit_run_some t ph Hph) as (Hlen & _ & _).
    rewrite (bool_decide_false (ph = []))
      by (intros ->; simpl in Hlen; lia).
    rewrite (bool_decide_false (addr = [])) by done.
    cbn [negb andb]. unfold bind, ret.
    by destruct (process_address_phone clock sid addr ph w).
Qed.

Lemma handle_address_phone_input_needs_ten_digits_witness :
  ∃ addr,
    addr ≠ []
    ∧ extract_address (utf8 "123 Hà Nội, 0987654321") = Some addr
    ∧ _handle_address_phone_input sample_clock
        (utf8 "123 Hà Nội, 0987654321") "s1"
        (sample_store WAITING_ADDRESS_PHONE (Some sample_draft))
      = let res := process_address_phone sample_clock "s1" addr
                     (utf8 "0987654321")
                     (sample_store WAITING_ADDRESS_PHONE (Some sample_draft)) in
        (mkResponse (message res.1) "order_address_phone"
                    (result_order_data res.1), res.2).
Proof.
  apply (proj2 (@handle_address_phone_input_needs_ten_digits latin_unicode
                  sample_clock (utf8 "123 Hà Nội, 0987654321") "s1"
                  (sample_store WAITING_ADDRESS_PHONE (Some sample_draft))
                  latin_ascii_digits) (utf8 "0987654321")).
  - vm_compute. reflexivity.
  - vm_compute. discriminate.
Defined.

(** ** The conversation context *)

Section ContextFacts.

Lemma py_eq_refl v : py_eq v v = true.
Proof.
  destruct v; cbn [py_eq].
  - apply Z.eqb_refl.
  - by apply bool_decide_eq_true.
  - by destruct b.
  - by apply bool_decide_eq_true.
Qed.

Lemma py_eq_sym a b : py_eq a b = py_eq b a.
Proof.
  destruct a, b; cbn [py_eq]; try reflexivity.
  - apply Z.eqb_sym.
  - apply bool_decide_ext. split; intros ->; reflexivity.
  - by destruct b0, b.
  - apply bool_decide_ext. split; intros [-> ->]; by split.
Qed.

(** No two entries of the list are equal in Python's sense. *)
Definition distinct (l : list pyval) : Prop :=
  ∀ i j x y, l !! i = Some x → l !! j = Some y → py_eq x y = true → i = j.

Lemma distinct_nil : distinct [].
Proof. intros i j x y Hx. by rewrite lookup_nil in Hx. Qed.

Lemma distinct_snoc l v :
  distinct l → existsb (py_eq v) l = false → distinct (l ++ [v]).
Proof.
  intros Hl Hv.
  assert (Hnew : ∀ i x, l !! i = Some x → py_eq v x = false).
  { intros i x Hx. destruct (py_eq v x) eqn:Heq; [|done].
    assert (existsb (py_eq v) l = true); [|congruence].
    apply existsb_exists. exists x. split; [|exact Heq].
    apply list_elem_of_In. by eapply list_elem_of_lookup_2. }
  intros i j x y Hx Hy Heq.
  destruct (decide (i < length l)%nat) as [Hi|Hi];
    destruct (decide (j < length l)%nat) as [Hj|Hj].
  - rewrite lookup_app_l in Hx, Hy by done. by apply (Hl i j x y).
  - rewrite lookup_app_l in Hx by done.
    rewrite lookup_app_r in Hy by lia.
    apply list_lookup_singleton_Some in Hy as [_ <-].
    rewrite py_eq_sym, (Hnew i x Hx) in Heq. discriminate.
  - rewrite lookup_app_l in Hy by done.
    rewrite lookup_app_r in Hx by lia.
    apply list_lookup_singleton_Some in Hx as [_ <-].
    rewrite (Hnew j y Hy) in Heq. discriminate.
  - rewrite lookup_app_r in Hx, Hy by lia.
    apply list_lookup_singleton_Some in Hx as [Hi' _].
    apply list_lookup_singleton_Some in Hy as [Hj' _]. lia.
Qed.

Lemma add_preference_distinct v l :
  distinct (default [] l) →
  ∃ l', ContextManager.add_preference v l = Some l'
        ∧ distinct l'
        ∧ existsb (py_eq v) l' = true
        ∧ default [] l `prefix_of` l'.
Proof.
  intros Hl. unfold ContextManager.add_preference. cbv zeta.
  destruct (existsb (py_eq v) (default [] l)) eqn:Hv.
  - by eexists.
  - eexists. split; [reflexivity|]. split; [by apply distinct_snoc|].
    split; [|by apply prefix_app_r].
    rewrite existsb_app. cbn [existsb]. by rewrite py_eq_refl, orb_true_r.
Qed.

(** The bounds a context keeps. *)
Definition context_bounded (c : ContextManager.ConversationContext) : Prop :=
  (length (ContextManager.conversation_history c) ≤ 10)%nat
  ∧ (length (ContextManager.user_sentiment_history c) ≤ 5)%nat
  ∧ distinct (default [] (ContextManager.preferred_categories
                            (ContextManager.user_preferences c)))
  ∧ distinct (default [] (ContextManager.preferred_authors
                            (ContextManager.user_preferences c))).

Lemma update_user_preferences_distinct prefs r :
  distinct (default [] (ContextManager.preferred_categories prefs)) →
  distinct (default [] (ContextManager.preferred_authors prefs)) →
  let prefs' := ContextManager._update_user_preferences prefs r in
  distinct (default [] (ContextManager.preferred_categories prefs'))
  ∧ distinct (default [] (ContextManager.preferred_authors prefs'))
  ∧ (∀ category,
       intent r = SEARCH_BY_CATEGORY →
       parameters r !! "category"%string = Some category →
       py_truthy category = true →
       existsb (py_eq category)
               (default [] (ContextManager.preferred_categories prefs'))
       = true)
  ∧ (∀ author,
       intent r = SEARCH_BY_AUTHOR →
       parameters r !! "author"%string = Some author →
       py_truthy author = true →
       existsb (py_eq author)
               (default [] (ContextManager.preferred_authors prefs'))
       = true).
Proof.
  intros Hc Ha. cbv zeta. unfold ContextManager._update_user_preferences.
  destruct (intent r) eqn:Hi;
    try (split; [exact Hc|]; split; [exact Ha|]; split; by intros ? ?).
  - (* SEARCH_BY_AUTHOR *)
    destruct (parameters r !! "author"%string) as [author|] eqn:Hp;
      [|split; [exact Hc|]; split; [exact Ha|]; split; by intros ? ?].
    destruct (py_truthy author) eqn:Ht;
      [|split; [exact Hc|]; split; [exact Ha|]; split;
        [by intros ? ?|intros ? _ [= <-]; congruence]].
    destruct (add_preference_distinct author _ Ha) as (l' & Hl' & Hd & He & _).
    cbn [ContextManager.preferred_categories
         ContextManager.preferred_authors].
    rewrite Hl'. cbn [default].
    split; [exact Hc|]. split; [exact Hd|]. split; [by intros ? ?|].
    by intros ? _ [= <-] _.
  - (* SEARCH_BY_CATEGORY *)
    destruct (parameters r !! "category"%string) as [category|] eqn:Hp;
      [|split; [exact Hc|]; split; [exact Ha|]; split; by intros ? ?].
    destruct (py_truthy category) eqn:Ht;
      [|split; [exact Hc|]; split; [exact Ha|]; split;
        [intros ? _ [= <-]; congruence|by intros ? ?]].
    destruct (add_preference_distinct category _ Hc)
      as (l' & Hl' & Hd & He & _).
    cbn [ContextManager.preferred_categories
         ContextManager.preferred_authors].
    rewrite Hl'. cbn [default].
    split; [exact Hd|]. split; [exact Ha|]. split; [|by intros ? ?].
    by intros ? _ [= <-] _.
  - (* SEARCH_BY_PRICE *)
    destruct (parameters r !! "price_range"%string) as [range|];
      [|split; [exact Hc|]; split; [exact Ha|]; split; by intros ? ?].
    destruct (py_truthy range);
      split; [exact Hc| |exact Hc|]; (split; [exact Ha|]);
      split; by intros ? ?.
Qed.

End ContextFacts.

(** X25. [update_context] keeps a context within its bounds: its history
    holds at most 10 entries and ends with the entry of this message, the
    sentiment history holds at most 5 sentiments and ends with the
    sentiment of this message when it has one, and no category or author
    is listed twice among the preferences.  The intent of the message
    becomes [last_intent]; a category searched for is among the preferred
    categories afterwards, an author among the preferred authors; the
    contexts of other sessions are not touched. *)
Theorem update_context_keeps_context_bounded
    sid (text_in : text) (r : IntentResult) (timestamp : time)
    (cs : ContextManager.contexts) :
  (∀ c, cs !! sid = Some c → context_bounded c) →
  let cs' := ContextManager.update_context sid text_in r timestamp cs in
  (∀ sid', sid' ≠ sid → cs' !! sid' = cs !! sid')
  ∧ ∃ c', cs' !! sid = Some c'
      ∧ context_bounded c'
      ∧ last (ContextManager.conversation_history c')
        = Some (ContextManager.mkHistoryEntry text_in (intent r)
                  (sentiment r) timestamp)
      ∧ ContextManager.last_intent c' = Some (intent r)
      ∧ (∀ s, sentiment r = Some s →
              last (ContextManager.user_sentiment_history c') = Some s)
      ∧ (∀ category,
           intent r = SEARCH_BY_CATEGORY →
           parameters r !! "category"%string = Some category →
           py_truthy category = true →
           existsb (py_eq category)
             (default [] (ContextManager.preferred_categories
                            (ContextManager.user_preferences c'))) = true)
      ∧ (∀ author,
           intent r = SEARCH_BY_AUTHOR →
           parameters r !! "author"%string = Some author →
           py_truthy author = true →
           existsb (py_eq author)
             (default [] (ContextManager.preferred_authors
                            (ContextManager.user_preferences c'))) = true).
Proof.
  intros Hok. cbv zeta.
  assert (Hget : ∃ c cs0,
    ContextManager.get_context sid cs = (c, cs0)
    ∧ context_bounded c
    ∧ ∀ sid' x, sid' ≠ sid → <[sid := x]> cs0 !! sid' = cs !! sid').
  { unfold ContextManager.get_context.
    destruct (cs !! sid) as [c|] eqn:Hc.
    - exists c, cs. split; [reflexivity|]. split; [by apply Hok|].
      intros sid' x Hne. by rewrite lookup_insert_ne.
    - eexists _, _. split; [reflexivity|]. split.
      + repeat split; simpl; try lia; apply distinct_nil.
      + intros sid' x Hne. by rewrite !lookup_insert_ne. }
  destruct Hget as (c & cs0 & Hget & (Hh & Hs & Hc & Ha) & Hother).
  unfold ContextManager.update_context. rewrite Hget. cbv zeta.
  split; [intros sid' Hne; by apply Hother|].
  eexists. split; [apply lookup_insert_eq|].
  destruct (update_user_preferences_distinct
              (ContextManager.user_preferences c) r Hc Ha)
    as (Hc' & Ha' & Hcat & Haut).
  cbv zeta in Hc', Ha', Hcat, Haut. unfold context_bounded.
  cbn [ContextManager.conversation_history ContextManager.last_intent
       ContextManager.user_sentiment_history ContextManager.user_preferences].
  split; [|split; [|split; [reflexivity|split; [|split; assumption]]]].
  - split; [|split; [|split; assumption]].
    + unfold deque_append. rewrite length_py_last. lia.
    + destruct (sentiment r) as [s|]; [|exact Hs].
      destruct (Nat.ltb_spec 5
                  (length (ContextManager.user_sentiment_history c ++ [s])))
        as [Hlt|Hge]; cbv iota; [rewrite length_py_last; lia|exact Hge].
  - unfold deque_append. rewrite last_py_last by lia. apply last_snoc.
  - intros s ->.
    destruct (5 <? _)%nat; cbv iota; [rewrite last_py_last by lia|];
      apply last_snoc.
Qed.

Lemma update_context_keeps_context_bounded_witness :
  let cs' := ContextManager.update_context "s1" (utf8 "sách về lịch sử")
               (mkIntentResult SEARCH_BY_CATEGORY 0.9
                  [] {[ "category"%string := VStr (utf8 "lịch sử") ]}
                  (utf8 "sách về lịch sử") (Some NEUTRAL) None)
               0%Z ∅ in
  ∃ c', cs' !! "s1"%string = Some c'
        ∧ ContextManager.last_intent c' = Some SEARCH_BY_CATEGORY.
Proof.
  destruct (update_context_keeps_context_bounded "s1" (utf8 "sách về lịch sử")
              (mkIntentResult SEARCH_BY_CATEGORY 0.9
                 [] {[ "category"%string := VStr (utf8 "lịch sử") ]}
                 (utf8 "sách về lịch sử") (Some NEUTRAL) None)
              0%Z ∅ ltac:(intros c Hc; by rewrite lookup_empty in Hc))
    as (_ & c' & Hc' & _ & _ & Hlast & _).
  exists c'. split; [exact Hc'|exact Hlast].
Defined.

(** X26. [get_smart_suggestions] never offers more than five
    suggestions, and those from the preferred categories come first.
    It does not change a context that exists; for a session without
    context it stores a fresh one and offers what the intent alone
    suggests. *)
Theorem get_smart_suggestions_at_most_five
    sid (current_intent : IntentType) (cs : ContextManager.contexts) :
  let res := ContextManager.get_smart_suggestions sid current_intent cs in
  (length res.1 ≤ 5)%nat
  ∧ (∀ c, cs !! sid = Some c →
          res.2 = cs
          ∧ ∀ categories,
              ContextManager.preferred_categories
                (ContextManager.user_preferences c) = Some categories →
              ((λ category, utf8 "Sách về " ++ py_str category)
                 <$> take 2 categories) `prefix_of` res.1)
  ∧ (cs !! sid = None →
     res.1 = match current_intent with
             | SEARCH_BY_CATEGORY =>
               [utf8 "Gợi ý sách hay"; utf8 "Giá dưới 100000"]
             | SEARCH_BY_AUTHOR =>
               [utf8 "Thể loại Fiction"; utf8 "Sách bán chạy"]
             | QUERY => [utf8 "Đặt mua sách này"; utf8 "Sách tương tự"]
             | _ => []
             end
     ∧ res.2 = <[sid := ContextManager.mkConversationContext sid []
                          (ContextManager.mkUserPreferences None None None)
                          None None []]> cs).
Proof.
  cbv zeta. unfold ContextManager.get_smart_suggestions,
    ContextManager.get_context.
  destruct (cs !! sid) as [c|] eqn:Hc; cbv zeta; cbn [fst snd].
  - split; [rewrite length_take; lia|]. split; [|done].
    intros c0 [= <-]. split; [reflexivity|].
    intros categories Hcat. rewrite Hcat.
    destruct categories as [|x l]; [apply prefix_nil|].
    set (by_category := _ <$> take 2 (x :: l)).
    assert (Hlen : (length by_category ≤ 5)%nat).
    { unfold by_category. rewrite length_fmap, length_take. lia. }
    rewrite take_app_ge by lia.
    by apply prefix_app_r.
  - split; [rewrite length_take; lia|]. split; [done|]. intros _.
    split; [|reflexivity].
    cbn [ContextManager.user_preferences ContextManager.preferred_categories
         ContextManager.preferred_authors
         ContextManager.user_sentiment_history last app].
    by destruct current_intent.
Qed.
